(** * Pingdom manager: a shallow embedding of [pingdom.py]

    The development follows the source file top-down: Python values and the
    built-in operations the program relies on, the HTTP boundary, the
    [Pingdom] client methods ([get_checks], [create_check], [update_check],
    [find_matching_checks]), then the two static methods
    [validate_configuration_yaml] and [process_configuration_yaml] and the
    guarded part of the [__main__] block.

    Modelling conventions.
    - A YAML/JSON value is a [pyval]: [None], booleans, integers, strings,
      lists and mappings.  Mapping keys are strings (as in JSON objects and in
      the documented configuration format) and a mapping keeps its insertion
      order, as a Python [dict] does.  Floats are not modelled.
    - A character is a code point below 256.
    - A Python exception is a value of [exn]; code that can raise returns an
      [exn + A].
    - The instance state ([self]), the requests exchanged with the remote API
      and the lines printed are threaded explicitly through a state-and-error
      monad.  An object that a callee mutates in place (the check dictionary
      handed to [update_check]) is an extra state component, so that the
      mutation is visible to the caller also when the callee raises.
    - Distinct entries of [pingdom.checks] are distinct objects (no YAML
      alias makes one dictionary appear twice in the list). *)

From Stdlib Require Import List String Ascii ZArith Bool Lia Arith.
From Stdlib Require Import DecimalString RelationClasses.
Import ListNotations.
Open Scope string_scope.
Open Scope Z_scope.

Set Implicit Arguments.

(* ------------------------------------------------------------------ *)
(** ** Strings *)

Module Str.

(** [str.lower] on code points below 256: A-Z and the Latin-1 capitals
    (U+00C0-U+00DE except the multiplication sign U+00D7) move up by 32. *)
Definition lower_char (c : ascii) : ascii :=
  let n := nat_of_ascii c in
  if ((65 <=? n) && (n <=? 90))%nat then ascii_of_nat (n + 32)
  else if ((192 <=? n) && (n <=? 222) && negb (n =? 215))%nat
       then ascii_of_nat (n + 32)
  else c.

Fixpoint lower (s : string) : string :=
  match s with
  | EmptyString => EmptyString
  | String c s' => String (lower_char c) (lower s')
  end.

(** [s.startswith(p)] *)
Definition startswith (p s : string) : bool := String.prefix p s.

(** [s.lstrip(c)] for a one-character argument *)
Fixpoint lstrip (c : ascii) (s : string) : string :=
  match s with
  | EmptyString => EmptyString
  | String a s' => if Ascii.eqb a c then lstrip c s' else s
  end.

(** [s.rstrip(c)] for a one-character argument *)
Fixpoint rstrip (c : ascii) (s : string) : string :=
  match s with
  | EmptyString => EmptyString
  | String a s' =>
      match rstrip c s' with
      | EmptyString => if Ascii.eqb a c then EmptyString else String a EmptyString
      | r => String a r
      end
  end.

(** [s[n:]] *)
Fixpoint drop (n : nat) (s : string) : string :=
  match n, s with
  | O, _ => s
  | S n', EmptyString => EmptyString
  | S n', String _ s' => drop n' s'
  end.

(** [k in s] for two strings *)
Definition contains (k s : string) : bool :=
  match String.index 0 k s with Some _ => true | None => false end.

(** the characters of a string, each as a one-character string *)
Fixpoint chars (s : string) : list string :=
  match s with
  | EmptyString => []
  | String a s' => String a EmptyString :: chars s'
  end.

(** [str(z)] for an integer *)
Definition of_Z (z : Z) : string := NilZero.string_of_int (Z.to_int z).

(** the last character, if any *)
Fixpoint last (s : string) : option ascii :=
  match s with
  | EmptyString => None
  | String a EmptyString => Some a
  | String _ s' => last s'
  end.

(** [sep.join(l)] *)
Fixpoint join (sep : string) (l : list string) : string :=
  match l with
  | [] => ""
  | [x] => x
  | x :: l' => x ++ sep ++ join sep l'
  end.

End Str.

(* ------------------------------------------------------------------ *)
(** ** Python values *)

#[warnings="-register-all"]
Inductive pyval : Type :=
| VNone
| VBool (b : bool)
| VInt (z : Z)
| VStr (s : string)
| VList (l : list pyval)
| VDict (d : list (string * pyval)).

(** A [dict] with string keys, in insertion order. *)
Definition dict := list (string * pyval).

Module Dict.

Fixpoint get (k : string) (d : dict) : option pyval :=
  match d with
  | [] => None
  | (k', v) :: d' => if String.eqb k k' then Some v else get k d'
  end.

Definition has (k : string) (d : dict) : bool :=
  match get k d with Some _ => true | None => false end.

(** [d[k] = v]: an existing key keeps its place, a new key goes last. *)
Fixpoint set (k : string) (v : pyval) (d : dict) : dict :=
  match d with
  | [] => [(k, v)]
  | (k', v') :: d' =>
      if String.eqb k k' then (k', v) :: d' else (k', v') :: set k v d'
  end.

(** [del d[k]] *)
Fixpoint del (k : string) (d : dict) : dict :=
  match d with
  | [] => []
  | (k', v') :: d' =>
      if String.eqb k k' then del k d' else (k', v') :: del k d'
  end.

End Dict.

(** Exceptions the program can meet.  [Exception msg] is an [Exception] built
    from a message string; [ExceptionBytes body] is [Exception(response.content)],
    whose argument is the raw body of a response. *)
Inductive exn : Type :=
| Exception (msg : string)
| ExceptionBytes (body : string)
| TypeError
| KeyError (key : pyval)
| IndexError
| AttributeError
| JSONDecodeError
| RequestException (detail : string).

Definition result (A : Type) : Type := (exn + A)%type.
Definition Ok {A} (a : A) : result A := inr a.
Definition Err {A} (e : exn) : result A := inl e.

Module Py.

(** [a == b] *)
Fixpoint eq (a b : pyval) {struct a} : bool :=
  match a, b with
  | VNone, VNone => true
  | VBool x, VBool y => Bool.eqb x y
  | VBool x, VInt y => Z.eqb (if x then 1 else 0) y
  | VInt x, VBool y => Z.eqb x (if y then 1 else 0)
  | VInt x, VInt y => Z.eqb x y
  | VStr x, VStr y => String.eqb x y
  | VList x, VList y =>
      (fix go (x y : list pyval) {struct x} : bool :=
         match x, y with
         | [], [] => true
         | a' :: x', b' :: y' => eq a' b' && go x' y'
         | _, _ => false
         end) x y
  | VDict x, VDict y =>
      Nat.eqb (List.length x) (List.length y) &&
      (fix go (x : dict) {struct x} : bool :=
         match x with
         | [] => true
         | (k, v) :: x' =>
             match Dict.get k y with
             | Some v' => eq v v'
             | None => false
             end && go x'
         end) x
  | _, _ => false
  end.

(** [str(v)] and [format(v)].  The [repr] of a list or a mapping is left to
    the parameter [repr]. *)
Definition str (repr : pyval -> string) (v : pyval) : string :=
  match v with
  | VNone => "None"
  | VBool true => "True"
  | VBool false => "False"
  | VInt z => Str.of_Z z
  | VStr s => s
  | VList _ | VDict _ => repr v
  end.

Definition is_dict (v : pyval) : bool :=
  match v with VDict _ => true | _ => false end.
Definition is_list (v : pyval) : bool :=
  match v with VList _ => true | _ => false end.
Definition is_str (v : pyval) : bool :=
  match v with VStr _ => true | _ => false end.
(** [isinstance(v, int)]: [bool] is a subclass of [int]. *)
Definition is_int (v : pyval) : bool :=
  match v with VInt _ | VBool _ => true | _ => false end.

(** [x in v] *)
Definition contains (x v : pyval) : result bool :=
  match v with
  | VDict d =>
      match x with
      | VStr k => Ok (Dict.has k d)
      | VList _ | VDict _ => Err TypeError
      | _ => Ok false
      end
  | VList l => Ok (existsb (eq x) l)
  | VStr s =>
      match x with
      | VStr k => Ok (Str.contains k s)
      | _ => Err TypeError
      end
  | _ => Err TypeError
  end.

(** the position a Python index [i] denotes in a sequence of length [n] *)
Definition index (i : Z) (n : nat) : option nat :=
  let len := Z.of_nat n in
  if (0 <=? i) && (i <? len) then Some (Z.to_nat i)
  else if (- len <=? i) && (i <? 0) then Some (Z.to_nat (i + len))
  else None.

Definition int_of (v : pyval) : option Z :=
  match v with
  | VInt z => Some z
  | VBool b => Some (if b then 1 else 0)
  | _ => None
  end.

(** [v[i]] *)
Definition getitem (v i : pyval) : result pyval :=
  match v with
  | VDict d =>
      match i with
      | VStr k =>
          match Dict.get k d with Some x => Ok x | None => Err (KeyError i) end
      | VList _ | VDict _ => Err TypeError
      | _ => Err (KeyError i)
      end
  | VList l =>
      match int_of i with
      | Some z =>
          match index z (List.length l) with
          | Some n =>
              match nth_error l n with Some x => Ok x | None => Err IndexError end
          | None => Err IndexError
          end
      | None => Err TypeError
      end
  | VStr s =>
      match int_of i with
      | Some z =>
          match index z (String.length s) with
          | Some n =>
              match String.get n s with
              | Some c => Ok (VStr (String c EmptyString))
              | None => Err IndexError
              end
          | None => Err IndexError
          end
      | None => Err TypeError
      end
  | _ => Err TypeError
  end.

(** [v[k] = x] for a string key [k]; the result is the object after the
    assignment. *)
Definition setitem (v : pyval) (k : string) (x : pyval) : result pyval :=
  match v with
  | VDict d => Ok (VDict (Dict.set k x d))
  | _ => Err TypeError
  end.

(** [del v[k]] for a string key [k] *)
Definition delitem (v : pyval) (k : string) : result pyval :=
  match v with
  | VDict d =>
      if Dict.has k d then Ok (VDict (Dict.del k d)) else Err (KeyError (VStr k))
  | _ => Err TypeError
  end.

(** the elements [for x in v] visits *)
Definition iter (v : pyval) : result (list pyval) :=
  match v with
  | VList l => Ok l
  | VStr s => Ok (map VStr (Str.chars s))
  | VDict d => Ok (map (fun kv => VStr (fst kv)) d)
  | _ => Err TypeError
  end.

(** [v.items()] *)
Definition items (v : pyval) : result dict :=
  match v with
  | VDict d => Ok d
  | _ => Err AttributeError
  end.

End Py.

(* ------------------------------------------------------------------ *)
(** ** State and errors *)

(** A computation over a state [S] that returns an [A] or raises.  The state
    reached when an exception is raised is kept: what was done before the
    [raise] stays done. *)
Definition M (S A : Type) : Type := S -> result A * S.

Definition ret {S A} (a : A) : M S A := fun s => (Ok a, s).

Definition bind {S A B} (m : M S A) (k : A -> M S B) : M S B :=
  fun s =>
    match m s with
    | (inr a, s') => k a s'
    | (inl e, s') => (Err e, s')
    end.

Definition raise {S A} (e : exn) : M S A := fun s => (Err e, s).

(** [try: m  except Exception as e: h e] *)
Definition try_except {S A} (m : M S A) (h : exn -> M S A) : M S A :=
  fun s =>
    match m s with
    | (inr a, s') => (Ok a, s')
    | (inl e, s') => h e s'
    end.

(** an operation of the value layer, run inside a computation *)
Definition liftR {S A} (r : result A) : M S A := fun s => (r, s).

Notation "x <- m ;; k" := (bind m (fun x => k))
  (at level 61, m at next level, right associativity).
Notation "m ;;; k" := (bind m (fun _ => k))
  (at level 61, right associativity).

(** [for x in l: a = body a x], with the loop's local variables in [a] *)
Fixpoint for_each {S A X} (body : A -> X -> M S A) (l : list X) (a : A) : M S A :=
  match l with
  | [] => ret a
  | x :: l' => a' <- body a x ;; for_each body l' a'
  end.

(** *** The object a callee works on *)

(** the object component of the state *)
Definition get_obj {O S} : M (O * S) O := fun s => (Ok (fst s), s).
Definition put_obj {O S} (o : O) : M (O * S) unit := fun s => (Ok tt, (o, snd s)).

(** a computation that does not touch the object *)
Definition lift {O S A} (m : M S A) : M (O * S) A :=
  fun s => let (r, s') := m (snd s) in (r, (fst s, s')).

(** run [m] on the object [o]; the object as [m] left it is returned with
    [m]'s outcome, raised or not *)
Definition with_obj {O S A} (o : O) (m : M (O * S) A) : S -> (result A * O) * S :=
  fun s => let '(r, (o', s')) := m (o, s) in ((r, o'), s').

(* ------------------------------------------------------------------ *)
(** ** The HTTP boundary *)

Inductive http_method : Type := GET | POST | PUT | DELETE.

Record Request : Type := {
  rq_method : http_method;
  rq_url : string;
  rq_params : option pyval;
  rq_headers : list (string * string)
}.

Record Response : Type := {
  status_code : Z;
  content : string
}.

(** what a call of [requests.get/post/put/delete] produces: a response, or an
    exception of the HTTP library (no connection, ...) *)
Inductive reply : Type :=
| Reply (r : Response)
| Raised (detail : string).

(** the requests made so far, oldest first, each with what came back *)
Definition exchanges := list (Request * reply).

(** [self] *)
Record Pingdom : Type := {
  get_checks_cache : option (list pyval);
  api_key : string
}.

(** a printed line: a literal, or the text of an exception *)
Inductive line : Type :=
| Line (s : string)
| ExnLine (e : exn).

Record St : Type := {
  self : Pingdom;
  wire : exchanges;
  stdout : list line
}.

Definition is_method (m m' : http_method) : bool :=
  match m, m' with
  | GET, GET | POST, POST | PUT, PUT | DELETE, DELETE => true
  | _, _ => false
  end.

(** a failed call: the library raised, or the status is not 200 *)
Definition failed (rp : reply) : bool :=
  match rp with
  | Reply r => negb (status_code r =? 200)
  | Raised _ => true
  end.

Definition PINGDOM_API_URL : string := "https://api.pingdom.com/api/3.1".

(** [__init__] *)
Definition init (key : string) : Pingdom :=
  {| get_checks_cache := None; api_key := key |}.

(** [__get_api_endpoint_url__] *)
Definition get_api_endpoint_url (url : string) : string :=
  let url :=
    if Str.startswith (Str.lower PINGDOM_API_URL) (Str.lower url)
    then Str.drop (String.length PINGDOM_API_URL) url
    else url in
  PINGDOM_API_URL ++ "/" ++ Str.lstrip "/"%char url.

(** [__get_auth_header__] *)
Definition get_auth_header (p : Pingdom) : list (string * string) :=
  [("Authorization", "Bearer " ++ api_key p)].

(** the request a call of [requests.<method>] sends *)
Definition request (p : Pingdom) (m : http_method) (url : string)
           (params : option pyval) : Request :=
  {| rq_method := m;
     rq_url := get_api_endpoint_url url;
     rq_params := params;
     rq_headers := get_auth_header p |}.

(** the state once [self.__get_checks_cache__ = checks] has run *)
Definition with_cache (st : St) (checks : list pyval) : St :=
  {| self := {| get_checks_cache := Some checks; api_key := api_key (self st) |};
     wire := wire st;
     stdout := stdout st |}.

(** the state once [rq] has been sent and [rp] has come back *)
Definition exchanged (st : St) (rq : Request) (rp : reply) : St :=
  {| self := self st;
     wire := (wire st ++ [(rq, rp)])%list;
     stdout := stdout st |}.

(* ------------------------------------------------------------------ *)
(** ** Code that only computes: the error monad *)

Definition rbind {A B} (r : result A) (k : A -> result B) : result B :=
  match r with
  | inr a => k a
  | inl e => Err e
  end.

Notation "'let?' x := r 'in' k" := (rbind r (fun x => k))
  (at level 10, x name, r at level 100, k at level 200).

Fixpoint rfor_each {A X} (body : A -> X -> result A) (l : list X) (a : A) : result A :=
  match l with
  | [] => Ok a
  | x :: l' => let? a' := body a x in rfor_each body l' a'
  end.

(* ------------------------------------------------------------------ *)
(** ** The client: [class Pingdom] *)

Section Client.

(** [json.loads]; [None] when it raises *)
Variable json_loads : string -> option pyval.
(** [repr] of lists and mappings, see [Py.str] *)
Variable repr : pyval -> string.
(** the remote API: what comes back for a request, given all the exchanges
    before it *)
Variable server : exchanges -> Request -> reply.

Definition loads (body : string) : result pyval :=
  match json_loads body with
  | Some v => Ok v
  | None => Err JSONDecodeError
  end.

Definition format (v : pyval) : string := Py.str repr v.

(** *** Internal HTTP methods *)

(** [requests.<method>(url=..., params=..., headers=...)] *)
Definition api_call (m : http_method) (url : string) (params : option pyval)
  : M St Response :=
  fun st =>
    let rq := request (self st) m url params in
    let rp := server (wire st) rq in
    match rp with
    | Reply r => (Ok r, exchanged st rq rp)
    | Raised d => (Err (RequestException d), exchanged st rq rp)
    end.

Definition api_delete := api_call DELETE.
Definition api_get := api_call GET.
Definition api_post := api_call POST.
Definition api_put := api_call PUT.

Definition get_cache : M St (option (list pyval)) :=
  fun st => (Ok (get_checks_cache (self st)), st).

Definition set_cache (checks : list pyval) : M St unit :=
  fun st => (Ok tt, with_cache st checks).

Definition print (l : line) : M St unit :=
  fun st =>
    (Ok tt, {| self := self st; wire := wire st; stdout := (stdout st ++ [l])%list |}).

(** *** [get_checks] *)

(** the list built from the decoded body (lines 47-51) *)
Definition checks_of_json (response_json : pyval) : result (list pyval) :=
  let? has := Py.contains (VStr "checks") response_json in
  if has then
    let? l := Py.getitem response_json (VStr "checks") in
    Py.iter l
  else Ok [].

Definition fetch_checks : M St (list pyval) :=
  response <- api_get "/checks" None ;;
  if negb (status_code response =? 200)
  then raise (ExceptionBytes (content response))
  else
    response_json <- liftR (loads (content response)) ;;
    checks <- liftR (checks_of_json response_json) ;;
    set_cache checks ;;;
    ret checks.

Definition get_checks (cache : bool) : M St (list pyval) :=
  cached <- get_cache ;;
  match (if cache then cached else None) with
  | Some checks => ret checks
  | None => fetch_checks
  end.

(** *** [create_check] *)

Definition create_check (configuration : pyval) : M St unit :=
  response_create <- api_post "/checks" (Some configuration) ;;
  if negb (status_code response_create =? 200)
  then raise (ExceptionBytes (content response_create))
  else ret tt.

(** *** [update_check] *)

(** The object of the computation is [configuration], the caller's
    dictionary. *)
Definition update_check (check_id : pyval) : M (pyval * St) unit :=
  configuration <- get_obj ;;
  has_type <- liftR (Py.contains (VStr "type") configuration) ;;
  (if has_type
   then configuration' <- liftR (Py.delitem configuration "type") ;;
        put_obj configuration'
   else ret tt) ;;;
  configuration <- get_obj ;;
  response_create <-
    lift (api_put ("/checks/" ++ format check_id) (Some configuration)) ;;
  if negb (status_code response_create =? 200)
  then raise (ExceptionBytes (content response_create))
  else ret tt.

(** *** [find_matching_checks] *)

(** one field of the host test (lines 112-114, 115-117) *)
Definition host_field (field host : string) (found : list pyval) (check : pyval)
  : result (list pyval) :=
  let? has := Py.contains (VStr field) check in
  if has then
    let? h := Py.getitem check (VStr field) in
    Ok (if Py.eq h (VStr host) then (found ++ [check])%list else found)
  else Ok found.

(** the first loop (lines 110-117) *)
Definition host_candidates (host : string) (checks : list pyval)
  : result (list pyval) :=
  rfor_each
    (fun found check =>
       let? found := host_field "host" host found check in
       host_field "hostname" host found check)
    checks [].

(** the two nested loops that count (lines 143-146) *)
Definition count_tags (tags : list pyval) (detail_tags : list pyval) : result nat :=
  rfor_each
    (fun count tag =>
       rfor_each
         (fun count tag_current =>
            let? name := Py.getitem tag (VStr "name") in
            Ok (if Py.eq name tag_current then S count else count))
         tags count)
    detail_tags 0%nat.

(** what the body of the second loop does with the decoded detail
    (lines 136-149) *)
Definition match_detail (tags : list pyval) (response_detail_json : pyval)
           (matches : list pyval) (check : pyval) : result (list pyval) :=
  let? check_detail := Py.getitem response_detail_json (VStr "check") in
  let? has_tags := Py.contains (VStr "tags") check_detail in
  if negb has_tags then Ok matches
  else
    let? detail_tags := Py.getitem check_detail (VStr "tags") in
    let? detail_tags := Py.iter detail_tags in
    let? count_tags_found := count_tags tags detail_tags in
    Ok (if Nat.eqb count_tags_found (List.length tags)
        then (matches ++ [check])%list else matches).

(** the body of the second loop (lines 128-149) *)
Definition match_check (tags : list pyval) (matches : list pyval) (check : pyval)
  : M St (list pyval) :=
  id <- liftR (Py.getitem check (VStr "id")) ;;
  response_detail <- api_get ("/checks/" ++ format id) None ;;
  if negb (status_code response_detail =? 200)
  then raise (ExceptionBytes (content response_detail))
  else
    response_detail_json <- liftR (loads (content response_detail)) ;;
    liftR (match_detail tags response_detail_json matches check).

Definition find_matching_checks (host : pyval) (tags : option (list pyval))
  : M St (list pyval) :=
  let host := Str.lower (format host) in
  checks <- get_checks true ;;
  found <- liftR (host_candidates host checks) ;;
  match found with
  | [] => ret []
  | _ =>
      match tags with
      | None | Some [] => ret found
      | Some tags => for_each (match_check tags) found []
      end
  end.

End Client.

(* ------------------------------------------------------------------ *)
(** ** [validate_configuration_yaml] *)

Module Msg.
Definition no_gitops :=
  "Unexpected file type: Could not locate required `gitops` tag".
Definition gitops_not_object :=
  "Configuration Error: Invalid `gitops` tag type, expected YAML object".
Definition no_gitops_parameter (parameter : string) :=
  "Configuration Error: Could not locate required `gitops." ++ parameter ++ "` tag".
Definition bad_gitops_type :=
  "Unexpected file type: The supplied file did not contain expected `gitops.type` value".
Definition bad_gitops_version :=
  "Unexpected file type: The file version was not recognized".
Definition no_pingdom :=
  "Configuration Error: Could not locate required `pingdom` tag".
Definition pingdom_not_object :=
  "Configuration Error: Invalid `pingdom` tag type, expected YAML object".
Definition no_pingdom_parameter (parameter : string) :=
  "Configuration Error: Could not locate required `pingdom." ++ parameter ++ "` tag".
Definition teams_not_object :=
  "Configuration Error: Invalid `pingdom.teams` tag type, expected YAML object".
Definition team_id_not_int :=
  "Configuration Error: Invalid `pingdom.teams` ID type, expected integer".
Definition integrations_not_object :=
  "Configuration Error: Invalid `pingdom.integrations` tag type, expected YAML object".
Definition integration_id_not_int :=
  "Configuration Error: Invalid `pingdom.integrations` ID type, expected integer".
Definition checks_not_list :=
  "Configuration Error: Invalid `pingdom.checks` tag type, expected YAML list".
Definition default_not_object :=
  "Configuration Error: Invalid `pingdom.default` item type, expected YAML object".
Definition no_check_parameter (parameter : string) :=
  "Configuration Error: Could not locate mandatory `" ++ parameter ++ "` value in check".
Definition check_parameter_not_str (parameter : string) :=
  "Configuration Error: Invalid data type `" ++ parameter ++ "` in check, expected string value".
Definition teamids_not_list :=
  "Configuration Error: Invalid data type `teamids` in check, expected YAML list".
Definition unknown_teamid :=
  "Configuration Error: Unknown `teamids` name specified in check, ensure ID defined in `pingdom.teams` tag".
Definition integrationids_not_list :=
  "Configuration Error: Invalid data type `integrationids` in check, expected YAML list".
Definition unknown_integrationid :=
  "Configuration Error: Unknown `integrationids` name specified in check, ensure ID defined in `pingdom.integrations` tag".
Definition update_errors :=
  "Update completed with one or more errors- please review logs messages".
Definition create_warning := "WARNING: Failed to create Pingdom health check".
Definition update_warning := "WARNING: Failed to update existing Pingdom health check".
Definition unhandled :=
  "ERROR: Unhandled exception error during YAML file processing".
End Msg.

(** [if not ok: raise Exception(msg)] *)
Definition require (ok : bool) (msg : string) : result unit :=
  if ok then Ok tt else Err (Exception msg).

(** [for parameter in names: if parameter not in v: raise Exception(msg parameter)] *)
Definition require_keys (msg : string -> string) (names : list string) (v : pyval)
  : result unit :=
  rfor_each
    (fun _ parameter =>
       let? has := Py.contains (VStr parameter) v in
       require has (msg parameter))
    names tt.

(** Populate default values (lines 343-346 and 403-406): for every key of
    [default] the check lacks, [check[key] = value].  [default] is [VNone]
    when the document has none. *)
Definition populate_defaults (default check : pyval) : result pyval :=
  match default with
  | VNone => Ok check
  | _ =>
      let? items := Py.items default in
      rfor_each
        (fun check kv =>
           let? has := Py.contains (VStr (fst kv)) check in
           if has then Ok check else Py.setitem check (fst kv) (snd kv))
        items check
  end.

(** the table built from [pingdom.teams] or [pingdom.integrations]
    (lines 301-310, 314-323) *)
Definition id_table (not_object not_int : string) (v : pyval) : result dict :=
  let? _ := require (Py.is_dict v) not_object in
  let? items := Py.items v in
  rfor_each
    (fun table kv =>
       let? _ := require (Py.is_int (snd kv)) not_int in
       Ok (Dict.set (fst kv) (snd kv) table))
    items [].

(** mandatory check parameters (lines 352-356) *)
Definition mandatory_parameters (check : pyval) : result unit :=
  rfor_each
    (fun _ parameter =>
       let? has := Py.contains (VStr parameter) check in
       let? _ := require has (Msg.no_check_parameter parameter) in
       let? v := Py.getitem check (VStr parameter) in
       require (Py.is_str v) (Msg.check_parameter_not_str parameter))
    ["name"; "host"; "type"] tt.

(** names of a check must be in the table (lines 359-367, 370-379) *)
Definition known_references (field not_list unknown : string) (table : dict)
           (check : pyval) : result unit :=
  let? has := Py.contains (VStr field) check in
  if has then
    let? ids := Py.getitem check (VStr field) in
    let? _ := require (Py.is_list ids) not_list in
    let? keys := Py.iter ids in
    rfor_each
      (fun _ key =>
         let? known := Py.contains key (VDict table) in
         require known unknown)
      keys tt
  else Ok tt.

(** the body of the loop over the checks (lines 341-379); the result is the
    check as the loop leaves it *)
Definition validate_check (teams integrations : dict) (default check : pyval)
  : result pyval :=
  let? check := populate_defaults default check in
  let? _ := mandatory_parameters check in
  let? _ := known_references "teamids" Msg.teamids_not_list Msg.unknown_teamid
                             teams check in
  let? _ := known_references "integrationids" Msg.integrationids_not_list
                             Msg.unknown_integrationid integrations check in
  Ok check.

(** the loop over the checks, collecting them as they are left *)
Fixpoint validate_checks (teams integrations : dict) (default : pyval)
         (checks : list pyval) : result (list pyval) :=
  match checks with
  | [] => Ok []
  | check :: rest =>
      let? check' := validate_check teams integrations default check in
      let? rest' := validate_checks teams integrations default rest in
      Ok (check' :: rest')
  end.

Section Validate.

(** [repr] of lists and mappings, see [Py.str] *)
Variable repr : pyval -> string.

(** everything before the loop over the checks (lines 265-339): the two
  tables, the default record and the list of checks *)
Definition validate_header (configuration : pyval)
: result (dict * dict * pyval * list pyval) :=
let? has := Py.contains (VStr "gitops") configuration in
let? _ := require has Msg.no_gitops in
let? config_gitops := Py.getitem configuration (VStr "gitops") in
let? _ := require (Py.is_dict config_gitops) Msg.gitops_not_object in
let? _ := require_keys Msg.no_gitops_parameter ["type"; "version"] config_gitops in
let? gitops_type := Py.getitem config_gitops (VStr "type") in
let? _ := require (Py.eq gitops_type (VStr "pingdom-checks")) Msg.bad_gitops_type in
let? gitops_version := Py.getitem config_gitops (VStr "version") in
let? _ := require (existsb (String.eqb (Py.str repr gitops_version)) ["1.0"])
                  Msg.bad_gitops_version in
let? has := Py.contains (VStr "pingdom") configuration in
let? _ := require has Msg.no_pingdom in
let? config_pingdom := Py.getitem configuration (VStr "pingdom") in
let? _ := require (Py.is_dict config_pingdom) Msg.pingdom_not_object in
let? _ := require_keys Msg.no_pingdom_parameter
                       ["tag"; "checks"; "teams"; "integrations"] config_pingdom in
let? has := Py.contains (VStr "teams") config_pingdom in
let? teams :=
  (if has then
     let? v := Py.getitem config_pingdom (VStr "teams") in
     id_table Msg.teams_not_object Msg.team_id_not_int v
   else Ok []) in
let? has := Py.contains (VStr "integrations") config_pingdom in
let? integrations :=
  (if has then
     let? v := Py.getitem config_pingdom (VStr "integrations") in
     id_table Msg.integrations_not_object Msg.integration_id_not_int v
   else Ok []) in
let? config_pingdom_checks := Py.getitem config_pingdom (VStr "checks") in
let? _ := require (Py.is_list config_pingdom_checks) Msg.checks_not_list in
let? has_default := Py.contains (VStr "default") config_pingdom in
let? default :=
  (if has_default then
     let? d := Py.getitem config_pingdom (VStr "default") in
     let? _ := require (Py.is_dict d) Msg.default_not_object in
     Ok d
   else Ok VNone) in
let? checks := Py.iter config_pingdom_checks in
Ok (teams, integrations, default, checks).

(** the document with its checks replaced: the checks are mutated in place,
  so the caller's document holds them as validation left them *)
Definition with_checks (configuration : pyval) (checks : list pyval) : result pyval :=
let? config_pingdom := Py.getitem configuration (VStr "pingdom") in
let? config_pingdom := Py.setitem config_pingdom "checks" (VList checks) in
Py.setitem configuration "pingdom" config_pingdom.

(** The result is the document after validation. *)
Definition validate_configuration_yaml (configuration : pyval) : result pyval :=
let? header := validate_header configuration in
let '(teams, integrations, default, checks) := header in
let? checks := validate_checks teams integrations default checks in
with_checks configuration checks.

End Validate.

(* ------------------------------------------------------------------ *)
(** ** [process_configuration_yaml] and the main block *)

Section Reconcile.

Variable json_loads : string -> option pyval.
Variable repr : pyval -> string.
Variable server : exchanges -> Request -> reply.

Let format := format repr.

(** [csv = start; for x in v: csv += '{x},'.format(x=conv x)] *)
Definition csv_append (conv : pyval -> result pyval) (start : string) (v : pyval)
  : result string :=
  let? elements := Py.iter v in
  rfor_each
    (fun csv x => let? y := conv x in Ok (csv ++ format y ++ ","))
    elements start.

(** tags to their wire form (lines 411-415) *)
Definition resolve_tags (tag check : pyval) : result pyval :=
  let tag_csv := format tag ++ "," in
  let? has := Py.contains (VStr "tags") check in
  if has then
    let? tags := Py.getitem check (VStr "tags") in
    let? tag_csv := csv_append (fun tag_current => Ok tag_current) tag_csv tags in
    Py.setitem check "tags" (VStr (Str.rstrip ","%char tag_csv))
  else Ok check.

(** names to ids, in wire form (lines 418-422 and 425-429) *)
Definition resolve_ids (field : string) (table check : pyval) : result pyval :=
  let? has := Py.contains (VStr field) check in
  if has then
    let? names := Py.getitem check (VStr field) in
    let? ids_csv := csv_append (fun key => Py.getitem table key) "" names in
    Py.setitem check field (VStr (Str.rstrip ","%char ids_csv))
  else Ok check.

(** lines 410-429 *)
Definition resolve (tag teams integrations check : pyval) : result pyval :=
  let? check := resolve_tags tag check in
  let? check := resolve_ids "teamids" teams check in
  resolve_ids "integrationids" integrations check.

(** the [if] branch, lines 434-441 *)
Definition create_branch (host check : pyval) : M St unit :=
  try_except
    (print (Line ("Creating Check: " ++ format host)) ;;;
     create_check server check)
    (fun create_exception =>
       print (Line Msg.create_warning) ;;;
       print (ExnLine create_exception)).

(** the loop inside the [try], lines 444-448; its object is [check] *)
Definition update_loop (host : pyval) (matches : list pyval) : M (pyval * St) unit :=
  for_each
    (fun _ check_current =>
       lift (print (Line ("Updating Check: " ++ format host))) ;;;
       check_id <- liftR (Py.getitem check_current (VStr "id")) ;;
       update_check repr server check_id)
    matches tt.

(** the [else] branch, lines 443-454; the result is the value of [error]
    after it *)
Definition update_branch (host : pyval) (matches : list pyval) (error : bool)
  : M (pyval * St) bool :=
  try_except
    (update_loop host matches ;;; ret error)
    (fun create_exception =>
       lift (print (Line Msg.update_warning)) ;;;
       lift (print (ExnLine create_exception)) ;;;
       ret true).

(** the body of the loop over the declared checks (lines 401-454); the
    result is the value of [error] after it *)
Definition process_check (tag teams integrations default : pyval)
           (error : bool) (check : pyval) : M St bool :=
  check <- liftR (populate_defaults default check) ;;
  host <- liftR (Py.getitem check (VStr "host")) ;;
  check <- liftR (resolve tag teams integrations check) ;;
  matches <- find_matching_checks json_loads repr server host (Some [tag]) ;;
  match matches with
  | [] => create_branch host check ;;; ret error
  | _ =>
      fun st =>
        let '((r, _), st') := with_obj check (update_branch host matches error) st in
        (r, st')
  end.

(** lines 390-399: what is read from the document before the loop *)
Definition process_header (configuration : pyval)
  : result (pyval * pyval * pyval * pyval * list pyval) :=
  let? config_pingdom := Py.getitem configuration (VStr "pingdom") in
  let? tag := Py.getitem config_pingdom (VStr "tag") in
  let? teams := Py.getitem config_pingdom (VStr "teams") in
  let? integrations := Py.getitem config_pingdom (VStr "integrations") in
  let? has_default := Py.contains (VStr "default") config_pingdom in
  let? default :=
    (if has_default then Py.getitem config_pingdom (VStr "default")
     else Ok VNone) in
  let? checks := Py.getitem config_pingdom (VStr "checks") in
  let? checks := Py.iter checks in
  Ok (tag, teams, integrations, default, checks).

(** the loop over the declared checks and the final test (lines 401-457).
    The entries of the list are taken to be distinct objects: what a round
    writes into its check is not seen by a later round. *)
Definition process_checks (tag teams integrations default : pyval)
           (checks : list pyval) : M St unit :=
  error <- for_each (process_check tag teams integrations default) checks false ;;
  if error then raise (Exception Msg.update_errors) else ret tt.

Definition process_configuration_yaml (configuration : pyval) : M St unit :=
  header <- liftR (process_header configuration) ;;
  let '(tag, teams, integrations, default, checks) := header in
  process_checks tag teams integrations default checks.

(** The main block from the validation on (lines 491-500); the result is the
    exit status, 0 when the block falls through. *)
Definition main (configuration_yaml : pyval) : M St Z :=
  try_except
    (configuration <- liftR (validate_configuration_yaml repr configuration_yaml) ;;
     process_configuration_yaml configuration ;;;
     ret 0)
    (fun exception =>
       print (Line Msg.unhandled) ;;;
       print (ExnLine exception) ;;;
       ret 3).

End Reconcile.

(* ------------------------------------------------------------------ *)
(** ** The [__main__] block from its start *)

(** [print_usage] (lines 460-465) *)
Definition print_usage : M St unit :=
  print (Line "Github Actions: Pingdom Manager") ;;;
  print (Line "Usage: python ./pingdom.py [api_key] [filename]").

(** [pingdom = Pingdom(api_key=api_key)] *)
Definition new_pingdom (api_key : string) : M St unit :=
  fun st =>
    (Ok tt, {| self := init api_key; wire := wire st; stdout := stdout st |}).

(** the line of lines 477; the text ends with a line feed of its own *)
Definition not_found (filename : string) : line :=
  Line ("ERROR: Configuration file (" ++ filename ++ ") not found"
          ++ String (ascii_of_nat 10) EmptyString).

Section Program.

Variable json_loads : string -> option pyval.
Variable repr : pyval -> string.
Variable server : exchanges -> Request -> reply.
(** [os.path.exists] *)
Variable path_exists : string -> bool.
(** opening the file, reading it and [yaml.full_load]: the document, or the
    exception one of them raises *)
Variable load_yaml : string -> result pyval.

(** The block of lines 468-500 on the argument vector [sys.argv]; the result
    is the exit status.  [exit] raises [SystemExit], which
    [except Exception] lets through, so the two early exits leave the block
    with their status. *)
Definition program (argv : list string) : M St Z :=
  match argv with
  | [_; filename; api_key] =>
      if negb (path_exists filename) then
        print (not_found filename) ;;;
        print_usage ;;;
        ret 2
      else
        try_except
          (new_pingdom api_key ;;;
           configuration_yaml <- liftR (load_yaml filename) ;;
           configuration <-
             liftR (validate_configuration_yaml repr configuration_yaml) ;;
           process_configuration_yaml json_loads repr server configuration ;;;
           ret 0)
          (fun exception =>
             print (Line Msg.unhandled) ;;;
             print (ExnLine exception) ;;;
             ret 3)
  | _ =>
      print_usage ;;;
      ret 1
  end.

End Program.

(* ------------------------------------------------------------------ *)
(** ** Notions the statements use *)

(** what the loop over [default.items()] computes on a dictionary *)
Definition merge (default check : dict) : dict :=
  fold_left
    (fun check kv =>
       if Dict.has (fst kv) check then check else Dict.set (fst kv) (snd kv) check)
    default check.

(** what a method makes of the reply to its one request: it raises when the
    HTTP library raised or the status is not 200 *)
Definition call_outcome (rp : reply) : result unit :=
  match rp with
  | Reply r =>
      if negb (status_code r =? 200) then Err (ExceptionBytes (content r)) else Ok tt
  | Raised d => Err (RequestException d)
  end.

(** the request [get_checks] sends *)
Definition checks_request (p : Pingdom) : Request :=
  request p GET "/checks" None.

(** the request [update_check] sends for [check_id] with [body] *)
Definition update_request (repr : pyval -> string) (p : Pingdom)
           (check_id body : pyval) : Request :=
  request p PUT ("/checks/" ++ format repr check_id) (Some body).

(** the request [create_check] sends *)
Definition create_request (p : Pingdom) (body : pyval) : Request :=
  request p POST "/checks" (Some body).

(** the request for the detail of a check *)
Definition detail_request (repr : pyval -> string) (p : Pingdom) (check_id : pyval)
  : Request :=
  request p GET ("/checks/" ++ format repr check_id) None.

(** A small remote service and decoder to run the program on. *)
Module Sample.

Definition c1 : pyval :=
  VDict [("id", VInt 1); ("host", VStr "example.com"); ("type", VStr "http")].
Definition c2 : pyval :=
  VDict [("id", VInt 2); ("hostname", VStr "example.com")].
Definition c3 : pyval :=
  VDict [("id", VInt 3); ("host", VStr "other.org")].
Definition c4 : pyval :=
  VDict [("id", VInt 4); ("host", VStr "dup.net"); ("hostname", VStr "dup.net")].
Definition c5 : pyval :=
  VDict [("id", VInt 5); ("host", VStr "Example.COM")].

Definition tagged (names : list string) : pyval :=
  VDict [("check",
          VDict [("tags", VList (map (fun n => VDict [("name", VStr n)]) names))])].

(** the bodies the service sends, by name *)
Definition json_loads (body : string) : option pyval :=
  if String.eqb body "list" then
    Some (VDict [("checks", VList [c1; c2; c3; c4; c5])])
  else if String.eqb body "tags:t" then Some (tagged ["t"])
  else if String.eqb body "tags:a,a" then Some (tagged ["a"; "a"])
  else if String.eqb body "tags:a" then Some (tagged ["a"])
  else if String.eqb body "no tags" then Some (VDict [("check", VDict [])])
  else None.

Definition repr (v : pyval) : string := "<container>".

Definition url (path : string) : string := PINGDOM_API_URL ++ path.

Definition ok (body : string) : reply :=
  Reply {| status_code := 200; content := body |}.

(** Listing and details succeed; updating check 1 fails, other updates
    succeed; creating fails. *)
Definition server (_ : exchanges) (rq : Request) : reply :=
  match rq_method rq with
  | GET =>
      if String.eqb (rq_url rq) (url "/checks") then ok "list"
      else if String.eqb (rq_url rq) (url "/checks/1") then ok "tags:t"
      else if String.eqb (rq_url rq) (url "/checks/2") then ok "tags:t"
      else if String.eqb (rq_url rq) (url "/checks/3") then ok "tags:a,a"
      else if String.eqb (rq_url rq) (url "/checks/4") then ok "tags:a"
      else ok "no tags"
  | PUT =>
      if String.eqb (rq_url rq) (url "/checks/1")
      then Reply {| status_code := 500; content := "update refused" |}
      else ok ""
  | POST => Reply {| status_code := 503; content := "create refused" |}
  | DELETE => ok ""
  end.

(** a service that is down *)
Definition down (_ : exchanges) (_ : Request) : reply :=
  Reply {| status_code := 500; content := "down" |}.

(** the state the main block starts from *)
Definition st0 : St := {| self := init "KEY"; wire := []; stdout := [] |}.

Definition gitops : pyval :=
  VDict [("type", VStr "pingdom-checks"); ("version", VStr "1.0")].

(** a document with the given checks under the tag [t] *)
Definition document (checks : list pyval) : pyval :=
  VDict [("gitops", gitops);
         ("pingdom",
          VDict [("tag", VStr "t");
                 ("teams", VDict [("x", VInt 1); ("y", VInt 2)]);
                 ("integrations", VDict [("pager", VInt 7)]);
                 ("default", VDict [("type", VStr "http")]);
                 ("checks", VList checks)])].

Definition declared (name host : string) : pyval :=
  VDict [("name", VStr name); ("host", VStr host)].

End Sample.

(** every element followed by a comma: what the loops of lines 413-414,
    420-421 and 427-428 append *)
Fixpoint trailing (l : list string) : string :=
  match l with
  | [] => ""
  | x :: l' => x ++ "," ++ trailing l'
  end.

(** the checks a field selects for the host test *)
Definition field_hit (field host : string) (check : pyval) : list pyval :=
  match check with
  | VDict d =>
      match Dict.get field d with
      | Some (VStr h) => if String.eqb h host then [check] else []
      | _ => []
      end
  | _ => []
  end.

(** the host-candidates of a query host that is already lower-cased *)
Definition candidates (host : string) (checks : list pyval) : list pyval :=
  flat_map (fun c => (field_hit "host" host c ++ field_hit "hostname" host c)%list)
           checks.

(** the number of pairs (detail tag, requested tag) with equal names, given
    the names of the detail tags *)
Definition count_pairs (names tags : list pyval) : nat :=
  List.length (filter (fun p => Py.eq (fst p) (snd p)) (list_prod names tags)).

(** [names] are the names of the tags of a detail record, in order; a record
    without [tags] has none *)
Inductive detail_names (detail : dict) : list pyval -> Prop :=
| detail_no_tags :
    Dict.get "tags" detail = None -> detail_names detail []
| detail_tags dts names :
    Dict.get "tags" detail = Some (VList dts) ->
    Forall2 (fun t n => Py.getitem t (VStr "name") = Ok n) dts names ->
    detail_names detail names.

(** the remote service answers the detail request for [check], whenever it
    comes, with status 200 and a body that decodes to a record whose tags
    have the names [names] *)
Definition serves_detail (json_loads : string -> option pyval)
           (repr : pyval -> string) (server : exchanges -> Request -> reply)
           (p : Pingdom) (check : pyval) (names : list pyval) : Prop :=
  exists id body j detail,
    Py.getitem check (VStr "id") = Ok id /\
    (forall h, server h (detail_request repr p id)
               = Reply {| status_code := 200; content := body |}) /\
    json_loads body = Some (VDict j) /\
    Dict.get "check" j = Some (VDict detail) /\
    detail_names detail names.

(** the matcher's test on a candidate whose detail tags have the names
    [names] *)
Definition tags_match (tags names : list pyval) : bool :=
  Nat.eqb (count_pairs names tags) (List.length tags).

(** a remote check that has an [id] *)
Definition has_id (check : pyval) : Prop :=
  exists id, Py.getitem check (VStr "id") = Ok id.

(** an exchange that is a failed update, a failed creation *)
Definition failed_update (x : Request * reply) : bool :=
  is_method PUT (rq_method (fst x)) && failed (snd x).
Definition failed_create (x : Request * reply) : bool :=
  is_method POST (rq_method (fst x)) && failed (snd x).

(** the printed line is the literal [s] *)
Definition is_line (s : string) (l : line) : bool :=
  match l with
  | Line s' => String.eqb s s'
  | ExnLine _ => false
  end.

(** from [st] to [st'], the exchanges [w] were made and the lines [out]
    printed, in this order, and nothing else changed but the cache *)
Definition delta (st st' : St) (w : exchanges) (out : list line) : Prop :=
  wire st' = (wire st ++ w)%list /\
  stdout st' = (stdout st ++ out)%list /\
  api_key (self st') = api_key (self st).

(** exchanges that are all GET requests *)
Definition only_gets (w : exchanges) : Prop :=
  Forall (fun x => rq_method (fst x) = GET) w.

(** [ids] are the ids of the checks [ms], in order *)
Definition ids_of (ms ids : list pyval) : Prop :=
  Forall2 (fun m id => Py.getitem m (VStr "id") = Ok id) ms ids.

(** no exchange of [w] failed *)
Definition all_succeeded (w : exchanges) : bool :=
  forallb (fun x => negb (failed (snd x))) w.

(** the line printed before each update, before a creation *)
Definition updating_line (repr : pyval -> string) (host : pyval) : line :=
  Line ("Updating Check: " ++ format repr host).
Definition creating_line (repr : pyval -> string) (host : pyval) : line :=
  Line ("Creating Check: " ++ format repr host).

(** the number of lines of [out] that are the literal [s] *)
Definition count_lines (s : string) (out : list line) : nat :=
  List.length (filter (is_line s) out).

(** every failed creation and every failed update of [w] has its warning in
    [out], and [out] has no other warning *)
Definition accounted (w : exchanges) (out : list line) : Prop :=
  count_lines Msg.create_warning out = List.length (filter failed_create w) /\
  count_lines Msg.update_warning out = List.length (filter failed_update w).

(** an [Exception] built from a message string *)
Definition plain (e : exn) : bool :=
  match e with
  | Exception _ => true
  | _ => false
  end.

(** code that raises no [Exception] built from a message string *)
Definition no_plain {A} (r : result A) : Prop :=
  forall e, r = Err e -> plain e = false.
Definition m_no_plain {S A} (m : M S A) : Prop :=
  forall s, no_plain (fst (m s)).

(** an update of the remote check [m] is among the exchanges [w] *)
Definition update_attempted (repr : pyval -> string) (w : exchanges) (m : pyval)
  : Prop :=
  exists x id,
    In x w /\
    Py.getitem m (VStr "id") = Ok id /\
    rq_method (fst x) = PUT /\
    rq_url (fst x) = get_api_endpoint_url ("/checks/" ++ format repr id).

(** the type and version marker of a document is the expected one *)
Definition gitops_ok (repr : pyval -> string) (d : dict) : Prop :=
  exists g v,
    Dict.get "gitops" d = Some (VDict g) /\
    Dict.get "type" g = Some (VStr "pingdom-checks") /\
    Dict.get "version" g = Some v /\
    Py.str repr v = "1.0".

(** the first of [names] that is no key of [d] *)
Definition first_missing (names : list string) (d : dict) : option string :=
  find (fun k => negb (Dict.has k d)) names.

(** the four requests the client makes with the key [key]: the listing,
    the detail of a check, a creation and an update *)
Definition traffic (repr : pyval -> string) (key : string) (rq : Request) : Prop :=
  rq = checks_request (init key) \/
  (exists id, rq = detail_request repr (init key) id) \/
  (exists body, rq = create_request (init key) body) \/
  (exists id body, rq = update_request repr (init key) id body).

(** from [st] to [st'] requests were only added, all of them among the
    four, and the key was kept *)
Definition within (repr : pyval -> string) (st st' : St) : Prop :=
  exists w,
    wire st' = (wire st ++ w)%list /\
    api_key (self st') = api_key (self st) /\
    Forall (fun x => traffic repr (api_key (self st)) (fst x)) w.

(** a computation all of whose runs are in the relation [R] *)
Definition m_keeps {S A} (R : S -> S -> Prop) (m : M S A) : Prop :=
  forall s, R s (snd (m s)).

(** a relation on states, for computations that carry an object *)
Definition on_state {O S} (R : S -> S -> Prop) : O * S -> O * S -> Prop :=
  fun a b => R (snd a) (snd b).

(** the request is the listing, [GET /checks] *)
Definition is_listing (rq : Request) : bool :=
  is_method GET (rq_method rq) &&
  String.eqb (rq_url rq) (get_api_endpoint_url "/checks").

(** the number of listing requests among the exchanges [w] *)
Definition listings (w : exchanges) : nat :=
  List.length (filter (fun x => is_listing (fst x)) w).

(** from [st] to [st'] requests were only added, none of them the listing,
    and the cache was left alone *)
Definition quiet (st st' : St) : Prop :=
  exists w,
    wire st' = (wire st ++ w)%list /\
    listings w = 0%nat /\
    get_checks_cache (self st') = get_checks_cache (self st).

(** a computation that asks for the listing only when the cache is empty,
    and then once: afterwards the cache is filled, or the computation has
    raised *)
Definition once {A} (m : M St A) : Prop :=
  forall st r st',
    m st = (r, st') ->
    exists w,
      wire st' = (wire st ++ w)%list /\
      match get_checks_cache (self st) with
      | Some c => listings w = 0%nat /\ get_checks_cache (self st') = Some c
      | None =>
          (listings w = 0%nat /\ get_checks_cache (self st') = None) \/
          (listings w = 1%nat /\
           (get_checks_cache (self st') <> None \/ exists e, r = Err e))
      end.

(** the listing a lookup works on, and the state it leaves: the list in the
    cache, or, when the cache is empty, the [checks] list of the body the
    remote service answers the listing request with (status 200, a body
    that decodes to a mapping), which is then put into the cache *)
Definition listing_available (json_loads : string -> option pyval)
           (server : exchanges -> Request -> reply)
           (st : St) (checks : list pyval) (st1 : St) : Prop :=
  (get_checks_cache (self st) = Some checks /\ st1 = st) \/
  (get_checks_cache (self st) = None /\
   exists r j,
     server (wire st) (checks_request (self st)) = Reply r /\
     status_code r = 200 /\
     json_loads (content r) = Some (VDict j) /\
     (Dict.get "checks" j = None /\ checks = [] \/
      Dict.get "checks" j = Some (VList checks)) /\
     st1 = with_cache (exchanged st (checks_request (self st)) (Reply r)) checks).

(** the sample service, except that the detail of check 3 is refused *)
Definition detail_refused (h : exchanges) (rq : Request) : reply :=
  if is_method GET (rq_method rq) &&
     String.eqb (rq_url rq) (Sample.url "/checks/3")
  then Reply {| status_code := 500; content := "detail refused" |}
  else Sample.server h rq.

(* ================================================================== *)
(** * Properties *)

#[local] Arguments String.eqb : simpl never.
#[local] Arguments Py.eq : simpl never.
#[local] Arguments Str.contains : simpl never.
#[local] Arguments Str.of_Z : simpl never.
#[local] Arguments get_api_endpoint_url : simpl never.

(** ** Dictionaries *)

Module DictFacts.

Lemma has_get k d : Dict.has k d = true <-> exists v, Dict.get k d = Some v.
Proof.
  unfold Dict.has. destruct (Dict.get k d) as [v|]; split; intros H.
  - now exists v.
  - reflexivity.
  - discriminate.
  - destruct H as [v H]. discriminate.
Qed.

Lemma has_false k d : Dict.has k d = false <-> Dict.get k d = None.
Proof.
  unfold Dict.has. destruct (Dict.get k d); split; intros H; congruence.
Qed.

Lemma get_set_same k v d : Dict.get k (Dict.set k v d) = Some v.
Proof.
  induction d as [|[k' v'] d IH]; simpl.
  - now rewrite String.eqb_refl.
  - destruct (String.eqb k k') eqn:E; simpl; rewrite E; [reflexivity | exact IH].
Qed.

Lemma get_set_other k k' v d :
  k <> k' -> Dict.get k (Dict.set k' v d) = Dict.get k d.
Proof.
  intros Hk. apply String.eqb_neq in Hk.
  induction d as [|[k0 v0] d IH]; simpl.
  - now rewrite Hk.
  - destruct (String.eqb k' k0) eqn:E; simpl.
    + apply String.eqb_eq in E. subst k0. now rewrite Hk.
    + destruct (String.eqb k k0); [reflexivity | exact IH].
Qed.

Lemma get_set k k' v d :
  Dict.get k (Dict.set k' v d) = if String.eqb k k' then Some v else Dict.get k d.
Proof.
  destruct (String.eqb k k') eqn:E.
  - apply String.eqb_eq in E. subst. apply get_set_same.
  - apply String.eqb_neq in E. now apply get_set_other.
Qed.

Lemma get_del_same k d : Dict.get k (Dict.del k d) = None.
Proof.
  induction d as [|[k' v'] d IH]; simpl; [reflexivity|].
  destruct (String.eqb k k') eqn:E; simpl; [exact IH | now rewrite E].
Qed.

Lemma get_del_other k k' d :
  k <> k' -> Dict.get k (Dict.del k' d) = Dict.get k d.
Proof.
  intros Hk. apply String.eqb_neq in Hk.
  induction d as [|[k0 v0] d IH]; simpl; [reflexivity|].
  destruct (String.eqb k' k0) eqn:E; simpl.
  - apply String.eqb_eq in E. subst k0. now rewrite Hk.
  - destruct (String.eqb k k0); [reflexivity | exact IH].
Qed.

(** deleting keeps the other entries, in their order *)
Lemma del_filter k d :
  Dict.del k d = filter (fun kv => negb (String.eqb k (fst kv))) d.
Proof.
  induction d as [|[k' v'] d IH]; simpl; [reflexivity|].
  destruct (String.eqb k k'); simpl; now rewrite IH.
Qed.

Lemma del_absent k d : Dict.has k d = false -> Dict.del k d = d.
Proof.
  rewrite has_false.
  induction d as [|[k' v'] d IH]; simpl; [reflexivity|].
  destruct (String.eqb k k'); [discriminate|].
  intros H. now rewrite IH.
Qed.

Lemma in_get k v d : In (k, v) d -> Dict.has k d = true.
Proof.
  unfold Dict.has.
  induction d as [|[k' v'] d IH]; simpl; [tauto|].
  intros [H|H].
  - inversion H; subst. now rewrite String.eqb_refl.
  - destruct (String.eqb k k'); [reflexivity | now apply IH].
Qed.

End DictFacts.

(** ** Default merging *)

Lemma populate_defaults_dict default check :
  populate_defaults (VDict default) (VDict check) = Ok (VDict (merge default check)).
Proof.
  unfold populate_defaults, merge. simpl.
  revert check. induction default as [|[k v] default IH]; intros check; simpl.
  - reflexivity.
  - destruct (Dict.has k check); simpl; apply IH.
Qed.

Lemma get_merge k default check :
  Dict.get k (merge default check) =
  match Dict.get k check with
  | Some v => Some v
  | None => Dict.get k default
  end.
Proof.
  unfold merge. revert check.
  induction default as [|[k0 v0] default IH]; intros check; simpl.
  - now destruct (Dict.get k check).
  - destruct (Dict.has k0 check) eqn:H0; rewrite IH.
    + destruct (Dict.get k check) eqn:Hk; [reflexivity|].
      destruct (String.eqb k k0) eqn:E; [|reflexivity].
      apply String.eqb_eq in E. subst k0.
      apply DictFacts.has_get in H0. destruct H0 as [v H0]. congruence.
    + rewrite DictFacts.get_set.
      apply DictFacts.has_false in H0.
      destruct (String.eqb k k0) eqn:E.
      * apply String.eqb_eq in E. subst k0. now rewrite H0.
      * reflexivity.
Qed.

Lemma merge_present default check :
  (forall k v, In (k, v) default -> Dict.has k check = true) ->
  merge default check = check.
Proof.
  unfold merge. induction default as [|[k0 v0] default IH]; intros H; simpl.
  - reflexivity.
  - rewrite (H k0 v0) by now left.
    apply IH. intros k v Hin. apply (H k v). now right.
Qed.

Lemma merge_has default check k v :
  In (k, v) default -> Dict.has k (merge default check) = true.
Proof.
  intros Hin. unfold Dict.has. rewrite get_merge.
  destruct (Dict.get k check); [reflexivity|].
  apply DictFacts.in_get in Hin. unfold Dict.has in Hin. exact Hin.
Qed.

(** a check that is no dictionary comes out of the loop only untouched *)
Lemma populate_defaults_other_loop items check check' :
  Py.is_dict check = false ->
  rfor_each
    (fun check kv =>
       let? has := Py.contains (VStr (fst kv)) check in
       if has then Ok check else Py.setitem check (fst kv) (snd kv))
    items check = Ok check' ->
  check' = check /\
  forall kv, In kv items -> Py.contains (VStr (fst kv)) check = Ok true.
Proof.
  intros Hd. induction items as [|kv items IH]; simpl; intros H.
  - inversion H. split; [reflexivity | intros kv []].
  - destruct (Py.contains (VStr (fst kv)) check) as [e|[|]] eqn:Hc; simpl in H.
    + discriminate.
    + destruct (IH H) as [-> Hall]. split; [reflexivity|].
      intros kv' [<-|Hin]; [exact Hc | now apply Hall].
    + destruct check; simpl in H; discriminate.
Qed.

Lemma populate_defaults_present_loop items check :
  (forall kv, In kv items -> Py.contains (VStr (fst kv)) check = Ok true) ->
  rfor_each
    (fun check kv =>
       let? has := Py.contains (VStr (fst kv)) check in
       if has then Ok check else Py.setitem check (fst kv) (snd kv))
    items check = Ok check.
Proof.
  induction items as [|kv items IH]; simpl; intros H.
  - reflexivity.
  - rewrite (H kv) by now left. simpl. apply IH.
    intros kv' Hin. apply H. now right.
Qed.

(** merging once more changes nothing, whatever the two values are *)
Lemma populate_defaults_again default check check' :
  populate_defaults default check = Ok check' ->
  populate_defaults default check' = Ok check'.
Proof.
  destruct default as [| | | | |default]; simpl; try discriminate.
  - intros H. inversion H. reflexivity.
  - destruct (Py.is_dict check) eqn:Hd.
    + destruct check; try discriminate.
      pose proof (populate_defaults_dict default d) as Hm.
      unfold populate_defaults in Hm. simpl in Hm. rewrite Hm.
      intros H. inversion H. subst check'.
      pose proof (populate_defaults_dict default (merge default d)) as Hm'.
      unfold populate_defaults in Hm'. simpl in Hm'. rewrite Hm'.
      rewrite merge_present; [reflexivity|].
      intros k v Hin. eapply merge_has; eassumption.
    + intros H. destruct (populate_defaults_other_loop _ _ Hd H) as [-> Hall].
      now apply populate_defaults_present_loop.
Qed.

(** C7.  Default merging is idempotent and keeps what the check has: for a
    check [C] and a default record [D], the merge yields a dictionary that a
    second merge with [D] leaves as it is; a key present in [C] keeps its
    value, and a key absent from [C] takes the value [D] gives it. *)
Theorem populate_defaults_idempotent (D C : dict) :
  exists C' : dict,
    populate_defaults (VDict D) (VDict C) = Ok (VDict C') /\
    populate_defaults (VDict D) (VDict C') = Ok (VDict C') /\
    (forall k v, Dict.get k C = Some v -> Dict.get k C' = Some v) /\
    (forall k, Dict.get k C = None -> Dict.get k C' = Dict.get k D).
Proof.
  exists (merge D C). split; [apply populate_defaults_dict|].
  split; [apply populate_defaults_again with (check := VDict C);
          apply populate_defaults_dict|].
  split.
  - intros k v H. rewrite get_merge, H. reflexivity.
  - intros k H. rewrite get_merge, H. reflexivity.
Qed.

(** ** [update_check] *)

Lemma update_check_dict repr server check_id d st :
  let body := VDict (Dict.del "type" d) in
  let rq := update_request repr (self st) check_id body in
  let rp := server (wire st) rq in
  update_check repr server check_id (VDict d, st)
  = (call_outcome rp, (body, exchanged st rq rp)).
Proof.
  unfold update_check, update_request, bind, get_obj, put_obj, liftR, lift,
    ret, raise, api_put, api_call.
  simpl.
  destruct (Dict.has "type" d) eqn:Ht; simpl.
  - destruct (server _ _) as [r|dt]; simpl; [|reflexivity].
    destruct (status_code r =? 200); reflexivity.
  - rewrite (DictFacts.del_absent _ _ Ht).
    destruct (server _ _) as [r|dt]; simpl; [|reflexivity].
    destruct (status_code r =? 200); reflexivity.
Qed.

Lemma call_outcome_ok rp : call_outcome rp = Ok tt <-> failed rp = false.
Proof.
  destruct rp as [r|dt]; simpl.
  - destruct (status_code r =? 200); simpl; split; intros H;
      try reflexivity; discriminate.
  - split; discriminate.
Qed.

(** C6.  The body of the PUT request never has a [type] key.  Whatever
    [update_check] is given, it sends nothing or one PUT request, and [type]
    is not in the body of that request; given a dictionary it always sends
    the request, and the body is the dictionary without its [type] entry. *)
Theorem update_check_body_without_type repr server check_id :
  (forall configuration st,
      let st' := snd (snd (update_check repr server check_id (configuration, st))) in
      wire st' = wire st \/
      exists rq rp body,
        wire st' = (wire st ++ [(rq, rp)])%list /\
        rq_method rq = PUT /\
        rq_params rq = Some body /\
        Py.contains (VStr "type") body = Ok false) /\
  (forall d st,
      let st' := snd (snd (update_check repr server check_id (VDict d, st))) in
      exists rq rp,
        wire st' = (wire st ++ [(rq, rp)])%list /\
        rq_method rq = PUT /\
        rq_params rq = Some (VDict (Dict.del "type" d)) /\
        Dict.get "type" (Dict.del "type" d) = None).
Proof.
  split.
  - intros configuration st.
    destruct configuration as [| b | z | s | l | d];
      try (left; reflexivity).
    + (* a string *)
      unfold update_check, bind, get_obj, put_obj, liftR, lift, ret, raise,
        api_put, api_call. simpl.
      destruct (Str.contains "type" s) eqn:Hc; simpl; [left; reflexivity|].
      right.
      exists (update_request repr (self st) check_id (VStr s)).
      exists (server (wire st) (update_request repr (self st) check_id (VStr s))).
      exists (VStr s).
      unfold update_request.
      destruct (server _ _) as [r|dt]; simpl;
        [destruct (status_code r =? 200); simpl|];
        (split; [reflexivity|split; [reflexivity|split; [reflexivity|]]]);
        now rewrite Hc.
    + (* a list *)
      unfold update_check, bind, get_obj, put_obj, liftR, lift, ret, raise,
        api_put, api_call. simpl.
      destruct (existsb (Py.eq (VStr "type")) l) eqn:Hc; simpl; [left; reflexivity|].
      right.
      exists (update_request repr (self st) check_id (VList l)).
      exists (server (wire st) (update_request repr (self st) check_id (VList l))).
      exists (VList l).
      unfold update_request.
      destruct (server _ _) as [r|dt]; simpl;
        [destruct (status_code r =? 200); simpl|];
        (split; [reflexivity|split; [reflexivity|split; [reflexivity|]]]);
        now rewrite Hc.
    + (* a dictionary *)
      right. rewrite update_check_dict. simpl.
      eexists _, _, _. split; [reflexivity|].
      split; [reflexivity|]. split; [reflexivity|].
      simpl. unfold Dict.has. now rewrite DictFacts.get_del_same.
  - intros d st. rewrite update_check_dict. simpl.
    eexists _, _. split; [reflexivity|].
    split; [reflexivity|]. split; [reflexivity|].
    apply DictFacts.get_del_same.
Qed.

(** C10.  [update_check] changes the caller's dictionary in place: whether the
    call returns or raises, the dictionary is left without [type] and with
    every other entry as it was, in the same order; the deletion comes before
    the request, whose body is the dictionary already without [type]; and the
    call raises exactly when the PUT failed. *)
Theorem update_check_mutates_caller repr server check_id (d : dict) st :
  exists r rq rp st',
    update_check repr server check_id (VDict d, st)
    = (r, (VDict (Dict.del "type" d), st')) /\
    Dict.get "type" (Dict.del "type" d) = None /\
    (forall k, k <> "type" -> Dict.get k (Dict.del "type" d) = Dict.get k d) /\
    Dict.del "type" d = filter (fun kv => negb (String.eqb "type" (fst kv))) d /\
    wire st' = (wire st ++ [(rq, rp)])%list /\
    rq_method rq = PUT /\
    rq_params rq = Some (VDict (Dict.del "type" d)) /\
    (r = Ok tt <-> failed rp = false).
Proof.
  eexists _, _, _, _. split; [apply update_check_dict|].
  split; [apply DictFacts.get_del_same|].
  split; [intros k Hk; now apply DictFacts.get_del_other|].
  split; [apply DictFacts.del_filter|].
  split; [reflexivity|]. split; [reflexivity|]. split; [reflexivity|].
  apply call_outcome_ok.
Qed.

(** ** [get_checks] *)

Lemma fetch_checks_eq json_loads server st :
  let rq := checks_request (self st) in
  let rp := server (wire st) rq in
  let st1 := exchanged st rq rp in
  fetch_checks json_loads server st =
  match rp with
  | Raised d => (Err (RequestException d), st1)
  | Reply r =>
      if negb (status_code r =? 200) then (Err (ExceptionBytes (content r)), st1)
      else
        match loads json_loads (content r) with
        | inl e => (Err e, st1)
        | inr response_json =>
            match checks_of_json response_json with
            | inl e => (Err e, st1)
            | inr checks => (Ok checks, with_cache st1 checks)
            end
        end
  end.
Proof.
  unfold fetch_checks, checks_request, bind, liftR, ret, raise, set_cache,
    api_get, api_call.
  cbv zeta.
  destruct (server _ _) as [r|dt]; simpl; [|reflexivity].
  destruct (negb (status_code r =? 200)); simpl; [reflexivity|].
  destruct (loads json_loads (content r)) as [e|response_json]; simpl;
    [reflexivity|].
  destruct (checks_of_json response_json); reflexivity.
Qed.

Lemma get_checks_cached json_loads server checks st :
  get_checks_cache (self st) = Some checks ->
  get_checks json_loads server true st = (Ok checks, st).
Proof.
  intros H. unfold get_checks, bind, get_cache, ret. now rewrite H.
Qed.

Lemma get_checks_cases json_loads server cache st :
  (exists checks,
      cache = true /\ get_checks_cache (self st) = Some checks /\
      get_checks json_loads server cache st = (Ok checks, st)) \/
  ((cache = false \/ get_checks_cache (self st) = None) /\
   get_checks json_loads server cache st = fetch_checks json_loads server st).
Proof.
  unfold get_checks, bind, get_cache, ret.
  destruct cache; [|right; split; [now left | reflexivity]].
  destruct (get_checks_cache (self st)) as [checks|] eqn:Hc.
  - left. exists checks. repeat split; reflexivity.
  - right. split; [now right | reflexivity].
Qed.

(** a call that asks the remote service and is answered with status 200
    and a body that decodes to a mapping *)
Lemma get_checks_fetched json_loads server cache st r j checks :
  cache = false \/ get_checks_cache (self st) = None ->
  server (wire st) (checks_request (self st)) = Reply r ->
  status_code r = 200 ->
  json_loads (content r) = Some (VDict j) ->
  (Dict.get "checks" j = None /\ checks = [] \/
   Dict.get "checks" j = Some (VList checks)) ->
  get_checks json_loads server cache st
  = (Ok checks,
     with_cache (exchanged st (checks_request (self st)) (Reply r)) checks).
Proof.
  intros Hmiss Hs Hstatus Hj Hc.
  destruct (get_checks_cases json_loads server cache st)
    as [(cs & Ht & Hcs & _)|[_ E]]; [destruct Hmiss; congruence|].
  rewrite E, fetch_checks_eq. cbv zeta. rewrite Hs, Hstatus. simpl.
  unfold loads. rewrite Hj.
  unfold checks_of_json. simpl. unfold Dict.has.
  destruct Hc as [[Hn ->]| Hl].
  - rewrite Hn. reflexivity.
  - rewrite Hl. reflexivity.
Qed.

(** C9, as stated, fails in its last part: a call with the cache disabled
    that fails on a client that already holds a list leaves that list in
    the cache, it does not leave the cache unset. *)
Lemma failed_call_leaves_cache_unset_counterexample :
  let st := with_cache Sample.st0 [Sample.c1] in
  let call := get_checks Sample.json_loads Sample.down false st in
  fst call = Err (ExceptionBytes "down") /\
  get_checks_cache (self (snd call)) = Some [Sample.c1] /\
  get_checks_cache (self (snd call)) <> None.
Proof.
  cbv zeta. split; [reflexivity|]. split; [reflexivity | discriminate].
Qed.

(** C9, amended.  [get_checks] keeps the list of its first successful call,
    which is the [checks] list of the decoded response; with the cache
    enabled a later call returns the kept list and sends nothing; a
    response whose status is not 200 makes the call raise after its single
    request; a call that raises leaves the cache as it was: unset when it
    was unset, and with the list it held when the call was made with the
    cache disabled. *)
Theorem get_checks_caches json_loads server :
  (forall st checks,
      get_checks_cache (self st) = Some checks ->
      get_checks json_loads server true st = (Ok checks, st)) /\
  (forall cache st checks st',
      get_checks json_loads server cache st = (Ok checks, st') ->
      get_checks_cache (self st') = Some checks /\
      get_checks json_loads server true st' = (Ok checks, st')) /\
  (forall cache st e st',
      get_checks json_loads server cache st = (Err e, st') ->
      self st' = self st /\
      get_checks_cache (self st') = get_checks_cache (self st) /\
      (get_checks_cache (self st) = None -> get_checks_cache (self st') = None) /\
      (cache = false \/ get_checks_cache (self st) = None) /\
      exists rp, wire st' = (wire st ++ [(checks_request (self st), rp)])%list) /\
  (forall cache st r,
      cache = false \/ get_checks_cache (self st) = None ->
      server (wire st) (checks_request (self st)) = Reply r ->
      status_code r <> 200 ->
      get_checks json_loads server cache st
      = (Err (ExceptionBytes (content r)),
         exchanged st (checks_request (self st)) (Reply r))) /\
  (forall cache st r j checks,
      cache = false \/ get_checks_cache (self st) = None ->
      server (wire st) (checks_request (self st)) = Reply r ->
      status_code r = 200 ->
      json_loads (content r) = Some (VDict j) ->
      (Dict.get "checks" j = None /\ checks = [] \/
       Dict.get "checks" j = Some (VList checks)) ->
      get_checks json_loads server cache st
      = (Ok checks,
         with_cache (exchanged st (checks_request (self st)) (Reply r)) checks)).
Proof.
  split; [intros st checks; apply get_checks_cached|].
  assert (Hok : forall cache st checks st',
             get_checks json_loads server cache st = (Ok checks, st') ->
             get_checks_cache (self st') = Some checks).
  { intros cache st checks st' H.
    destruct (get_checks_cases json_loads server cache st)
      as [(cs & _ & Hc & E)|[_ E]]; rewrite E in H.
    - inversion H; subst. exact Hc.
    - rewrite fetch_checks_eq in H. cbv zeta in H.
      destruct (server _ _) as [r|dt]; [|discriminate].
      destruct (negb (status_code r =? 200)); [discriminate|].
      destruct (loads json_loads (content r)); [discriminate|].
      destruct (checks_of_json p); [discriminate|].
      inversion H; subst. reflexivity. }
  split.
  { intros cache st checks st' H. pose proof (Hok _ _ _ _ H) as Hc.
    split; [exact Hc | now apply get_checks_cached]. }
  split.
  { intros cache st e st' H.
    assert (Hs : self st' = self st /\
                 (cache = false \/ get_checks_cache (self st) = None) /\
                 exists rp,
                   wire st' = (wire st ++ [(checks_request (self st), rp)])%list).
    { destruct (get_checks_cases json_loads server cache st)
        as [(cs & _ & Hc & E)|[Hmiss E]]; rewrite E in H; [discriminate|].
      split; [|split; [exact Hmiss|]];
        rewrite fetch_checks_eq in H; cbv zeta in H;
        (destruct (server _ _) as [r|dt] eqn:Hsv;
         [destruct (negb (status_code r =? 200));
          [|destruct (loads json_loads (content r));
            [|destruct (checks_of_json p); [|discriminate]]]|]);
        inversion H; subst; try reflexivity; eexists; reflexivity. }
    destruct Hs as (Hself & Hmiss & Hw).
    split; [exact Hself|]. split; [now rewrite Hself|].
    split; [intros Hn; now rewrite Hself|].
    split; [exact Hmiss | exact Hw]. }
  split.
  { intros cache st r Hmiss Hs Hstatus.
    destruct (get_checks_cases json_loads server cache st)
      as [(cs & Ht & Hc & _)|[_ E]].
    - destruct Hmiss; congruence.
    - rewrite E, fetch_checks_eq. cbv zeta. rewrite Hs.
      apply Z.eqb_neq in Hstatus. now rewrite Hstatus. }
  intros cache st r j checks. apply get_checks_fetched.
Qed.

Lemma get_checks_caches_witness :
  let checks := [Sample.c1; Sample.c2; Sample.c3; Sample.c4; Sample.c5] in
  let st1 :=
    with_cache (exchanged Sample.st0 (checks_request (self Sample.st0))
                          (Sample.ok "list")) checks in
  get_checks Sample.json_loads Sample.server true Sample.st0 = (Ok checks, st1) /\
  get_checks Sample.json_loads Sample.server true st1 = (Ok checks, st1) /\
  get_checks Sample.json_loads Sample.down true Sample.st0
  = (Err (ExceptionBytes "down"),
     exchanged Sample.st0 (checks_request (self Sample.st0))
               (Reply {| status_code := 500; content := "down" |})) /\
  get_checks_cache
    (self (snd (get_checks Sample.json_loads Sample.down true Sample.st0))) = None /\
  get_checks_cache
    (self (snd (get_checks Sample.json_loads Sample.down false st1)))
  = Some checks.
Proof.
  cbv zeta.
  destruct (get_checks_caches Sample.json_loads Sample.server)
    as (_ & H2 & _ & _ & H5).
  destruct (get_checks_caches Sample.json_loads Sample.down) as (_ & _ & H3 & H4 & _).
  assert (E : get_checks Sample.json_loads Sample.server true Sample.st0
              = (Ok [Sample.c1; Sample.c2; Sample.c3; Sample.c4; Sample.c5],
                 with_cache (exchanged Sample.st0 (checks_request (self Sample.st0))
                                       (Sample.ok "list"))
                            [Sample.c1; Sample.c2; Sample.c3; Sample.c4; Sample.c5])).
  { apply (H5 true Sample.st0 {| status_code := 200; content := "list" |}
              [("checks",
                VList [Sample.c1; Sample.c2; Sample.c3; Sample.c4; Sample.c5])]).
    - right. reflexivity.
    - reflexivity.
    - reflexivity.
    - reflexivity.
    - right. reflexivity. }
  split; [exact E|].
  split; [exact (proj2 (H2 _ _ _ _ E))|].
  assert (E' : get_checks Sample.json_loads Sample.down true Sample.st0
               = (Err (ExceptionBytes "down"),
                  exchanged Sample.st0 (checks_request (self Sample.st0))
                            (Reply {| status_code := 500; content := "down" |}))).
  { apply (H4 true Sample.st0 {| status_code := 500; content := "down" |}).
    - right. reflexivity.
    - reflexivity.
    - simpl. lia. }
  split; [exact E'|].
  split.
  - destruct (H3 _ _ _ _ E') as (_ & _ & Hn & _).
    rewrite E'. apply Hn. reflexivity.
  - destruct (H3 false
                 (with_cache (exchanged Sample.st0 (checks_request (self Sample.st0))
                                        (Sample.ok "list"))
                             [Sample.c1; Sample.c2; Sample.c3; Sample.c4; Sample.c5])
                 _ _ (surjective_pairing _))
      as (_ & Hc & _).
    exact Hc.
Defined.

(** ** Strings *)

Module StrFacts.

Lemma app_assoc (a b c : string) : (a ++ b) ++ c = a ++ (b ++ c).
Proof. induction a as [|x a IH]; simpl; [reflexivity | now rewrite IH]. Qed.

Lemma app_nil_r (a : string) : a ++ "" = a.
Proof. induction a as [|x a IH]; simpl; [reflexivity | now rewrite IH]. Qed.

Lemma rstrip_app c s : Str.rstrip c (s ++ String c "") = Str.rstrip c s.
Proof.
  induction s as [|a s IH]; simpl.
  - now rewrite Ascii.eqb_refl.
  - now rewrite IH.
Qed.

(** what [rstrip] returns does not end with the stripped character *)
Lemma rstrip_last c s : Str.last (Str.rstrip c s) <> Some c.
Proof.
  induction s as [|a s IH]; simpl; [discriminate|].
  destruct (Str.rstrip c s) as [|b r] eqn:E.
  - destruct (Ascii.eqb a c) eqn:Ea; simpl; [discriminate|].
    apply Ascii.eqb_neq in Ea. congruence.
  - exact IH.
Qed.

(** a string that does not end with the character is left as it is *)
Lemma rstrip_id c s : Str.last s <> Some c -> Str.rstrip c s = s.
Proof.
  induction s as [|a s IH]; simpl; [reflexivity|].
  destruct s as [|b s'].
  - intros H. simpl.
    destruct (Ascii.eqb a c) eqn:Ea; [|reflexivity].
    apply Ascii.eqb_eq in Ea. congruence.
  - intros H. rewrite (IH H). reflexivity.
Qed.

Lemma trailing_join l :
  l <> [] -> trailing l = Str.join "," l ++ ",".
Proof.
  induction l as [|x l IH]; [congruence|]. intros _.
  destruct l as [|y l'].
  - simpl. reflexivity.
  - change (trailing (x :: y :: l')) with (x ++ "," ++ trailing (y :: l')).
    rewrite IH by discriminate.
    change (Str.join "," (x :: y :: l'))
      with (x ++ "," ++ Str.join "," (y :: l')).
    now rewrite !app_assoc.
Qed.

Lemma rstrip_trailing l :
  Str.rstrip ","%char (trailing l) = Str.rstrip ","%char (Str.join "," l).
Proof.
  destruct l as [|x l]; [reflexivity|].
  rewrite trailing_join by discriminate. apply rstrip_app.
Qed.

End StrFacts.

(** ** Identity resolution *)

Lemma csv_append_list repr conv start xs ys :
  Forall2 (fun x y => conv x = Ok y) xs ys ->
  csv_append repr conv start (VList xs)
  = Ok (start ++ trailing (map (format repr) ys)).
Proof.
  unfold csv_append. simpl. intros H. revert start.
  induction H as [|x y xs ys Hxy _ IH]; intros start; simpl.
  - now rewrite StrFacts.app_nil_r.
  - rewrite Hxy. simpl. rewrite IH. now rewrite !StrFacts.app_assoc.
Qed.

Lemma Forall2_same (xs : list pyval) :
  Forall2 (fun x y : pyval => @Ok pyval x = Ok y) xs xs.
Proof. induction xs; constructor; auto. Qed.

Lemma resolve_tags_list repr tag c tags :
  Dict.get "tags" c = Some (VList tags) ->
  resolve_tags repr tag (VDict c)
  = Ok (VDict (Dict.set "tags"
                 (VStr (Str.rstrip ","%char
                          (Str.join "," (map (format repr) (tag :: tags)))))
                 c)).
Proof.
  intros H. rewrite <- StrFacts.rstrip_trailing.
  unfold resolve_tags. simpl. unfold Dict.has. rewrite H. simpl.
  rewrite (csv_append_list repr _ _ (Forall2_same tags)). simpl.
  now rewrite StrFacts.app_assoc.
Qed.

Lemma resolve_ids_list repr field table c names ids :
  Dict.get field c = Some (VList names) ->
  Forall2 (fun n i => Py.getitem table n = Ok i) names ids ->
  resolve_ids repr field table (VDict c)
  = Ok (VDict (Dict.set field
                 (VStr (Str.rstrip ","%char (Str.join "," (map (format repr) ids))))
                 c)).
Proof.
  intros H Hids. rewrite <- StrFacts.rstrip_trailing.
  unfold resolve_ids. simpl. unfold Dict.has. rewrite H. simpl.
  now rewrite (csv_append_list repr _ _ Hids).
Qed.

(** C4.  Identity resolution writes a list field as its elements joined by
    commas, in declared order, with trailing commas stripped.  [tags]: the
    reconciliation tag comes first; the result never ends with a comma and is
    the plain join when the join does not end with one; tags [b, c] under tag
    [t] give [t,b,c].  [teamids] and [integrationids]: the ids the names
    stand for; names [x, y] with table [{x: 1, y: 2}] give [1,2].  A check
    without [tags] is left as it is. *)
Theorem resolve_serialises_lists repr :
  (forall tag c tags,
      Dict.get "tags" c = Some (VList tags) ->
      let joined := Str.join "," (map (format repr) (tag :: tags)) in
      let csv := Str.rstrip ","%char joined in
      resolve_tags repr tag (VDict c) = Ok (VDict (Dict.set "tags" (VStr csv) c)) /\
      Str.last csv <> Some ","%char /\
      (Str.last joined <> Some ","%char -> csv = joined)) /\
  (forall field table c names ids,
      Dict.get field c = Some (VList names) ->
      Forall2 (fun n i => Py.getitem table n = Ok i) names ids ->
      let joined := Str.join "," (map (format repr) ids) in
      let csv := Str.rstrip ","%char joined in
      resolve_ids repr field table (VDict c)
      = Ok (VDict (Dict.set field (VStr csv) c)) /\
      Str.last csv <> Some ","%char /\
      (Str.last joined <> Some ","%char -> csv = joined)) /\
  (forall c,
      Dict.get "tags" c = Some (VList [VStr "b"; VStr "c"]) ->
      resolve_tags repr (VStr "t") (VDict c)
      = Ok (VDict (Dict.set "tags" (VStr "t,b,c") c))) /\
  (forall field c,
      Dict.get field c = Some (VList [VStr "x"; VStr "y"]) ->
      resolve_ids repr field (VDict [("x", VInt 1); ("y", VInt 2)]) (VDict c)
      = Ok (VDict (Dict.set field (VStr "1,2") c))) /\
  (forall tag c,
      Dict.get "tags" c = None ->
      resolve_tags repr tag (VDict c) = Ok (VDict c)) /\
  (forall tag teams integrations check,
      resolve repr tag teams integrations check
      = let? check := resolve_tags repr tag check in
        let? check := resolve_ids repr "teamids" teams check in
        resolve_ids repr "integrationids" integrations check).
Proof.
  split.
  { intros tag c tags H. cbv zeta.
    split; [now apply resolve_tags_list|].
    split; [apply StrFacts.rstrip_last | apply StrFacts.rstrip_id]. }
  split.
  { intros field table c names ids H Hids. cbv zeta.
    split; [now apply resolve_ids_list with (names := names)|].
    split; [apply StrFacts.rstrip_last | apply StrFacts.rstrip_id]. }
  split.
  { intros c H. rewrite (resolve_tags_list repr (VStr "t") c H). reflexivity. }
  split.
  { intros field c H.
    rewrite (@resolve_ids_list repr field (VDict [("x", VInt 1); ("y", VInt 2)]) c
               [VStr "x"; VStr "y"] [VInt 1; VInt 2] H).
    - reflexivity.
    - repeat constructor. }
  split.
  { intros tag c H. unfold resolve_tags. simpl. unfold Dict.has. now rewrite H. }
  reflexivity.
Qed.

Lemma resolve_serialises_lists_witness :
  let c := [("name", VStr "n"); ("tags", VList [VStr "b"; VStr "c"]);
            ("teamids", VList [VStr "x"; VStr "y"])] in
  resolve_tags Sample.repr (VStr "t") (VDict c)
  = Ok (VDict [("name", VStr "n"); ("tags", VStr "t,b,c");
               ("teamids", VList [VStr "x"; VStr "y"])]) /\
  resolve_ids Sample.repr "teamids" (VDict [("x", VInt 1); ("y", VInt 2)]) (VDict c)
  = Ok (VDict [("name", VStr "n"); ("tags", VList [VStr "b"; VStr "c"]);
               ("teamids", VStr "1,2")]) /\
  resolve_tags Sample.repr (VStr "t") (VDict [("name", VStr "n")])
  = Ok (VDict [("name", VStr "n")]).
Proof.
  cbv zeta.
  destruct (resolve_serialises_lists Sample.repr) as (_ & _ & H3 & H4 & H5 & _).
  split; [|split].
  - apply (H3 [("name", VStr "n"); ("tags", VList [VStr "b"; VStr "c"]);
               ("teamids", VList [VStr "x"; VStr "y"])]).
    reflexivity.
  - apply (H4 "teamids"
              [("name", VStr "n"); ("tags", VList [VStr "b"; VStr "c"]);
               ("teamids", VList [VStr "x"; VStr "y"])]).
    reflexivity.
  - apply (H5 (VStr "t") [("name", VStr "n")]). reflexivity.
Defined.

(** ** Host matching *)

Lemma eq_str_r v s : Py.eq v (VStr s) = true <-> v = VStr s.
Proof.
  destruct v; simpl; try (split; [discriminate | congruence]).
  unfold Py.eq. rewrite String.eqb_eq. split; congruence.
Qed.

Lemma host_field_dict field host found d :
  host_field field host found (VDict d)
  = Ok (found ++ field_hit field host (VDict d))%list.
Proof.
  unfold host_field, field_hit. simpl. unfold Dict.has.
  destruct (Dict.get field d) as [v|] eqn:Hg; simpl.
  - destruct v; try (now rewrite app_nil_r).
    change (Py.eq (VStr s) (VStr host)) with (String.eqb s host).
    destruct (String.eqb s host); [reflexivity | now rewrite app_nil_r].
  - now rewrite app_nil_r.
Qed.

Lemma host_candidates_from host checks found :
  Forall (fun c => Py.is_dict c = true) checks ->
  rfor_each
    (fun found check =>
       let? found := host_field "host" host found check in
       host_field "hostname" host found check)
    checks found
  = Ok (found ++ candidates host checks)%list.
Proof.
  intros H. revert found.
  induction H as [|c checks Hc _ IH]; intros found; simpl.
  - now rewrite app_nil_r.
  - destruct c; try discriminate.
    rewrite host_field_dict. simpl. rewrite host_field_dict. simpl.
    rewrite IH. now rewrite <- !app_assoc.
Qed.

Lemma host_candidates_dicts host checks :
  Forall (fun c => Py.is_dict c = true) checks ->
  host_candidates host checks = Ok (candidates host checks).
Proof. intros H. unfold host_candidates. now rewrite host_candidates_from. Qed.

(** without a tag filter the result is the list of host-candidates *)
Lemma find_matching_checks_no_tags json_loads repr server host checks st :
  get_checks_cache (self st) = Some checks ->
  Forall (fun c => Py.is_dict c = true) checks ->
  find_matching_checks json_loads repr server host None st
  = (Ok (candidates (Str.lower (format repr host)) checks), st).
Proof.
  intros Hc Hd. unfold find_matching_checks, bind.
  rewrite (get_checks_cached json_loads server _ Hc).
  unfold liftR, Ok. cbv beta iota.
  rewrite (host_candidates_dicts _ Hd). unfold Ok.
  now destruct (candidates _ checks).
Qed.

(** ** Tag matching *)

Lemma rfor_each_cons A X (body : A -> X -> result A) x l a :
  rfor_each body (x :: l) a = rbind (body a x) (fun a' => rfor_each body l a').
Proof. reflexivity. Qed.

Lemma rbind_Ok A B (a : A) (k : A -> result B) : rbind (Ok a) k = k a.
Proof. reflexivity. Qed.

Lemma count_inner tags t n count :
  Py.getitem t (VStr "name") = Ok n ->
  rfor_each
    (fun count tag_current =>
       let? name := Py.getitem t (VStr "name") in
       Ok (if Py.eq name tag_current then S count else count))
    tags count
  = Ok (count + List.length (filter (Py.eq n) tags))%nat.
Proof.
  intros Hn. rewrite Hn. revert count.
  induction tags as [|tag tags IH]; intros count.
  - simpl. now rewrite Nat.add_0_r.
  - rewrite rfor_each_cons, !rbind_Ok, IH. cbn [filter].
    destruct (Py.eq n tag); cbn [List.length]; f_equal; lia.
Qed.

Lemma filter_pairs n (tags : list pyval) :
  List.length
    (filter (fun p => Py.eq (fst p) (snd p)) (map (fun y => (n, y)) tags))
  = List.length (filter (Py.eq n) tags).
Proof.
  induction tags as [|tag tags IH]; simpl; [reflexivity|].
  destruct (Py.eq n tag); simpl; now rewrite IH.
Qed.

Lemma count_tags_from tags dts names count :
  Forall2 (fun t n => Py.getitem t (VStr "name") = Ok n) dts names ->
  rfor_each
    (fun count tag =>
       rfor_each
         (fun count tag_current =>
            let? name := Py.getitem tag (VStr "name") in
            Ok (if Py.eq name tag_current then S count else count))
         tags count)
    dts count
  = Ok (count + count_pairs names tags)%nat.
Proof.
  intros H. revert count.
  induction H as [|t n dts names Hn _ IH]; intros count.
  - unfold count_pairs. simpl. now rewrite Nat.add_0_r.
  - rewrite rfor_each_cons, (count_inner tags t count Hn), rbind_Ok, IH.
    unfold count_pairs. simpl.
    rewrite filter_app, length_app, filter_pairs.
    f_equal. lia.
Qed.

Lemma count_tags_names tags dts names :
  Forall2 (fun t n => Py.getitem t (VStr "name") = Ok n) dts names ->
  count_tags tags dts = Ok (count_pairs names tags).
Proof.
  intros H. unfold count_tags. now rewrite (count_tags_from tags 0 H).
Qed.

Lemma match_detail_names tags j detail names matches check :
  tags <> [] ->
  Dict.get "check" j = Some (VDict detail) ->
  detail_names detail names ->
  match_detail tags (VDict j) matches check
  = Ok (if tags_match tags names then (matches ++ [check])%list else matches).
Proof.
  intros Ht Hj Hd. unfold match_detail, tags_match. simpl. rewrite Hj. simpl.
  unfold Dict.has.
  destruct Hd as [Hnone | dts names Hsome Hn].
  - rewrite Hnone. simpl. unfold count_pairs. simpl.
    destruct tags; [congruence | reflexivity].
  - rewrite Hsome. simpl. now rewrite (count_tags_names tags Hn).
Qed.

Lemma match_check_served json_loads repr server tags matches check names st :
  tags <> [] ->
  serves_detail json_loads repr server (self st) check names ->
  exists rq rp,
    match_check json_loads repr server tags matches check st
    = (Ok (if tags_match tags names then (matches ++ [check])%list else matches),
       exchanged st rq rp).
Proof.
  intros Ht (id & body & j & detail & Hid & Hs & Hl & Hj & Hd).
  exists (detail_request repr (self st) id), (server (wire st) (detail_request repr (self st) id)).
  unfold match_check, bind, liftR, api_get, api_call, raise.
  rewrite Hid. unfold Ok at 1. cbv beta iota zeta.
  unfold detail_request in *. rewrite (Hs (wire st)). simpl.
  unfold loads. rewrite Hl. simpl.
  now rewrite (@match_detail_names tags j detail names matches check Ht Hj Hd).
Qed.

Lemma match_checks_served json_loads repr server tags names_of found :
  tags <> [] ->
  forall matches st,
    (forall c, In c found ->
               serves_detail json_loads repr server (self st) c (names_of c)) ->
    exists st',
      for_each (match_check json_loads repr server tags) found matches st
      = (Ok (matches ++ filter (fun c => tags_match tags (names_of c)) found)%list,
         st') /\
      self st' = self st /\ stdout st' = stdout st.
Proof.
  intros Ht. induction found as [|c found IH]; intros matches st Hs; simpl.
  - exists st. rewrite app_nil_r. repeat split; reflexivity.
  - destruct (@match_check_served json_loads repr server tags matches c
                (names_of c) st Ht (Hs c (or_introl eq_refl)))
      as (rq & rp & E).
    unfold bind. rewrite E. unfold Ok at 1. cbv beta iota.
    destruct (IH (if tags_match tags (names_of c)
                  then (matches ++ [c])%list else matches)
                 (exchanged st rq rp)) as (st' & E' & Hself & Hout).
    { intros c' Hin. apply Hs. now right. }
    exists st'. rewrite E'. split; [|split; [exact Hself | exact Hout]].
    destruct (tags_match tags (names_of c)); [|reflexivity].
    now rewrite <- app_assoc.
Qed.

(** *** The listing a lookup works on *)

Lemma get_checks_listing json_loads server st checks st1 :
  listing_available json_loads server st checks st1 ->
  get_checks json_loads server true st = (Ok checks, st1).
Proof.
  intros [[Hc ->] | (Hn & r & j & Hs & Hst & Hj & Hl & ->)].
  - now apply get_checks_cached.
  - apply (@get_checks_fetched json_loads server true st r j checks);
      try assumption. now right.
Qed.

Lemma listing_available_state json_loads server st checks st1 :
  listing_available json_loads server st checks st1 ->
  api_key (self st1) = api_key (self st) /\ stdout st1 = stdout st /\
  get_checks_cache (self st1) = Some checks.
Proof.
  intros [[Hc ->] | (Hn & r & j & _ & _ & _ & _ & ->)].
  - repeat split. exact Hc.
  - repeat split.
Qed.

Lemma serves_detail_key json_loads repr server p p' c names :
  api_key p = api_key p' ->
  serves_detail json_loads repr server p c names ->
  serves_detail json_loads repr server p' c names.
Proof.
  intros Hk (id & body & j & detail & Hid & Hs & Hl & Hj & Hd).
  exists id, body, j, detail. repeat split; try assumption.
  intros h. rewrite <- (Hs h).
  unfold detail_request, request, get_auth_header. now rewrite Hk.
Qed.

(** without a tag filter the result is the list of host-candidates *)
Lemma find_matching_checks_unfiltered json_loads repr server host tags checks
      st st1 :
  tags = None \/ tags = Some [] ->
  listing_available json_loads server st checks st1 ->
  Forall (fun c => Py.is_dict c = true) checks ->
  find_matching_checks json_loads repr server host tags st
  = (Ok (candidates (Str.lower (format repr host)) checks), st1).
Proof.
  intros Ht Hl Hd. unfold find_matching_checks. unfold bind at 1.
  rewrite (@get_checks_listing json_loads server st checks st1 Hl).
  unfold Ok at 1. cbv beta iota.
  unfold bind at 1, liftR at 1.
  rewrite (@host_candidates_dicts (Str.lower (format repr host)) checks Hd).
  unfold Ok at 1. cbv beta iota.
  destruct (candidates (Str.lower (format repr host)) checks); [reflexivity|].
  destruct Ht as [-> | ->]; reflexivity.
Qed.

(** with a tag filter the result is the list of the host-candidates that
    pass the test on their detail *)
Lemma find_matching_checks_filtered json_loads repr server host tags checks
      names_of st st1 :
  tags <> [] ->
  listing_available json_loads server st checks st1 ->
  Forall (fun c => Py.is_dict c = true) checks ->
  (forall c, In c (candidates (Str.lower (format repr host)) checks) ->
             serves_detail json_loads repr server (self st) c (names_of c)) ->
  exists st',
    find_matching_checks json_loads repr server host (Some tags) st
    = (Ok (filter (fun c => tags_match tags (names_of c))
                  (candidates (Str.lower (format repr host)) checks)), st').
Proof.
  intros Ht Hl Hd Hs. unfold find_matching_checks. unfold bind at 1.
  rewrite (@get_checks_listing json_loads server st checks st1 Hl).
  unfold Ok at 1. cbv beta iota.
  unfold bind at 1, liftR at 1.
  rewrite (@host_candidates_dicts (Str.lower (format repr host)) checks Hd).
  unfold Ok at 1. cbv beta iota.
  destruct (listing_available_state Hl) as (Hk & _ & _).
  destruct (candidates (Str.lower (format repr host)) checks) as [|c found] eqn:Ef.
  - exists st1. reflexivity.
  - destruct tags as [|t tags']; [congruence|].
    destruct (@match_checks_served json_loads repr server (t :: tags') names_of
                (c :: found) Ht [] st1) as (st' & E & _).
    { intros c' Hin. apply (@serves_detail_key json_loads repr server (self st)).
      - now symmetry.
      - now apply Hs. }
    exists st'. exact E.
Qed.

Lemma field_hit_hit field query d :
  field_hit field query (VDict d) = [VDict d] <->
  Dict.get field d = Some (VStr query).
Proof.
  unfold field_hit.
  destruct (Dict.get field d) as [v|]; [|split; discriminate].
  destruct v; try (split; discriminate).
  destruct (String.eqb s query) eqn:E.
  - apply String.eqb_eq in E. subst. split; reflexivity.
  - apply String.eqb_neq in E. split; [discriminate | congruence].
Qed.

Lemma field_hit_miss field query d :
  field_hit field query (VDict d) = [] <->
  Dict.get field d <> Some (VStr query).
Proof.
  unfold field_hit.
  destruct (Dict.get field d) as [v|]; [|split; [discriminate | reflexivity]].
  destruct v; try (split; [discriminate | reflexivity]).
  destruct (String.eqb s query) eqn:E.
  - apply String.eqb_eq in E. subst. split; [discriminate | congruence].
  - apply String.eqb_neq in E. split; [congruence | reflexivity].
Qed.

(** C5.  Only the query host is lower-cased; the remote [host] and
    [hostname] values are compared as they are, by string equality.
    Whether the listing comes from the cache or is fetched by this very
    lookup, the host-candidates of a query are, check by check and in the
    order of the remote list, the check once if its [host] equals the
    lower-cased query and once more if its [hostname] does: they are the
    result of a lookup without tags, and a lookup with tags (the call the
    program makes) filters exactly this list.  So a lookup for
    [Example.COM] returns a check whose host is [example.com], does not
    return a check whose host is [Example.COM], and a check with both
    fields equal to the lower-cased query is returned twice, also by a
    lookup with tags that its detail passes. *)
Theorem host_matching_lowers_query_only json_loads repr server :
  (forall (host : string) tags checks st st1,
      tags = None \/ tags = Some [] ->
      listing_available json_loads server st checks st1 ->
      Forall (fun c => Py.is_dict c = true) checks ->
      find_matching_checks json_loads repr server (VStr host) tags st
      = (Ok (flat_map
               (fun c => field_hit "host" (Str.lower host) c ++
                         field_hit "hostname" (Str.lower host) c)%list
               checks), st1)) /\
  (forall (host : string) tags checks names_of st st1,
      tags <> [] ->
      listing_available json_loads server st checks st1 ->
      Forall (fun c => Py.is_dict c = true) checks ->
      (forall c,
          In c (flat_map
                  (fun c => field_hit "host" (Str.lower host) c ++
                            field_hit "hostname" (Str.lower host) c)%list
                  checks) ->
          serves_detail json_loads repr server (self st) c (names_of c)) ->
      exists st',
        find_matching_checks json_loads repr server (VStr host) (Some tags) st
        = (Ok (filter
                 (fun c => tags_match tags (names_of c))
                 (flat_map
                    (fun c => field_hit "host" (Str.lower host) c ++
                              field_hit "hostname" (Str.lower host) c)%list
                    checks)), st')) /\
  (forall field query d,
      (field_hit field query (VDict d) = [VDict d] <->
       Dict.get field d = Some (VStr query)) /\
      (field_hit field query (VDict d) = [] <->
       Dict.get field d <> Some (VStr query))) /\
  (forall d st st1,
      listing_available json_loads server st [VDict d] st1 ->
      Dict.get "host" d = Some (VStr "example.com") ->
      Dict.get "hostname" d = None ->
      find_matching_checks json_loads repr server (VStr "Example.COM") None st
      = (Ok [VDict d], st1)) /\
  (forall d st st1,
      listing_available json_loads server st [VDict d] st1 ->
      Dict.get "host" d = Some (VStr "Example.COM") ->
      Dict.get "hostname" d = None ->
      find_matching_checks json_loads repr server (VStr "Example.COM") None st
      = (Ok [], st1)) /\
  (forall (host : string) d st st1,
      listing_available json_loads server st [VDict d] st1 ->
      Dict.get "host" d = Some (VStr (Str.lower host)) ->
      Dict.get "hostname" d = Some (VStr (Str.lower host)) ->
      find_matching_checks json_loads repr server (VStr host) None st
      = (Ok [VDict d; VDict d], st1)) /\
  (forall (host : string) tags names d st st1,
      tags <> [] ->
      listing_available json_loads server st [VDict d] st1 ->
      Dict.get "host" d = Some (VStr (Str.lower host)) ->
      Dict.get "hostname" d = Some (VStr (Str.lower host)) ->
      serves_detail json_loads repr server (self st) (VDict d) names ->
      tags_match tags names = true ->
      exists st',
        find_matching_checks json_loads repr server (VStr host) (Some tags) st
        = (Ok [VDict d; VDict d], st')).
Proof.
  assert (HA : forall (host : string) tags checks st st1,
             tags = None \/ tags = Some [] ->
             listing_available json_loads server st checks st1 ->
             Forall (fun c => Py.is_dict c = true) checks ->
             find_matching_checks json_loads repr server (VStr host) tags st
             = (Ok (candidates (Str.lower host) checks), st1)).
  { intros host tags checks st st1 Ht Hl Hd.
    exact (@find_matching_checks_unfiltered json_loads repr server (VStr host)
             tags checks st st1 Ht Hl Hd). }
  assert (HB : forall (host : string) tags checks names_of st st1,
             tags <> [] ->
             listing_available json_loads server st checks st1 ->
             Forall (fun c => Py.is_dict c = true) checks ->
             (forall c, In c (candidates (Str.lower host) checks) ->
                        serves_detail json_loads repr server (self st) c
                                      (names_of c)) ->
             exists st',
               find_matching_checks json_loads repr server (VStr host)
                                    (Some tags) st
               = (Ok (filter (fun c => tags_match tags (names_of c))
                             (candidates (Str.lower host) checks)), st')).
  { intros host tags checks names_of st st1 Ht Hl Hd Hs.
    exact (@find_matching_checks_filtered json_loads repr server (VStr host)
             tags checks names_of st st1 Ht Hl Hd Hs). }
  assert (Hone : forall d, Forall (fun c => Py.is_dict c = true) [VDict d])
    by (intros d; repeat constructor).
  split; [exact HA|]. split; [exact HB|].
  split; [intros field query d; split;
          [apply field_hit_hit | apply field_hit_miss]|].
  split.
  { intros d st st1 Hl Hh Hn.
    rewrite (HA "Example.COM" None [VDict d] st st1 (or_introl eq_refl) Hl (Hone d)).
    unfold candidates, field_hit. cbn [flat_map]. now rewrite Hh, Hn. }
  split.
  { intros d st st1 Hl Hh Hn.
    rewrite (HA "Example.COM" None [VDict d] st st1 (or_introl eq_refl) Hl (Hone d)).
    unfold candidates, field_hit. cbn [flat_map]. now rewrite Hh, Hn. }
  split.
  { intros host d st st1 Hl Hh Hn.
    rewrite (HA host None [VDict d] st st1 (or_introl eq_refl) Hl (Hone d)).
    unfold candidates, field_hit. cbn [flat_map].
    now rewrite Hh, Hn, String.eqb_refl. }
  intros host tags names d st st1 Ht Hl Hh Hn Hs Hm.
  assert (Hc : candidates (Str.lower host) [VDict d] = [VDict d; VDict d]).
  { unfold candidates, field_hit. cbn [flat_map].
    now rewrite Hh, Hn, String.eqb_refl. }
  destruct (HB host tags [VDict d] (fun _ => names) st st1 Ht Hl (Hone d))
    as (st' & E).
  { rewrite Hc. intros c [<-|[<-|[]]]; exact Hs. }
  exists st'. rewrite E, Hc. cbn [filter]. now rewrite Hm.
Qed.

(** On a client that has not fetched the listing yet, the sample service
    answers the listing; [Example.COM] selects checks 1 and 2, and the one
    lookup fetches the list and keeps it. *)
Lemma host_matching_lowers_query_only_witness :
  let checks := [Sample.c1; Sample.c2; Sample.c3; Sample.c4; Sample.c5] in
  let st1 :=
    with_cache (exchanged Sample.st0 (checks_request (self Sample.st0))
                          (Sample.ok "list")) checks in
  find_matching_checks Sample.json_loads Sample.repr Sample.server
                       (VStr "Example.COM") None Sample.st0
  = (Ok [Sample.c1; Sample.c2], st1) /\
  find_matching_checks Sample.json_loads Sample.repr Sample.server
                       (VStr "DUP.net") None st1
  = (Ok [Sample.c4; Sample.c4], st1) /\
  exists st',
    find_matching_checks Sample.json_loads Sample.repr Sample.server
                         (VStr "DUP.net") (Some [VStr "a"]) Sample.st0
    = (Ok [Sample.c4; Sample.c4], st').
Proof.
  cbv zeta.
  destruct (host_matching_lowers_query_only
              Sample.json_loads Sample.repr Sample.server) as (HA & HB & _).
  assert (Hl : listing_available Sample.json_loads Sample.server Sample.st0
                 [Sample.c1; Sample.c2; Sample.c3; Sample.c4; Sample.c5]
                 (with_cache
                    (exchanged Sample.st0 (checks_request (self Sample.st0))
                               (Sample.ok "list"))
                    [Sample.c1; Sample.c2; Sample.c3; Sample.c4; Sample.c5])).
  { right. split; [reflexivity|].
    exists {| status_code := 200; content := "list" |},
           [("checks",
             VList [Sample.c1; Sample.c2; Sample.c3; Sample.c4; Sample.c5])].
    split; [reflexivity|]. split; [reflexivity|]. split; [reflexivity|].
    split; [right; reflexivity | reflexivity]. }
  split; [|split].
  - rewrite (HA "Example.COM" None _ _ _ (or_introl eq_refl) Hl).
    + reflexivity.
    + repeat constructor.
  - assert (Hl1 : listing_available Sample.json_loads Sample.server
                    (with_cache
                       (exchanged Sample.st0 (checks_request (self Sample.st0))
                                  (Sample.ok "list"))
                       [Sample.c1; Sample.c2; Sample.c3; Sample.c4; Sample.c5])
                    [Sample.c1; Sample.c2; Sample.c3; Sample.c4; Sample.c5]
                    (with_cache
                       (exchanged Sample.st0 (checks_request (self Sample.st0))
                                  (Sample.ok "list"))
                       [Sample.c1; Sample.c2; Sample.c3; Sample.c4; Sample.c5]))
      by (left; split; reflexivity).
    rewrite (HA "DUP.net" None _ _ _ (or_introl eq_refl) Hl1).
    + reflexivity.
    + repeat constructor.
  - destruct (HB "DUP.net" [VStr "a"] _ (fun _ => [VStr "a"]) _ _
                 ltac:(discriminate) Hl) as (st' & E).
    + repeat constructor.
    + intros c [<-|[<-|[]]];
        (exists (VInt 4), "tags:a",
           [("check", VDict [("tags", VList [VDict [("name", VStr "a")]])])],
           [("tags", VList [VDict [("name", VStr "a")]])];
         split; [reflexivity|]; split; [intros h; reflexivity|];
         split; [reflexivity|]; split; [reflexivity|];
         eapply detail_tags; [reflexivity | repeat constructor]).
    + exists st'. exact E.
Defined.

(** C2.  With a non-empty list of requested tags, [find_matching_checks]
    keeps a host-candidate exactly when the number of pairs (detail tag,
    requested tag) with equal names is the number of requested tags, and the
    candidates kept come in their original order; so it is whether the
    listing comes from the cache or is fetched by this very lookup.  The
    two nested loops count these pairs.  Detail tags [a, a] against the
    request [a] make two pairs, not one, so that candidate is dropped. *)
Theorem tag_filter_counts_pairs json_loads repr server :
  (forall host tags checks names_of st st1,
      tags <> [] ->
      listing_available json_loads server st checks st1 ->
      Forall (fun c => Py.is_dict c = true) checks ->
      let found := candidates (Str.lower (format repr host)) checks in
      (forall c, In c found ->
                 serves_detail json_loads repr server (self st) c (names_of c)) ->
      exists st',
        find_matching_checks json_loads repr server host (Some tags) st
        = (Ok (filter
                 (fun c => Nat.eqb (count_pairs (names_of c) tags) (List.length tags))
                 found), st') /\
        forall c,
          In c (filter
                  (fun c => Nat.eqb (count_pairs (names_of c) tags)
                                    (List.length tags))
                  found) <->
          In c found /\ count_pairs (names_of c) tags = List.length tags) /\
  (forall tags dts names,
      Forall2 (fun t n => Py.getitem t (VStr "name") = Ok n) dts names ->
      count_tags tags dts = Ok (count_pairs names tags)) /\
  count_tags [VStr "a"] [VDict [("name", VStr "a")]; VDict [("name", VStr "a")]]
  = Ok 2%nat /\
  (forall matches check,
      match_detail [VStr "a"] (Sample.tagged ["a"; "a"]) matches check
      = Ok matches) /\
  (forall matches check,
      match_detail [VStr "a"] (Sample.tagged ["a"]) matches check
      = Ok (matches ++ [check])%list) /\
  count_pairs [VStr "a"; VStr "a"] [VStr "a"] = 2%nat /\
  tags_match [VStr "a"] [VStr "a"; VStr "a"] = false /\
  tags_match [VStr "a"] [VStr "a"] = true.
Proof.
  split.
  { intros host tags checks names_of st st1 Ht Hl Hd found Hs.
    destruct (@find_matching_checks_filtered json_loads repr server host tags
                checks names_of st st1 Ht Hl Hd Hs) as (st' & E).
    exists st'. split; [exact E|].
    intros c. rewrite filter_In, Nat.eqb_eq. reflexivity. }
  split; [intros tags dts names; apply count_tags_names|].
  repeat split; reflexivity.
Qed.

(** On a client that has not fetched the listing yet: [other.org] has the
    one candidate 3, whose detail tags are [a, a], and [dup.net] has
    candidate 4 twice, whose detail tag is [a]. *)
Lemma tag_filter_counts_pairs_witness :
  (exists st',
      find_matching_checks Sample.json_loads Sample.repr Sample.server
                           (VStr "other.org") (Some [VStr "a"]) Sample.st0
      = (Ok [], st')) /\
  (exists st',
      find_matching_checks Sample.json_loads Sample.repr Sample.server
                           (VStr "dup.net") (Some [VStr "a"]) Sample.st0
      = (Ok [Sample.c4; Sample.c4], st')).
Proof.
  destruct (tag_filter_counts_pairs Sample.json_loads Sample.repr Sample.server)
    as (H & _).
  assert (Hl : listing_available Sample.json_loads Sample.server Sample.st0
                 [Sample.c1; Sample.c2; Sample.c3; Sample.c4; Sample.c5]
                 (with_cache
                    (exchanged Sample.st0 (checks_request (self Sample.st0))
                               (Sample.ok "list"))
                    [Sample.c1; Sample.c2; Sample.c3; Sample.c4; Sample.c5])).
  { right. split; [reflexivity|].
    exists {| status_code := 200; content := "list" |},
           [("checks",
             VList [Sample.c1; Sample.c2; Sample.c3; Sample.c4; Sample.c5])].
    split; [reflexivity|]. split; [reflexivity|]. split; [reflexivity|].
    split; [right; reflexivity | reflexivity]. }
  split.
  - destruct (H (VStr "other.org") [VStr "a"] _ (fun _ => [VStr "a"; VStr "a"])
                _ _ ltac:(discriminate) Hl) as (st' & E & _).
    + repeat constructor.
    + intros c [<-|[]].
      exists (VInt 3), "tags:a,a", [("check", VDict [("tags", VList [VDict [("name", VStr "a")]; VDict [("name", VStr "a")]])])], [("tags", VList [VDict [("name", VStr "a")]; VDict [("name", VStr "a")]])].
      split; [reflexivity|]. split; [intros h; reflexivity|].
      split; [reflexivity|]. split; [reflexivity|].
      eapply detail_tags; [reflexivity | repeat constructor].
    + exists st'. exact E.
  - destruct (H (VStr "dup.net") [VStr "a"] _ (fun _ => [VStr "a"])
                _ _ ltac:(discriminate) Hl) as (st' & E & _).
    + repeat constructor.
    + intros c [<-|[<-|[]]];
        (exists (VInt 4), "tags:a", [("check", VDict [("tags", VList [VDict [("name", VStr "a")]])])], [("tags", VList [VDict [("name", VStr "a")]])];
         split; [reflexivity|]; split; [intros h; reflexivity|];
         split; [reflexivity|]; split; [reflexivity|];
         eapply detail_tags; [reflexivity | repeat constructor]).
    + exists st'. exact E.
Defined.

(** ** Validation of references *)

Lemma known_references_unknown field not_list unknown table d names n :
  Dict.get field d = Some (VList (map VStr names)) ->
  In n names ->
  Dict.has n table = false ->
  known_references field not_list unknown table (VDict d) = Err (Exception unknown).
Proof.
  intros Hg Hin Hn. unfold known_references. simpl. unfold Dict.has at 1.
  rewrite Hg. simpl.
  clear Hg. induction names as [|k names IH]; [destruct Hin|].
  rewrite map_cons, rfor_each_cons. simpl.
  destruct (Dict.has k table) eqn:Hk; simpl.
  - destruct Hin as [->|Hin]; [congruence | now apply IH].
  - reflexivity.
Qed.

Lemma validate_checks_stops teams integrations default pre pre' c post e :
  validate_checks teams integrations default pre = Ok pre' ->
  validate_check teams integrations default c = Err e ->
  validate_checks teams integrations default (pre ++ c :: post) = Err e.
Proof.
  revert pre'. induction pre as [|p pre IH]; intros pre' Hpre Hc; simpl.
  - now rewrite Hc.
  - simpl in Hpre.
    destruct (validate_check teams integrations default p) as [e'|p']; simpl in *;
      [discriminate|].
    destruct (validate_checks teams integrations default pre) as [e'|pre'']; simpl in *;
      [discriminate|].
    now rewrite (IH pre'' eq_refl Hc).
Qed.

Lemma validate_checks_member teams integrations default checks c e :
  In c checks ->
  validate_check teams integrations default c = Err e ->
  exists e', validate_checks teams integrations default checks = Err e'.
Proof.
  intros Hin Hc. induction checks as [|p checks IH]; [destruct Hin|]. simpl.
  destruct Hin as [->|Hin].
  - rewrite Hc. now exists e.
  - destruct (validate_check teams integrations default p) as [e'|p']; simpl;
      [now exists e'|].
    destruct (IH Hin) as [e' ->]. now exists e'.
Qed.

Lemma main_validation_error json_loads repr server configuration e st :
  validate_configuration_yaml repr configuration = Err e ->
  main json_loads repr server configuration st
  = (Ok 3,
     {| self := self st;
        wire := wire st;
        stdout := (stdout st ++ [Line Msg.unhandled; ExnLine e])%list |}).
Proof.
  intros H. unfold main, try_except, bind, liftR. rewrite H.
  unfold Err, print, ret. simpl. now rewrite <- app_assoc.
Qed.

(** the loop over the checks stops at the first check that fails *)
Lemma validate_checks_first_failure teams integrations default checks e :
  validate_checks teams integrations default checks = Err e ->
  exists pre pre' c post,
    checks = (pre ++ c :: post)%list /\
    validate_checks teams integrations default pre = Ok pre' /\
    validate_check teams integrations default c = Err e.
Proof.
  induction checks as [|p checks IH]; [discriminate|]. simpl.
  destruct (validate_check teams integrations default p) as [e'|p'] eqn:Ep;
    simpl.
  - intros H. inversion H; subst. exists [], [], p, checks.
    repeat split. exact Ep.
  - destruct (validate_checks teams integrations default checks) as [e'|rest] eqn:Er;
      simpl; [|discriminate].
    intros H. inversion H; subst.
    destruct (IH eq_refl) as (pre & pre' & c & post & -> & Hpre & Hc).
    exists (p :: pre), (p' :: pre'), c, post.
    split; [reflexivity|]. split; [|exact Hc].
    simpl. now rewrite Ep, Hpre.
Qed.

(** C8, as stated, fails: the error for an unknown reference is a fixed
    message that does not name the reference, so two different unknown names
    give the same error and neither is in it; and a malformed check earlier
    in the list makes validation raise an error that is no configuration
    error. *)
Lemma unknown_reference_named_counterexample :
  let bad n := VDict [("name", VStr "site"); ("host", VStr "example.com");
                      ("teamids", VList [VStr n])] in
  validate_configuration_yaml Sample.repr (Sample.document [bad "nobody"])
  = Err (Exception Msg.unknown_teamid) /\
  validate_configuration_yaml Sample.repr (Sample.document [bad "somebody-else"])
  = Err (Exception Msg.unknown_teamid) /\
  Str.contains "nobody" Msg.unknown_teamid = false /\
  Str.contains "somebody-else" Msg.unknown_teamid = false /\
  validate_configuration_yaml Sample.repr (Sample.document [VInt 0; bad "nobody"])
  = Err TypeError.
Proof.
  cbv zeta. repeat split; vm_compute; reflexivity.
Qed.

(** C8, amended.  A check that names a team or an integration the tables do
    not have makes validation raise, and nothing is sent to the remote
    service.  Validation stops at the first check that fails, so the error
    is that of the first failing check of the list.  When validation gets
    as far as the unknown reference (what comes before it in the document
    is in order), the error is the configuration error for the field: a
    fixed message that names the field ([teamids] or [integrationids]) and
    the tag the name should be defined under ([pingdom.teams] or
    [pingdom.integrations]), not the unknown name.  Whenever validation
    raises, the main block prints the error and ends with status 3 without
    a single request. *)
Theorem unknown_reference_rejected repr :
  (forall cfg teams integrations default checks pre pre' c post d names n,
      validate_header repr cfg = Ok (teams, integrations, default, checks) ->
      checks = (pre ++ c :: post)%list ->
      validate_checks teams integrations default pre = Ok pre' ->
      populate_defaults default c = Ok (VDict d) ->
      mandatory_parameters (VDict d) = Ok tt ->
      Dict.get "teamids" d = Some (VList (map VStr names)) ->
      In n names ->
      Dict.has n teams = false ->
      validate_configuration_yaml repr cfg = Err (Exception Msg.unknown_teamid)) /\
  (forall cfg teams integrations default checks pre pre' c post d names n,
      validate_header repr cfg = Ok (teams, integrations, default, checks) ->
      checks = (pre ++ c :: post)%list ->
      validate_checks teams integrations default pre = Ok pre' ->
      populate_defaults default c = Ok (VDict d) ->
      mandatory_parameters (VDict d) = Ok tt ->
      known_references "teamids" Msg.teamids_not_list Msg.unknown_teamid
                       teams (VDict d) = Ok tt ->
      Dict.get "integrationids" d = Some (VList (map VStr names)) ->
      In n names ->
      Dict.has n integrations = false ->
      validate_configuration_yaml repr cfg
      = Err (Exception Msg.unknown_integrationid)) /\
  (forall cfg teams integrations default checks c d field table names n,
      validate_header repr cfg = Ok (teams, integrations, default, checks) ->
      In c checks ->
      populate_defaults default c = Ok (VDict d) ->
      (field = "teamids" /\ table = teams \/
       field = "integrationids" /\ table = integrations) ->
      Dict.get field d = Some (VList (map VStr names)) ->
      In n names ->
      Dict.has n table = false ->
      exists e pre pre' c0 post,
        validate_configuration_yaml repr cfg = Err e /\
        checks = (pre ++ c0 :: post)%list /\
        validate_checks teams integrations default pre = Ok pre' /\
        validate_check teams integrations default c0 = Err e) /\
  (forall json_loads server cfg e st,
      validate_configuration_yaml repr cfg = Err e ->
      exists st',
        main json_loads repr server cfg st = (Ok 3, st') /\
        wire st' = wire st /\
        stdout st' = (stdout st ++ [Line Msg.unhandled; ExnLine e])%list) /\
  (Str.contains "`teamids`" Msg.unknown_teamid = true /\
   Str.contains "`pingdom.teams`" Msg.unknown_teamid = true /\
   Str.contains "`integrationids`" Msg.unknown_integrationid = true /\
   Str.contains "`pingdom.integrations`" Msg.unknown_integrationid = true).
Proof.
  split.
  { intros cfg teams integrations default checks pre pre' c post d names n
           Hh -> Hpre Hd Hm Hg Hin Hn.
    unfold validate_configuration_yaml. rewrite Hh, rbind_Ok.
    erewrite validate_checks_stops; [reflexivity | exact Hpre |].
    unfold validate_check. rewrite Hd, rbind_Ok, Hm, rbind_Ok.
    erewrite known_references_unknown;
      [reflexivity | eassumption | eassumption | eassumption]. }
  split.
  { intros cfg teams integrations default checks pre pre' c post d names n
           Hh -> Hpre Hd Hm Ht Hg Hin Hn.
    unfold validate_configuration_yaml. rewrite Hh, rbind_Ok.
    erewrite validate_checks_stops; [reflexivity | exact Hpre |].
    unfold validate_check. rewrite Hd, rbind_Ok, Hm, rbind_Ok, Ht, rbind_Ok.
    erewrite known_references_unknown;
      [reflexivity | eassumption | eassumption | eassumption]. }
  split.
  { intros cfg teams integrations default checks c d field table names n
           Hh Hc Hd Hf Hg Hin Hn.
    unfold validate_configuration_yaml. rewrite Hh, rbind_Ok.
    assert (exists e, validate_check teams integrations default c = Err e)
      as [e He].
    { unfold validate_check. rewrite Hd, rbind_Ok.
      destruct (mandatory_parameters (VDict d)) as [e|[]]; [now exists e|].
      rewrite rbind_Ok.
      destruct Hf as [[-> ->]|[-> ->]].
      - erewrite known_references_unknown;
          [eexists; reflexivity | eassumption | eassumption | eassumption].
      - destruct (known_references "teamids" _ _ teams (VDict d)) as [e|[]];
          [now exists e|].
        rewrite rbind_Ok.
        erewrite known_references_unknown;
          [eexists; reflexivity | eassumption | eassumption | eassumption]. }
    destruct (validate_checks_member teams integrations default _ _ Hc He)
      as [e' He'].
    destruct (validate_checks_first_failure _ _ _ _ He')
      as (pre & pre' & c0 & post & Hsplit & Hpre & Hc0).
    exists e', pre, pre', c0, post. rewrite He'.
    split; [reflexivity|]. split; [exact Hsplit|]. split; [exact Hpre | exact Hc0]. }
  split.
  { intros json_loads server cfg e st H.
    erewrite main_validation_error by exact H.
    eexists. split; [reflexivity|]. split; reflexivity. }
  repeat split; reflexivity.
Qed.

Lemma unknown_reference_rejected_witness :
  let bad := VDict [("name", VStr "site"); ("host", VStr "example.com");
                    ("teamids", VList [VStr "x"; VStr "nobody"])] in
  let cfg := Sample.document [Sample.declared "first" "first.io"; bad] in
  validate_configuration_yaml Sample.repr cfg = Err (Exception Msg.unknown_teamid) /\
  exists st',
    main Sample.json_loads Sample.repr Sample.server cfg Sample.st0 = (Ok 3, st') /\
    wire st' = [].
Proof.
  cbv zeta.
  destruct (unknown_reference_rejected Sample.repr) as (H1 & _ & _ & H4 & _).
  assert (E : validate_configuration_yaml Sample.repr
                (Sample.document
                   [Sample.declared "first" "first.io";
                    VDict [("name", VStr "site"); ("host", VStr "example.com");
                           ("teamids", VList [VStr "x"; VStr "nobody"])]])
              = Err (Exception Msg.unknown_teamid)).
  { eapply (H1 _ _ _ _ _ [Sample.declared "first" "first.io"] _ _ []
               _ ["x"; "nobody"] "nobody").
    - reflexivity.
    - reflexivity.
    - reflexivity.
    - reflexivity.
    - reflexivity.
    - reflexivity.
    - right. left. reflexivity.
    - reflexivity. }
  split; [exact E|].
  destruct (H4 Sample.json_loads Sample.server _ _ Sample.st0 E) as (st' & Hm & Hw & _).
  exists st'. split; [exact Hm | exact Hw].
Defined.

(** ** Effects of the client methods on the state *)

Lemma bind_inv S A B (m : M S A) (k : A -> M S B) s r s' :
  bind m k s = (r, s') ->
  (exists a s1, m s = (Ok a, s1) /\ k a s1 = (r, s')) \/
  (exists e, m s = (Err e, s') /\ r = Err e).
Proof.
  unfold bind. destruct (m s) as [[e|a] s1]; intros H.
  - right. exists e. inversion H. split; reflexivity.
  - left. exists a, s1. split; [reflexivity | exact H].
Qed.

Lemma liftR_inv S A (x : result A) (s : S) r s' :
  liftR x s = (r, s') -> r = x /\ s' = s.
Proof. unfold liftR. intros H. inversion H. split; reflexivity. Qed.

Lemma delta_refl st : delta st st [] [].
Proof. unfold delta. rewrite !app_nil_r. repeat split; reflexivity. Qed.

Lemma delta_trans s1 s2 s3 w1 w2 o1 o2 :
  delta s1 s2 w1 o1 -> delta s2 s3 w2 o2 ->
  delta s1 s3 (w1 ++ w2)%list (o1 ++ o2)%list.
Proof.
  intros (Hw1 & Ho1 & Hk1) (Hw2 & Ho2 & Hk2). unfold delta.
  rewrite Hw2, Hw1, Ho2, Ho1, Hk2, Hk1, !app_assoc. repeat split; reflexivity.
Qed.

Lemma delta_exchanged st rq rp : delta st (exchanged st rq rp) [(rq, rp)] [].
Proof. unfold delta, exchanged. simpl. rewrite app_nil_r. repeat split; reflexivity. Qed.

Lemma delta_with_cache st checks : delta st (with_cache st checks) [] [].
Proof. unfold delta, with_cache. simpl. rewrite !app_nil_r. repeat split; reflexivity. Qed.

Lemma delta_print st l :
  delta st {| self := self st; wire := wire st; stdout := (stdout st ++ [l])%list |}
        [] [l].
Proof. unfold delta. simpl. rewrite app_nil_r. repeat split; reflexivity. Qed.

(** what a request of a given method leaves on the wire *)
Lemma api_call_effect server m url params st r st' :
  api_call server m url params st = (r, st') ->
  exists rq rp,
    rq = request (self st) m url params /\
    rp = server (wire st) rq /\
    st' = exchanged st rq rp /\
    match r with
    | inr resp => rp = Reply resp
    | inl e => exists d, rp = Raised d /\ e = RequestException d
    end.
Proof.
  unfold api_call. intros H.
  eexists _, _. split; [reflexivity|]. split; [reflexivity|].
  destruct (server (wire st) (request (self st) m url params)) as [resp|d];
    inversion H; subst; split; try reflexivity.
  exists d. split; reflexivity.
Qed.

Lemma get_checks_effect json_loads server cache st r st' :
  get_checks json_loads server cache st = (r, st') ->
  exists w, delta st st' w [] /\ only_gets w.
Proof.
  intros H.
  destruct (get_checks_cases json_loads server cache st)
    as [(cs & _ & _ & E)|[_ E]]; rewrite E in H.
  - inversion H; subst. exists []. split; [apply delta_refl | constructor].
  - rewrite fetch_checks_eq in H. cbv zeta in H.
    set (rq := checks_request (self st)) in *.
    set (rp := server (wire st) rq) in *.
    assert (Hg : only_gets [(rq, rp)]) by (repeat constructor).
    exists [(rq, rp)]. split; [|exact Hg].
    destruct rp as [resp|d].
    + destruct (negb (status_code resp =? 200));
        [inversion H; subst; apply delta_exchanged|].
      destruct (loads json_loads (content resp));
        [inversion H; subst; apply delta_exchanged|].
      destruct (checks_of_json p); inversion H; subst.
      * apply delta_exchanged.
      * change [(rq, Reply resp)] with ([(rq, Reply resp)] ++ [])%list.
        change (@nil line) with (@nil line ++ [])%list.
        eapply delta_trans; [apply delta_exchanged | apply delta_with_cache].
    + inversion H; subst. apply delta_exchanged.
Qed.

Lemma match_detail_result tags json matches check ms :
  match_detail tags json matches check = Ok ms ->
  ms = matches \/ ms = (matches ++ [check])%list.
Proof.
  unfold match_detail.
  destruct (Py.getitem json (VStr "check")) as [e|check_detail];
    [discriminate|]. rewrite rbind_Ok.
  destruct (Py.contains (VStr "tags") check_detail) as [e|has_tags];
    [discriminate|]. rewrite rbind_Ok.
  destruct (negb has_tags); [intros H; inversion H; now left|].
  destruct (Py.getitem check_detail (VStr "tags")) as [e|detail_tags];
    [discriminate|]. rewrite rbind_Ok.
  destruct (Py.iter detail_tags) as [e|l]; [discriminate|]. rewrite rbind_Ok.
  destruct (count_tags tags l) as [e|n]; [discriminate|]. rewrite rbind_Ok.
  destruct (Nat.eqb n (List.length tags)); intros H; inversion H; auto.
Qed.

Lemma match_check_effect json_loads repr server tags matches check st r st' :
  match_check json_loads repr server tags matches check st = (r, st') ->
  (exists w, delta st st' w [] /\ only_gets w) /\
  (forall ms, r = Ok ms -> Forall has_id matches -> Forall has_id ms).
Proof.
  unfold match_check. intros H.
  apply bind_inv in H. destruct H as [(id & s1 & H1 & H)|(e & H1 & ->)];
    apply liftR_inv in H1; destruct H1 as [Hid ->].
  2:{ split; [exists []; split; [apply delta_refl | constructor]|].
      intros ms Hms. discriminate. }
  apply bind_inv in H. destruct H as [(resp & s1 & H1 & H)|(e & H1 & ->)];
    apply api_call_effect in H1; destruct H1 as (rq & rp & Hrq & Hrp & -> & Hr).
  2:{ split; [|intros ms Hms; discriminate].
      exists [(rq, rp)]. split; [apply delta_exchanged|].
      subst rq. repeat constructor. }
  assert (Hd : exists w, delta st (exchanged st rq rp) w [] /\ only_gets w).
  { exists [(rq, rp)]. split; [apply delta_exchanged|].
    subst rq. repeat constructor. }
  destruct (negb (status_code resp =? 200)).
  { unfold raise in H. inversion H; subst r st'.
    split; [exact Hd | intros ms Hms; discriminate]. }
  apply bind_inv in H. destruct H as [(json & s1 & H1 & H)|(e & H1 & ->)];
    apply liftR_inv in H1; destruct H1 as [Hj Hs]; subst.
  2:{ split; [exact Hd | intros ms Hms; discriminate]. }
  apply liftR_inv in H. destruct H as [-> ->].
  split; [exact Hd|].
  intros ms Hms Hall.
  apply match_detail_result in Hms. destruct Hms as [->| ->]; [exact Hall|].
  apply Forall_app. split; [exact Hall|].
  constructor; [|constructor]. exists id. symmetry. exact Hid.
Qed.

Lemma only_gets_app w1 w2 :
  only_gets w1 -> only_gets w2 -> only_gets (w1 ++ w2)%list.
Proof. intros H1 H2. apply Forall_app. split; assumption. Qed.

Lemma match_checks_effect json_loads repr server tags found :
  forall matches st r st',
    for_each (match_check json_loads repr server tags) found matches st = (r, st') ->
    (exists w, delta st st' w [] /\ only_gets w) /\
    (forall ms, r = Ok ms -> Forall has_id matches -> Forall has_id ms).
Proof.
  induction found as [|c found IH]; intros matches st r st' H; simpl in H.
  - unfold ret in H. inversion H; subst.
    split; [exists []; split; [apply delta_refl | constructor]|].
    intros ms Hms Hall. inversion Hms; subst. exact Hall.
  - apply bind_inv in H. destruct H as [(ms1 & s1 & H1 & H)|(e & H1 & ->)];
      apply match_check_effect in H1; destruct H1 as [(w1 & Hd1 & Hg1) Hid1].
    + apply IH in H. destruct H as [(w2 & Hd2 & Hg2) Hid2].
      split.
      * exists (w1 ++ w2)%list. split; [|now apply only_gets_app].
        change (@nil line) with (@nil line ++ [])%list.
        eapply delta_trans; eassumption.
      * intros ms Hms Hall. apply (Hid2 ms Hms). now apply Hid1.
    + split; [exists w1; split; assumption|]. intros ms Hms; discriminate.
Qed.

(** the matcher only sends GET requests and prints nothing; asked for a
    non-empty list of tags, it returns checks that have an [id] *)
Lemma find_matching_checks_effect json_loads repr server host tags st r st' :
  find_matching_checks json_loads repr server host tags st = (r, st') ->
  (exists w, delta st st' w [] /\ only_gets w) /\
  (forall t ts ms, tags = Some (t :: ts) -> r = Ok ms -> Forall has_id ms).
Proof.
  unfold find_matching_checks. intros H.
  apply bind_inv in H. destruct H as [(checks & s1 & H1 & H)|(e & H1 & ->)];
    apply get_checks_effect in H1; destruct H1 as (w1 & Hd1 & Hg1).
  2:{ split; [exists w1; split; assumption|]. intros t ts ms _ Hms; discriminate. }
  apply bind_inv in H. destruct H as [(found & s2 & H2 & H)|(e & H2 & ->)];
    apply liftR_inv in H2; destruct H2 as [Hf ->].
  2:{ split; [exists w1; split; assumption|]. intros t ts ms _ Hms; discriminate. }
  destruct found as [|c found].
  { unfold ret in H. inversion H; subst.
    split; [exists w1; split; assumption|].
    intros t ts ms _ Hms. inversion Hms. constructor. }
  destruct tags as [[|t ts]|].
  - unfold ret in H. inversion H; subst.
    split; [exists w1; split; assumption|]. intros t ts ms Ht; discriminate.
  - apply match_checks_effect in H. destruct H as [(w2 & Hd2 & Hg2) Hid].
    split.
    + exists (w1 ++ w2)%list. split; [|now apply only_gets_app].
      change (@nil line) with (@nil line ++ [])%list.
      eapply delta_trans; eassumption.
    + intros t' ts' ms _ Hms. apply (Hid ms Hms). constructor.
  - unfold ret in H. inversion H; subst.
    split; [exists w1; split; assumption|]. intros t ts ms Ht; discriminate.
Qed.

(** ** The update loop *)

Lemma has_id_ids ms : Forall has_id ms -> exists ids, ids_of ms ids.
Proof.
  induction 1 as [|m ms [id Hid] _ [ids IH]].
  - exists []. constructor.
  - exists (id :: ids). constructor; assumption.
Qed.

Lemma request_key p p' m url params :
  api_key p = api_key p' -> request p m url params = request p' m url params.
Proof. unfold request, get_auth_header. now intros ->. Qed.

Lemma del_del k d : Dict.del k (Dict.del k d) = Dict.del k d.
Proof.
  apply DictFacts.del_absent. apply DictFacts.has_false.
  apply DictFacts.get_del_same.
Qed.

(** one round of the loop on a dictionary *)
Lemma update_step repr server host m id d st :
  Py.getitem m (VStr "id") = Ok id ->
  let body := VDict (Dict.del "type" d) in
  let rq := update_request repr (self st) id body in
  let rp := server (wire st) rq in
  (lift (print (Line ("Updating Check: " ++ format repr host))) ;;;
   check_id <- liftR (Py.getitem m (VStr "id")) ;;
   update_check repr server check_id) (VDict d, st)
  = (call_outcome rp,
     (body,
      {| self := self st;
         wire := (wire st ++ [(rq, rp)])%list;
         stdout := (stdout st ++ [updating_line repr host])%list |})).
Proof.
  intros Hid. cbv zeta.
  unfold bind at 1. unfold lift, print. cbn [fst snd]. cbv beta iota zeta.
  unfold bind at 1. unfold liftR at 1. rewrite Hid. unfold Ok.
  cbv beta iota.
  rewrite update_check_dict. reflexivity.
Qed.

Lemma update_loop_spec repr server host :
  forall ms ids, ids_of ms ids ->
  forall d st,
  exists r st' w,
    update_loop repr server host ms (VDict d, st)
    = (r, (VDict (match ms with [] => d | _ => Dict.del "type" d end), st')) /\
    delta st st' w (repeat (updating_line repr host) (List.length w)) /\
    map fst w
    = map (fun id => update_request repr (self st) id (VDict (Dict.del "type" d)))
          (firstn (List.length w) ids) /\
    (List.length w <= List.length ms)%nat /\
    ((r = Ok tt /\ List.length w = List.length ms /\ all_succeeded w = true) \/
     (exists e w0 x,
         r = Err e /\ w = (w0 ++ [x])%list /\
         call_outcome (snd x) = Err e /\ failed (snd x) = true /\
         all_succeeded w0 = true)).
Proof.
  unfold update_loop.
  induction 1 as [|m id ms ids Hid _ IH]; intros d st.
  - exists (Ok tt), st, []. simpl.
    split; [reflexivity|]. split; [apply delta_refl|].
    split; [reflexivity|]. split; [lia|]. left. repeat split; reflexivity.
  - cbn [for_each]. unfold bind at 1.
    cbv beta.
    rewrite (@update_step repr server host m id d st Hid). cbv zeta.
    set (body := VDict (Dict.del "type" d)).
    set (rq := update_request repr (self st) id body).
    set (rp := server (wire st) rq).
    set (st1 := {| self := self st;
                   wire := (wire st ++ [(rq, rp)])%list;
                   stdout := (stdout st ++ [updating_line repr host])%list |}).
    assert (Hd1 : delta st st1 [(rq, rp)] [updating_line repr host])
      by (unfold delta; simpl; repeat split; reflexivity).
    destruct (call_outcome rp) as [e|[]] eqn:Ho.
    + (* this update failed: the loop is left *)
      exists (Err e), st1, [(rq, rp)].
      split; [reflexivity|]. split; [exact Hd1|].
      split; [reflexivity|]. split; [simpl; lia|].
      right. exists e, [], (rq, rp). simpl.
      split; [reflexivity|]. split; [reflexivity|]. split; [exact Ho|].
      split; [|reflexivity].
      destruct (failed rp) eqn:Hf; [reflexivity|].
      apply call_outcome_ok in Hf. rewrite Hf in Ho. discriminate.
    + (* this update succeeded: on to the next match *)
      destruct (IH (Dict.del "type" d) st1) as (r & st' & w & E & Hd & Hrq & Hlen & Hr).
      exists r, st', ((rq, rp) :: w).
      split.
      { unfold body. rewrite E. f_equal. f_equal. f_equal.
        destruct ms; [reflexivity | apply del_del]. }
      split.
      { change ((rq, rp) :: w) with ([(rq, rp)] ++ w)%list.
        change (repeat (updating_line repr host) (List.length ([(rq, rp)] ++ w)%list))
          with ([updating_line repr host]
                  ++ repeat (updating_line repr host) (List.length w))%list.
        eapply delta_trans; eassumption. }
      split.
      { simpl. f_equal. rewrite Hrq, del_del. reflexivity. }
      split; [simpl; lia|].
      assert (Hok : negb (failed rp) = true).
      { apply call_outcome_ok in Ho. now rewrite Ho. }
      destruct Hr as [(-> & Hl & Hs)|(e & w0 & x & -> & -> & Hx & Hf & Hs)].
      * left. split; [reflexivity|]. split; [simpl; lia|].
        unfold all_succeeded. simpl. rewrite Hok. exact Hs.
      * right. exists e, ((rq, rp) :: w0), x.
        split; [reflexivity|]. split; [reflexivity|]. split; [exact Hx|].
        split; [exact Hf|].
        unfold all_succeeded. simpl. rewrite Hok. exact Hs.
Qed.

(** ** The two branches *)

(** what the [if] branch does: one POST, the line that announces it, and the
    warning when the creation failed; the branch never raises *)
Lemma create_branch_eq repr server host check st :
  let rq := create_request (self st) check in
  let rp := server (wire st) rq in
  create_branch repr server host check st
  = (Ok tt,
     {| self := self st;
        wire := (wire st ++ [(rq, rp)])%list;
        stdout := (stdout st ++
                   creating_line repr host ::
                   match call_outcome rp with
                   | inl e => [Line Msg.create_warning; ExnLine e]
                   | inr _ => []
                   end)%list |}).
Proof.
  cbv zeta.
  unfold create_branch, create_check, api_post, api_call, try_except, bind, print,
    create_request, creating_line, raise, ret, exchanged.
  cbn [self wire stdout].
  destruct (server _ _) as [resp|dt]; cbn [call_outcome];
    unfold Ok, Err; cbv beta iota.
  - destruct (negb (status_code resp =? 200)); cbv beta iota;
      cbn [self wire stdout]; rewrite <- ?app_assoc; reflexivity.
  - cbn [self wire stdout]. now rewrite <- !app_assoc.
Qed.

Lemma all_puts repr p body ids (w : exchanges) :
  map fst w = map (fun id => update_request repr p id body) ids ->
  Forall (fun x => rq_method (fst x) = PUT) w.
Proof.
  revert ids. induction w as [|x w IH]; intros ids H; [constructor|].
  destruct ids as [|id ids]; [discriminate|].
  simpl in H. inversion H as [[Hx Hw]].
  constructor; [now rewrite Hx | eapply IH; eassumption].
Qed.

(** what the [else] branch does on a dictionary, given the ids of the
    matches: the loop's updates, and after a failed one the warning and
    [error = True]; the branch never raises *)
Lemma update_branch_spec repr server host ms ids error d st :
  ids_of ms ids ->
  exists error' st' w out,
    with_obj (VDict d) (update_branch repr server host ms error) st
    = ((Ok error',
        VDict (match ms with [] => d | _ => Dict.del "type" d end)), st') /\
    delta st st' w out /\
    map fst w
    = map (fun id => update_request repr (self st) id (VDict (Dict.del "type" d)))
          (firstn (List.length w) ids) /\
    (List.length w <= List.length ms)%nat /\
    ((error' = error /\ List.length w = List.length ms /\
      all_succeeded w = true /\
      out = repeat (updating_line repr host) (List.length w)) \/
     (exists e w0 x,
         error' = true /\ w = (w0 ++ [x])%list /\
         call_outcome (snd x) = Err e /\ failed (snd x) = true /\
         all_succeeded w0 = true /\
         out = (repeat (updating_line repr host) (List.length w)
                  ++ [Line Msg.update_warning; ExnLine e])%list)).
Proof.
  intros Hids.
  destruct (update_loop_spec repr server host Hids d st)
    as (r & st' & w & E & Hd & Hrq & Hlen & Hr).
  unfold with_obj, update_branch, try_except, bind. rewrite E.
  destruct Hr as [(-> & Hl & Hs)|(e & w0 & x & -> & -> & Hx & Hf & Hs)].
  - exists error, st', w, (repeat (updating_line repr host) (List.length w)).
    split; [reflexivity|]. split; [exact Hd|]. split; [exact Hrq|].
    split; [exact Hlen|]. left. repeat split; assumption.
  - unfold Err, lift, print, ret. cbn [fst snd].
    eexists true, _, (w0 ++ [x])%list, _.
    split; [reflexivity|].
    split.
    { destruct Hd as (Hw & Ho & Hk). unfold delta. cbn [wire stdout self].
      split; [exact Hw|]. split; [|exact Hk].
      rewrite Ho, <- !app_assoc. reflexivity. }
    split; [exact Hrq|]. split; [exact Hlen|].
    right. exists e, w0, x. repeat split; assumption.
Qed.

(** ** One declared check *)

Lemma getitem_str_dict v k x :
  Py.getitem v (VStr k) = Ok x -> exists d, v = VDict d.
Proof. destruct v; simpl; try discriminate. intros _. now exists d. Qed.

Lemma resolve_tags_dict repr tag d c :
  resolve_tags repr tag (VDict d) = Ok c -> exists d', c = VDict d'.
Proof.
  unfold resolve_tags.
  destruct (Py.contains (VStr "tags") (VDict d)) as [e|[|]]; try discriminate;
    rewrite rbind_Ok.
  - destruct (Py.getitem (VDict d) (VStr "tags")) as [e|tags]; [discriminate|].
    rewrite rbind_Ok.
    destruct (csv_append repr _ _ tags) as [e|csv]; [discriminate|].
    rewrite rbind_Ok. simpl. intros H. inversion H. eexists; reflexivity.
  - intros H. inversion H. eexists; reflexivity.
Qed.

Lemma resolve_ids_dict repr field table d c :
  resolve_ids repr field table (VDict d) = Ok c -> exists d', c = VDict d'.
Proof.
  unfold resolve_ids.
  destruct (Py.contains (VStr field) (VDict d)) as [e|[|]]; try discriminate;
    rewrite rbind_Ok.
  - destruct (Py.getitem (VDict d) (VStr field)) as [e|names]; [discriminate|].
    rewrite rbind_Ok.
    destruct (csv_append repr _ _ names) as [e|csv]; [discriminate|].
    rewrite rbind_Ok. simpl. intros H. inversion H. eexists; reflexivity.
  - intros H. inversion H. eexists; reflexivity.
Qed.

Lemma resolve_dict repr tag teams integrations d c :
  resolve repr tag teams integrations (VDict d) = Ok c -> exists d', c = VDict d'.
Proof.
  unfold resolve.
  destruct (resolve_tags repr tag (VDict d)) as [e|c1] eqn:H1; [discriminate|].
  rewrite rbind_Ok. apply resolve_tags_dict in H1. destruct H1 as [d1 ->].
  destruct (resolve_ids repr "teamids" teams (VDict d1)) as [e|c2] eqn:H2;
    [discriminate|].
  rewrite rbind_Ok. apply resolve_ids_dict in H2. destruct H2 as [d2 ->].
  apply resolve_ids_dict.
Qed.

(** *** Counting warnings and failures *)

Lemma count_lines_app s o1 o2 :
  count_lines s (o1 ++ o2)%list = (count_lines s o1 + count_lines s o2)%nat.
Proof. unfold count_lines. now rewrite filter_app, length_app. Qed.

Lemma accounted_nil : accounted [] [].
Proof. split; reflexivity. Qed.

Lemma accounted_app w1 w2 o1 o2 :
  accounted w1 o1 -> accounted w2 o2 -> accounted (w1 ++ w2)%list (o1 ++ o2)%list.
Proof.
  intros [Hc1 Hu1] [Hc2 Hu2]. unfold accounted.
  rewrite !count_lines_app, !filter_app, !length_app. lia.
Qed.

Lemma gets_no_failure w :
  only_gets w -> filter failed_create w = [] /\ filter failed_update w = [].
Proof.
  induction 1 as [|x w Hx _ [IH1 IH2]]; [split; reflexivity|].
  simpl. unfold failed_create at 1, failed_update at 1. rewrite Hx. simpl.
  split; assumption.
Qed.

Lemma accounted_gets w : only_gets w -> accounted w [].
Proof.
  intros H. destruct (gets_no_failure H) as [H1 H2].
  unfold accounted. now rewrite H1, H2.
Qed.

Lemma puts_no_failed_create w :
  Forall (fun x => rq_method (fst x) = PUT) w -> filter failed_create w = [].
Proof.
  induction 1 as [|x w Hx _ IH]; [reflexivity|].
  simpl. unfold failed_create at 1. rewrite Hx. simpl. exact IH.
Qed.

Lemma succeeded_no_failed_update w :
  all_succeeded w = true -> filter failed_update w = [].
Proof.
  unfold all_succeeded. induction w as [|x w IH]; [reflexivity|]. simpl.
  intros H. apply andb_prop in H. destruct H as [Hx Hw].
  unfold failed_update at 1. apply negb_true_iff in Hx. rewrite Hx.
  rewrite andb_false_r. now apply IH.
Qed.

Lemma existsb_filter A (f : A -> bool) l :
  existsb f l = negb (Nat.eqb (List.length (filter f l)) 0).
Proof.
  induction l as [|x l IH]; [reflexivity|]. simpl.
  destruct (f x); simpl; [reflexivity | exact IH].
Qed.

Lemma updating_lines_no_warning repr host n :
  count_lines Msg.create_warning (repeat (updating_line repr host) n) = 0%nat /\
  count_lines Msg.update_warning (repeat (updating_line repr host) n) = 0%nat.
Proof.
  induction n as [|n [IH1 IH2]]; [split; reflexivity|].
  split; unfold count_lines in *; simpl; assumption.
Qed.

(** the update branch: its exchanges are updates, at most the last failed,
    and the warning is printed exactly then *)
Lemma update_branch_effect repr server host ms error d st r' st' :
  Forall has_id ms ->
  with_obj (VDict d) (update_branch repr server host ms error) st = (r', st') ->
  exists w out error',
    fst r' = Ok error' /\
    delta st st' w out /\ accounted w out /\
    error' = error || existsb failed_update w.
Proof.
  intros Hid H. destruct (has_id_ids Hid) as [ids Hids].
  destruct (update_branch_spec repr server host error d st Hids)
    as (error' & st1 & w & out & E & Hd & Hrq & Hlen & Hr).
  rewrite E in H. inversion H; subst r' st'. clear H.
  exists w, out, error'. split; [reflexivity|]. split; [exact Hd|].
  pose proof (all_puts _ _ _ _ _ Hrq) as Hputs.
  pose proof (puts_no_failed_create Hputs) as Hnc.
  destruct (updating_lines_no_warning repr host (List.length w)) as [Hl1 Hl2].
  destruct Hr as [(-> & _ & Hs & ->)|(e & w0 & x & -> & -> & Hx & Hf & Hs & ->)].
  - pose proof (succeeded_no_failed_update _ Hs) as Hnu.
    split.
    + unfold accounted. now rewrite Hl1, Hl2, Hnc, Hnu.
    + rewrite existsb_filter, Hnu. simpl. now rewrite orb_false_r.
  - assert (Hx' : failed_update x = true).
    { unfold failed_update. rewrite Hf, andb_true_r.
      apply Forall_app in Hputs. destruct Hputs as [_ Hp].
      inversion Hp as [|? ? Hm _]; subst. now rewrite Hm. }
    assert (Hfu : filter failed_update (w0 ++ [x])%list = [x]).
    { rewrite filter_app, (succeeded_no_failed_update _ Hs). simpl.
      now rewrite Hx'. }
    split.
    + unfold accounted. rewrite !count_lines_app, Hl1, Hl2, Hnc, Hfu.
      split; reflexivity.
    + rewrite existsb_filter, Hfu. simpl. now rewrite orb_true_r.
Qed.

(** the create branch: one creation, its warning when it failed *)
Lemma create_branch_effect repr server host check st r st' :
  create_branch repr server host check st = (r, st') ->
  r = Ok tt /\ exists w out, delta st st' w out /\ accounted w out /\
                             existsb failed_update w = false.
Proof.
  rewrite create_branch_eq. cbv zeta.
  set (rq := create_request (self st) check).
  set (rp := server (wire st) rq).
  intros H. inversion H; subst r st'. clear H. split; [reflexivity|].
  eexists [(rq, rp)], _.
  split; [unfold delta; cbn [self wire stdout]; repeat split; reflexivity|].
  split; [|reflexivity].
  unfold accounted, count_lines, failed_create, failed_update. simpl.
  destruct (call_outcome rp) as [e|[]] eqn:Ho.
  - destruct (failed rp) eqn:Hf.
    + split; reflexivity.
    + apply call_outcome_ok in Hf. rewrite Hf in Ho. discriminate.
  - apply call_outcome_ok in Ho. rewrite Ho. split; reflexivity.
Qed.

Lemma process_check_effect json_loads repr server tag teams integrations default
      error check st r st' :
  process_check json_loads repr server tag teams integrations default error check st
  = (r, st') ->
  exists w out,
    delta st st' w out /\ accounted w out /\
    (forall error', r = Ok error' -> error' = error || existsb failed_update w).
Proof.
  unfold process_check. intros H.
  apply bind_inv in H. destruct H as [(c1 & s1 & H1 & H)|(e & H1 & ->)];
    apply liftR_inv in H1; destruct H1 as [Hp ->].
  2:{ exists [], []. split; [apply delta_refl|]. split; [apply accounted_nil|].
      intros error' He; discriminate. }
  apply bind_inv in H. destruct H as [(host & s1 & H1 & H)|(e & H1 & ->)];
    apply liftR_inv in H1; destruct H1 as [Hh ->].
  2:{ exists [], []. split; [apply delta_refl|]. split; [apply accounted_nil|].
      intros error' He; discriminate. }
  symmetry in Hh. destruct (getitem_str_dict _ _ Hh) as [d1 ->].
  apply bind_inv in H. destruct H as [(c2 & s1 & H1 & H)|(e & H1 & ->)];
    apply liftR_inv in H1; destruct H1 as [Hr ->].
  2:{ exists [], []. split; [apply delta_refl|]. split; [apply accounted_nil|].
      intros error' He; discriminate. }
  symmetry in Hr. destruct (resolve_dict _ _ _ _ _ Hr) as [d2 ->].
  apply bind_inv in H. destruct H as [(ms & s1 & H1 & H)|(e & H1 & ->)];
    apply find_matching_checks_effect in H1;
    destruct H1 as [(w1 & Hd1 & Hg1) Hid].
  2:{ exists w1, []. split; [exact Hd1|]. split; [now apply accounted_gets|].
      intros error' He; discriminate. }
  destruct (gets_no_failure Hg1) as [_ Hnu1].
  destruct ms as [|m ms].
  - apply bind_inv in H. destruct H as [(u & s2 & H2 & H)|(e & H2 & ->)];
      apply create_branch_effect in H2;
      destruct H2 as [Hok (w2 & out & Hd2 & Ha2 & Hnu2)]; [|discriminate].
    unfold ret in H. inversion H; subst r st'. clear H.
    exists (w1 ++ w2)%list, ([] ++ out)%list.
    split; [eapply delta_trans; eassumption|].
    split; [apply accounted_app; [now apply accounted_gets | exact Ha2]|].
    intros error' He. inversion He; subst.
    rewrite existsb_app, Hnu2, existsb_filter, Hnu1. simpl.
    now rewrite orb_false_r.
  - destruct (with_obj (VDict d2)
                (update_branch repr server host (m :: ms) error) s1)
      as [[r2 o2] s2] eqn:E.
    inversion H; subst r st'. clear H.
    assert (Hids : Forall has_id (m :: ms)) by (eapply Hid; reflexivity).
    destruct (update_branch_effect repr server host error d2 s1 Hids E)
      as (w2 & out & error2 & Hr2 & Hd2 & Ha2 & He2).
    exists (w1 ++ w2)%list, ([] ++ out)%list.
    split; [eapply delta_trans; eassumption|].
    split; [apply accounted_app; [now apply accounted_gets | exact Ha2]|].
    intros error' He. simpl in Hr2. rewrite Hr2 in He. inversion He; subst.
    rewrite existsb_app. rewrite (existsb_filter _ w1), Hnu1. reflexivity.
Qed.

(** ** What can be raised *)

(** The built-in operations and the client methods raise their own
    exceptions, never an [Exception] with a message string; the only such
    [raise] of [process_configuration_yaml] is the last line. *)

Lemma no_plain_ok A (a : A) : no_plain (Ok a).
Proof. intros e H. discriminate. Qed.

Lemma no_plain_rbind A B (r : result A) (k : A -> result B) :
  no_plain r -> (forall a, no_plain (k a)) -> no_plain (rbind r k).
Proof.
  intros Hr Hk. destruct r as [e|a]; simpl; [|apply Hk].
  intros e' H. inversion H; subst. now apply Hr.
Qed.

Lemma no_plain_rfor_each A X (body : A -> X -> result A) l :
  (forall a x, no_plain (body a x)) -> forall a, no_plain (rfor_each body l a).
Proof.
  intros Hb. induction l as [|x l IH]; intros a; simpl.
  - apply no_plain_ok.
  - apply no_plain_rbind; [apply Hb | exact IH].
Qed.

Ltac no_plain_cases :=
  intros e H;
  repeat match type of H with
         | context [match ?x with _ => _ end] => destruct x
         end;
  inversion H; reflexivity.

Lemma no_plain_contains x v : no_plain (Py.contains x v).
Proof. unfold Py.contains. no_plain_cases. Qed.

Lemma no_plain_getitem v i : no_plain (Py.getitem v i).
Proof. unfold Py.getitem. no_plain_cases. Qed.

Lemma no_plain_setitem v k x : no_plain (Py.setitem v k x).
Proof. unfold Py.setitem. no_plain_cases. Qed.

Lemma no_plain_iter v : no_plain (Py.iter v).
Proof. unfold Py.iter. no_plain_cases. Qed.

Lemma no_plain_items v : no_plain (Py.items v).
Proof. unfold Py.items. no_plain_cases. Qed.

Create HintDb no_plain.

#[local] Hint Resolve no_plain_ok no_plain_contains no_plain_getitem
  no_plain_setitem no_plain_iter no_plain_items : no_plain.

Ltac no_plain_steps :=
  repeat first
    [ apply no_plain_rbind; [|intros ?]
    | apply no_plain_rfor_each; intros ? ?
    | solve [auto with no_plain]
    | match goal with
      | |- no_plain (if ?b then _ else _) => destruct b
      | |- no_plain (match ?x with _ => _ end) => destruct x
      end ].

Lemma no_plain_populate_defaults default check :
  no_plain (populate_defaults default check).
Proof. unfold populate_defaults. no_plain_steps. Qed.

Lemma no_plain_csv_append repr conv start v :
  (forall x, no_plain (conv x)) -> no_plain (csv_append repr conv start v).
Proof. intros Hc. unfold csv_append. no_plain_steps. Qed.

Lemma no_plain_resolve repr tag teams integrations check :
  no_plain (resolve repr tag teams integrations check).
Proof.
  unfold resolve, resolve_tags, resolve_ids.
  no_plain_steps; apply no_plain_csv_append; intros; auto with no_plain.
Qed.

Lemma no_plain_host_candidates host checks : no_plain (host_candidates host checks).
Proof. unfold host_candidates, host_field. no_plain_steps. Qed.

Lemma no_plain_match_detail tags json matches check :
  no_plain (match_detail tags json matches check).
Proof. unfold match_detail, count_tags. no_plain_steps. Qed.

Lemma no_plain_checks_of_json json : no_plain (checks_of_json json).
Proof. unfold checks_of_json. no_plain_steps. Qed.

Lemma no_plain_loads json_loads body : no_plain (loads json_loads body).
Proof. unfold loads. destruct (json_loads body); intros e H; inversion H; reflexivity. Qed.

#[local] Hint Resolve no_plain_populate_defaults no_plain_resolve
  no_plain_host_candidates no_plain_match_detail no_plain_checks_of_json
  no_plain_loads : no_plain.

Lemma m_no_plain_ret S A (a : A) : m_no_plain (@ret S A a).
Proof. intros s e H. discriminate. Qed.

Lemma m_no_plain_liftR S A (r : result A) : no_plain r -> m_no_plain (@liftR S A r).
Proof. intros Hr s. exact Hr. Qed.

Lemma m_no_plain_bind S A B (m : M S A) (k : A -> M S B) :
  m_no_plain m -> (forall a, m_no_plain (k a)) -> m_no_plain (bind m k).
Proof.
  intros Hm Hk s. unfold bind. specialize (Hm s).
  destruct (m s) as [[e|a] s1]; [|apply Hk].
  intros e' H. inversion H; subst. now apply Hm.
Qed.

Lemma m_no_plain_for_each S A X (body : A -> X -> M S A) l :
  (forall a x, m_no_plain (body a x)) -> forall a, m_no_plain (for_each body l a).
Proof.
  intros Hb. induction l as [|x l IH]; intros a; simpl.
  - apply m_no_plain_ret.
  - apply m_no_plain_bind; [apply Hb | exact IH].
Qed.

Lemma m_no_plain_raise S A e : plain e = false -> m_no_plain (@raise S A e).
Proof. intros He s e' H. inversion H; subst. exact He. Qed.

Lemma m_no_plain_api_call server m url params :
  m_no_plain (api_call server m url params).
Proof.
  intros s. unfold api_call. destruct (server _ _); intros e H; inversion H.
  reflexivity.
Qed.

Ltac m_no_plain_steps :=
  repeat first
    [ apply m_no_plain_bind; [|intros ?]
    | apply m_no_plain_for_each; intros ? ?
    | apply m_no_plain_ret
    | apply m_no_plain_api_call
    | apply m_no_plain_raise; reflexivity
    | apply m_no_plain_liftR; solve [auto with no_plain]
    | match goal with
      | |- m_no_plain (if ?b then _ else _) => destruct b
      | |- m_no_plain (match ?x with _ => _ end) => destruct x
      end ].

Lemma m_no_plain_get_checks json_loads server cache :
  m_no_plain (get_checks json_loads server cache).
Proof.
  unfold get_checks, fetch_checks, get_cache, set_cache, api_get.
  m_no_plain_steps; intros s e H; discriminate.
Qed.

Lemma m_no_plain_find_matching_checks json_loads repr server host tags :
  m_no_plain (find_matching_checks json_loads repr server host tags).
Proof.
  unfold find_matching_checks.
  apply m_no_plain_bind; [apply m_no_plain_get_checks | intros checks].
  unfold match_check, api_get. m_no_plain_steps.
Qed.

Lemma m_no_plain_process_check json_loads repr server tag teams integrations
      default error check :
  m_no_plain (process_check json_loads repr server tag teams integrations default
                            error check).
Proof.
  unfold process_check.
  apply m_no_plain_bind; [apply m_no_plain_liftR; auto with no_plain | intros c1].
  apply m_no_plain_bind; [apply m_no_plain_liftR; auto with no_plain | intros host].
  apply m_no_plain_bind; [apply m_no_plain_liftR; auto with no_plain | intros c2].
  apply m_no_plain_bind; [apply m_no_plain_find_matching_checks | intros ms].
  destruct ms as [|m ms].
  - intros s. unfold bind.
    destruct (create_branch repr server host c2 s) as [r s1] eqn:E.
    apply create_branch_effect in E. destruct E as [-> _].
    intros e H. discriminate.
  - intros s.
    destruct (with_obj c2 (update_branch repr server host (m :: ms) error) s)
      as [[r o] s1] eqn:E.
    simpl. intros e H. subst r.
    unfold with_obj, update_branch, try_except, bind, lift, print, ret in E.
    destruct (update_loop repr server host (m :: ms) (c2, s)) as [[e'|[]] [o' s']];
      simpl in E; inversion E.
Qed.

(** ** The run *)

Lemma process_loop_effect json_loads repr server tag teams integrations default
      checks :
  forall error st r st',
    for_each (process_check json_loads repr server tag teams integrations default)
             checks error st = (r, st') ->
    exists w out,
      delta st st' w out /\ accounted w out /\
      (forall error', r = Ok error' -> error' = error || existsb failed_update w).
Proof.
  induction checks as [|check checks IH]; intros error st r st' H; simpl in H.
  - unfold ret in H. inversion H; subst.
    exists [], []. split; [apply delta_refl|]. split; [apply accounted_nil|].
    intros error' He. inversion He. now rewrite orb_false_r.
  - apply bind_inv in H. destruct H as [(e1 & s1 & H1 & H)|(e & H1 & ->)];
      apply process_check_effect in H1; destruct H1 as (w1 & o1 & Hd1 & Ha1 & He1).
    + apply IH in H. destruct H as (w2 & o2 & Hd2 & Ha2 & He2).
      exists (w1 ++ w2)%list, (o1 ++ o2)%list.
      split; [eapply delta_trans; eassumption|].
      split; [now apply accounted_app|].
      intros error' He. rewrite (He2 _ He), (He1 _ eq_refl), existsb_app.
      now rewrite orb_assoc.
    + exists w1, o1. split; [exact Hd1|]. split; [exact Ha1|].
      intros error' He; discriminate.
Qed.

Lemma no_plain_process_header configuration :
  no_plain (process_header configuration).
Proof. unfold process_header. no_plain_steps. Qed.

(** C3, as stated, fails: an update fails for [example.com], then the
    detail request of the lookup for [other.org] is refused; the run ends
    with the exception of that lookup, and the final error is not raised
    although an update failed. *)
Lemma final_error_iff_update_failed_counterexample :
  let run :=
    process_configuration_yaml Sample.json_loads Sample.repr detail_refused
      (Sample.document [Sample.declared "site" "example.com";
                        Sample.declared "other" "other.org"]) Sample.st0 in
  existsb failed_update (wire (snd run)) = true /\
  fst run = Err (ExceptionBytes "detail refused") /\
  fst run <> Err (Exception Msg.update_errors).
Proof.
  cbv zeta. split; [vm_compute; reflexivity|].
  split; [vm_compute; reflexivity|].
  vm_compute. discriminate.
Qed.

(** C3, amended.  A failed creation is logged as a warning and leaves the
    error flag alone; a failed update sets it: after a round of the loop the
    flag is set exactly when it was set before or an update of the round
    failed.  Whatever a run of [process_configuration_yaml] does, the
    warnings printed are one per failed creation and one per failed update;
    a run that raises the final error had a failed update, and a run with a
    failed update does not return normally.  When the loop over the
    declared checks gets to its end, the run raises the final error if and
    only if an update failed, and returns otherwise.  When a round raises (a
    failed listing or detail request, a malformed value), the run ends with
    that exception, which is never the final error, whether an update
    failed before or not. *)
Theorem update_failures_decide_outcome json_loads repr server :
  (forall tag teams integrations default error check st error' st',
      process_check json_loads repr server tag teams integrations default
                    error check st = (Ok error', st') ->
      exists w out,
        wire st' = (wire st ++ w)%list /\
        stdout st' = (stdout st ++ out)%list /\
        count_lines Msg.create_warning out = List.length (filter failed_create w) /\
        count_lines Msg.update_warning out = List.length (filter failed_update w) /\
        error' = error || existsb failed_update w) /\
  (forall configuration st r st',
      process_configuration_yaml json_loads repr server configuration st
      = (r, st') ->
      exists w out,
        wire st' = (wire st ++ w)%list /\
        stdout st' = (stdout st ++ out)%list /\
        count_lines Msg.create_warning out = List.length (filter failed_create w) /\
        count_lines Msg.update_warning out = List.length (filter failed_update w) /\
        (r = Err (Exception Msg.update_errors) -> existsb failed_update w = true) /\
        (existsb failed_update w = true -> exists e, r = Err e) /\
        ((r = Ok tt /\ existsb failed_update w = false) \/
         (r = Err (Exception Msg.update_errors) /\
          existsb failed_update w = true) \/
         (exists e, r = Err e /\ plain e = false))) /\
  (forall configuration tag teams integrations default checks st error s1,
      process_header configuration
      = Ok (tag, teams, integrations, default, checks) ->
      for_each (process_check json_loads repr server tag teams integrations
                              default) checks false st = (Ok error, s1) ->
      exists w,
        wire s1 = (wire st ++ w)%list /\
        error = existsb failed_update w /\
        process_configuration_yaml json_loads repr server configuration st
        = (if existsb failed_update w
           then Err (Exception Msg.update_errors) else Ok tt, s1)) /\
  (forall configuration tag teams integrations default checks st e s1,
      process_header configuration
      = Ok (tag, teams, integrations, default, checks) ->
      for_each (process_check json_loads repr server tag teams integrations
                              default) checks false st = (Err e, s1) ->
      process_configuration_yaml json_loads repr server configuration st
      = (Err e, s1) /\
      plain e = false /\ e <> Exception Msg.update_errors).
Proof.
  assert (HB : forall configuration st r st',
             process_configuration_yaml json_loads repr server configuration st
             = (r, st') ->
             exists w out,
               wire st' = (wire st ++ w)%list /\
               stdout st' = (stdout st ++ out)%list /\
               count_lines Msg.create_warning out
               = List.length (filter failed_create w) /\
               count_lines Msg.update_warning out
               = List.length (filter failed_update w) /\
               ((r = Ok tt /\ existsb failed_update w = false) \/
                (r = Err (Exception Msg.update_errors) /\
                 existsb failed_update w = true) \/
                (exists e, r = Err e /\ plain e = false))).
  { intros configuration st r st'.
    unfold process_configuration_yaml. intros H.
    apply bind_inv in H. destruct H as [(hd & s1 & H1 & H)|(e & H1 & ->)];
      apply liftR_inv in H1; destruct H1 as [Hh ->].
    2:{ exists [], []. rewrite !app_nil_r.
        repeat (split; [reflexivity|]).
        right. right. exists e. split; [reflexivity|].
        symmetry in Hh. now apply (no_plain_process_header configuration). }
    destruct hd as [[[[tag teams] integrations] default] checks].
    unfold process_checks in H.
    apply bind_inv in H. destruct H as [(error & s1 & H1 & H)|(e & H1 & ->)].
    - apply process_loop_effect in H1.
      destruct H1 as (w & out & (Hw & Ho & _) & [Hc Hu] & He).
      specialize (He error eq_refl). simpl in He.
      exists w, out.
      destruct error; unfold raise, ret in H; inversion H; subst;
        repeat (split; [assumption|]).
      + right. left. split; [reflexivity | now symmetry].
      + left. split; [reflexivity | now symmetry].
    - pose proof (@m_no_plain_for_each St bool pyval _ checks
                    (m_no_plain_process_check json_loads repr server tag teams
                                              integrations default)
                    false st) as Hnp.
      rewrite H1 in Hnp.
      apply process_loop_effect in H1.
      destruct H1 as (w & out & (Hw & Ho & _) & [Hc Hu] & _).
      exists w, out. repeat (split; [assumption|]).
      right. right. exists e. split; [reflexivity|]. now apply Hnp. }
  split.
  { intros tag teams integrations default error check st error' st' H.
    apply process_check_effect in H.
    destruct H as (w & out & (Hw & Ho & _) & [Hc Hu] & He).
    exists w, out. repeat (split; [assumption|]). now apply He. }
  split.
  { intros configuration st r st' H.
    destruct (HB _ _ _ _ H) as (w & out & Hw & Ho & Hc & Hu & Hr).
    exists w, out. repeat (split; [assumption|]).
    split; [|split; [|exact Hr]].
    - intros ->. destruct Hr as [[E _]|[[_ Hf]|(e & E & Hp)]];
        [discriminate | exact Hf |].
      inversion E; subst e. discriminate Hp.
    - intros Hf. destruct Hr as [[_ Hn]|[[E _]|(e & E & _)]];
        [congruence | eexists; exact E | eexists; exact E]. }
  split.
  { intros configuration tag teams integrations default checks st error s1 Hh Hl.
    pose proof Hl as Hl'. apply process_loop_effect in Hl'.
    destruct Hl' as (w & out & (Hw & _ & _) & _ & He).
    specialize (He error eq_refl). simpl in He.
    exists w. split; [exact Hw|]. split; [exact He|].
    unfold process_configuration_yaml, process_checks.
    unfold bind at 1, liftR at 1. rewrite Hh. unfold Ok at 1. cbv beta iota.
    unfold bind at 1. rewrite Hl. unfold Ok at 1. cbv beta iota.
    rewrite <- He. now destruct error. }
  intros configuration tag teams integrations default checks st e s1 Hh Hl.
  assert (Hp : plain e = false).
  { pose proof (@m_no_plain_for_each St bool pyval _ checks
                  (m_no_plain_process_check json_loads repr server tag teams
                                            integrations default)
                  false st) as Hnp.
    rewrite Hl in Hnp. now apply Hnp. }
  split; [|split; [exact Hp | intros ->; discriminate Hp]].
  unfold process_configuration_yaml, process_checks.
  unfold bind at 1, liftR at 1. rewrite Hh. unfold Ok at 1. cbv beta iota.
  unfold bind at 1. rewrite Hl. reflexivity.
Qed.

(** Creating [new.io] fails and the run returns; updating check 1 for
    [example.com] fails and the run raises the final error. *)
Lemma update_failures_decide_outcome_witness :
  let created :=
    process_configuration_yaml Sample.json_loads Sample.repr Sample.server
      (Sample.document [Sample.declared "fresh" "new.io"]) Sample.st0 in
  let updated :=
    process_configuration_yaml Sample.json_loads Sample.repr Sample.server
      (Sample.document [Sample.declared "site" "example.com"]) Sample.st0 in
  (fst created = Ok tt /\
   List.length (filter failed_create (wire (snd created))) = 1%nat /\
   existsb failed_update (wire (snd created)) = false /\
   count_lines Msg.create_warning (stdout (snd created)) = 1%nat) /\
  (fst updated = Err (Exception Msg.update_errors) /\
   existsb failed_update (wire (snd updated)) = true).
Proof.
  cbv zeta.
  destruct (update_failures_decide_outcome
              Sample.json_loads Sample.repr Sample.server) as (_ & HB & _).
  split.
  - destruct (HB (Sample.document [Sample.declared "fresh" "new.io"]) Sample.st0
                 _ _ (surjective_pairing _))
      as (w & out & Hw & Ho & Hc & _ & _ & _ & Hr).
    change (wire Sample.st0 ++ w)%list with w in Hw.
    change (stdout Sample.st0 ++ out)%list with out in Ho.
    subst w out.
    destruct Hr as [[E Hn]|[[E _]|(e & E & Hp)]].
    + split; [exact E|].
      split; [rewrite <- Hc; vm_compute; reflexivity|].
      split; [exact Hn | vm_compute; reflexivity].
    + exfalso. revert E. vm_compute. discriminate.
    + exfalso. revert E. vm_compute. discriminate.
  - destruct (HB (Sample.document [Sample.declared "site" "example.com"])
                 Sample.st0 _ _ (surjective_pairing _))
      as (w & out & Hw & _ & _ & _ & _ & _ & Hr).
    change (wire Sample.st0 ++ w)%list with w in Hw.
    subst w.
    destruct Hr as [[E _]|[[E Hu]|(e & E & Hp)]].
    + exfalso. revert E. vm_compute. discriminate.
    + split; [exact E | exact Hu].
    + exfalso. revert E Hp. vm_compute. intros E. inversion E. discriminate.
Defined.

(** ** A failed update and the matches after it *)

(** C1, as stated, fails: the declared check for [example.com] under tag [t]
    has the two matches [c1] and [c2]; the update of [c1] fails, and no
    update of [c2] is ever sent. *)
Lemma update_failure_reaches_remaining_matches_counterexample :
  let cfg := Sample.document [Sample.declared "site" "example.com"] in
  let st' := snd (main Sample.json_loads Sample.repr Sample.server cfg Sample.st0) in
  fst (find_matching_checks Sample.json_loads Sample.repr Sample.server
                            (VStr "example.com") (Some [VStr "t"]) Sample.st0)
  = Ok [Sample.c1; Sample.c2] /\
  update_attempted Sample.repr (wire st') Sample.c1 /\
  existsb failed_update (wire st') = true /\
  ~ (forall m, In m [Sample.c1; Sample.c2] ->
               update_attempted Sample.repr (wire st') m).
Proof.
  cbv zeta. split; [vm_compute; reflexivity|].
  split.
  { eexists _, (VInt 1). split; [|split; [reflexivity|]].
    - vm_compute. do 3 right. left. reflexivity.
    - split; reflexivity. }
  split; [vm_compute; reflexivity|].
  intros H.
  destruct (H Sample.c2 (or_intror (or_introl eq_refl)))
    as (x & id & Hin & Hid & Hm & Hu).
  vm_compute in Hid. inversion Hid; subst id. clear Hid H.
  vm_compute in Hin.
  repeat (destruct Hin as [<-|Hin];
          [first [ vm_compute in Hm; discriminate
                 | vm_compute in Hu; discriminate ]|]).
  exact Hin.
Qed.

(** C1, amended.  When an update fails for a declared check, the error flag
    is set, the matches after the failed one are not attempted, and the run
    goes on with the next declared check; a run that ends with the flag set
    raises the final error.  In detail: the update branch sends the updates
    of the matches in order, stops after the first that fails, never raises,
    and returns the flag, set if an update failed; the check's round of the
    loop then returns normally and the loop continues with the remaining
    declared checks; a flag that is set stays set; and the loop ending with
    the flag set makes the run raise. *)
Theorem update_failure_skips_rest_of_check json_loads repr server
        tag teams integrations default :
  (forall host ms ids error d st,
      ids_of ms ids ->
      exists error' st' w out,
        with_obj (VDict d) (update_branch repr server host ms error) st
        = ((Ok error', VDict (match ms with [] => d | _ => Dict.del "type" d end)),
           st') /\
        wire st' = (wire st ++ w)%list /\
        stdout st' = (stdout st ++ out)%list /\
        map fst w
        = map (fun id =>
                 update_request repr (self st) id (VDict (Dict.del "type" d)))
              (firstn (List.length w) ids) /\
        (List.length w <= List.length ms)%nat /\
        ((error' = error /\ List.length w = List.length ms /\
          all_succeeded w = true) \/
         (error' = true /\
          exists e w0 x,
            w = (w0 ++ [x])%list /\ failed (snd x) = true /\
            all_succeeded w0 = true /\
            out = (repeat (updating_line repr host) (List.length w)
                     ++ [Line Msg.update_warning; ExnLine e])%list))) /\
  (forall error check st c1 host d2 m ms st1,
      populate_defaults default check = Ok c1 ->
      Py.getitem c1 (VStr "host") = Ok host ->
      resolve repr tag teams integrations c1 = Ok (VDict d2) ->
      find_matching_checks json_loads repr server host (Some [tag]) st
      = (Ok (m :: ms), st1) ->
      exists error' o st2,
        with_obj (VDict d2) (update_branch repr server host (m :: ms) error) st1
        = ((Ok error', o), st2) /\
        process_check json_loads repr server tag teams integrations default
                      error check st = (Ok error', st2) /\
        forall checks,
          for_each (process_check json_loads repr server tag teams integrations
                                  default) (check :: checks) error st
          = for_each (process_check json_loads repr server tag teams integrations
                                    default) checks error' st2) /\
  (forall checks st error' st',
      for_each (process_check json_loads repr server tag teams integrations default)
               checks true st = (Ok error', st') ->
      error' = true) /\
  (forall checks st st',
      for_each (process_check json_loads repr server tag teams integrations default)
               checks false st = (Ok true, st') ->
      process_checks json_loads repr server tag teams integrations default checks st
      = (Err (Exception Msg.update_errors), st')).
Proof.
  split.
  { intros host ms ids error d st Hids.
    destruct (update_branch_spec repr server host error d st Hids)
      as (error' & st' & w & out & E & (Hw & Ho & _) & Hrq & Hlen & Hr).
    exists error', st', w, out.
    split; [exact E|]. split; [exact Hw|]. split; [exact Ho|].
    split; [exact Hrq|]. split; [exact Hlen|].
    destruct Hr as [(He & Hl & Hs & _)|(e & w0 & x & He & Hx & _ & Hf & Hs & Hout)].
    - left. repeat split; assumption.
    - right. split; [exact He|]. exists e, w0, x. repeat split; assumption. }
  split.
  { intros error check st c1 host d2 m ms st1 Hp Hh Hr Hm.
    pose proof (find_matching_checks_effect _ _ _ _ _ _ Hm) as [_ Hid].
    specialize (Hid tag [] (m :: ms) eq_refl eq_refl).
    destruct (has_id_ids Hid) as [ids Hids].
    destruct (update_branch_spec repr server host error d2 st1 Hids)
      as (error' & st2 & w & out & E & _).
    assert (Hpc : process_check json_loads repr server tag teams integrations
                                default error check st = (Ok error', st2)).
    { unfold process_check, bind, liftR. rewrite Hp. unfold Ok at 1.
      cbv beta iota. rewrite Hh. unfold Ok at 1. cbv beta iota.
      rewrite Hr. unfold Ok at 1. cbv beta iota.
      rewrite Hm. unfold Ok at 1. cbv beta iota.
      rewrite E. reflexivity. }
    eexists error', _, st2. split; [exact E|]. split; [exact Hpc|].
    intros checks. cbn [for_each]. unfold bind at 1. now rewrite Hpc. }
  split.
  { intros checks st error' st' H.
    apply process_loop_effect in H. destruct H as (w & out & _ & _ & He).
    now rewrite (He error' eq_refl). }
  intros checks st st' H. unfold process_checks, bind. rewrite H. reflexivity.
Qed.

(** On the sample service the update of check 1 fails: of the two matches
    only the first is attempted, and the flag comes back set. *)
Lemma update_failure_skips_rest_of_check_witness :
  let d := [("name", VStr "site"); ("host", VStr "example.com")] in
  exists st' w out,
    with_obj (VDict d)
             (update_branch Sample.repr Sample.server (VStr "example.com")
                            [Sample.c1; Sample.c2] false) Sample.st0
    = ((Ok true, VDict d), st') /\
    wire st' = w /\ stdout st' = out /\
    map (fun x => rq_url (fst x)) w = [Sample.url "/checks/1"] /\
    List.length w = 1%nat.
Proof.
  cbv zeta.
  destruct (update_failure_skips_rest_of_check
              Sample.json_loads Sample.repr Sample.server
              (VStr "t") (VDict []) (VDict []) VNone) as (H & _).
  destruct (H (VStr "example.com") [Sample.c1; Sample.c2] [VInt 1; VInt 2] false
              [("name", VStr "site"); ("host", VStr "example.com")] Sample.st0)
    as (error' & st' & w & out & E & Hw & Ho & Hrq & Hlen & Hr).
  { repeat constructor. }
  assert (Hst : st' = snd (with_obj
                             (VDict [("name", VStr "site");
                                     ("host", VStr "example.com")])
                             (update_branch Sample.repr Sample.server
                                            (VStr "example.com")
                                            [Sample.c1; Sample.c2] false)
                             Sample.st0))
    by (rewrite E; reflexivity).
  assert (Her : Ok error' = Ok true :> result bool).
  { change (Ok error') with (fst (fst ((Ok error',
       VDict (Dict.del "type" [("name", VStr "site"); ("host", VStr "example.com")])),
       st'))).
    rewrite <- E. vm_compute. reflexivity. }
  inversion Her; subst error'.
  exists st', (wire st'), (stdout st').
  split; [exact E|]. split; [reflexivity|]. split; [reflexivity|].
  rewrite Hst. vm_compute. split; reflexivity.
Defined.

(* ================================================================== *)
(** * Further properties of the code *)

(** ** The main block *)

(** X1.  The main block catches every exception: its exit status is 0 when
    validation and reconciliation both return, and 3 otherwise; in the
    second case the last two lines printed are the error banner and the
    exception, and nothing is sent after the exception. *)
Theorem main_exit_status json_loads repr server cfg st :
  exists st',
    (main json_loads repr server cfg st = (Ok 0, st') /\
     exists cfg',
       validate_configuration_yaml repr cfg = Ok cfg' /\
       process_configuration_yaml json_loads repr server cfg' st = (Ok tt, st')) \/
    (main json_loads repr server cfg st = (Ok 3, st') /\
     exists e st1,
       (validate_configuration_yaml repr cfg = Err e /\ st1 = st \/
        exists cfg',
          validate_configuration_yaml repr cfg = Ok cfg' /\
          process_configuration_yaml json_loads repr server cfg' st
          = (Err e, st1)) /\
       self st' = self st1 /\ wire st' = wire st1 /\
       stdout st' = (stdout st1 ++ [Line Msg.unhandled; ExnLine e])%list).
Proof.
  unfold main, try_except, bind, liftR.
  destruct (validate_configuration_yaml repr cfg) as [e|cfg'] eqn:Hv.
  - eexists. right. split; [reflexivity|].
    exists e, st. split; [left; split; reflexivity|].
    unfold print, ret. simpl. rewrite <- app_assoc. repeat split; reflexivity.
  - destruct (process_configuration_yaml json_loads repr server cfg' st)
      as [[e|[]] st1] eqn:Hp.
    + eexists. right. split; [reflexivity|].
      exists e, st1. split; [right; exists cfg'; split; [reflexivity | exact Hp]|].
      unfold print, ret. simpl. rewrite <- app_assoc. repeat split; reflexivity.
    + exists st1. left. split; [reflexivity|].
      exists cfg'. split; [reflexivity | exact Hp].
Qed.

(** ** The listing *)

(** X2.  A listing answered with status 200 and a body that decodes to a
    mapping gives the elements of its [checks] list, and the empty list when
    the mapping has no [checks] key.  The list is kept even when it is
    empty: the next call with the cache enabled returns it and sends
    nothing. *)
Theorem listing_decoded json_loads server cache st r j checks :
  cache = false \/ get_checks_cache (self st) = None ->
  server (wire st) (checks_request (self st)) = Reply r ->
  status_code r = 200 ->
  json_loads (content r) = Some (VDict j) ->
  (Dict.get "checks" j = None /\ checks = [] \/
   Dict.get "checks" j = Some (VList checks)) ->
  let st' := with_cache (exchanged st (checks_request (self st)) (Reply r)) checks in
  get_checks json_loads server cache st = (Ok checks, st') /\
  get_checks json_loads server true st' = (Ok checks, st').
Proof.
  intros Hmiss Hs Hstatus Hj Hc st'.
  assert (E : get_checks json_loads server cache st = (Ok checks, st')).
  { destruct (get_checks_cases json_loads server cache st)
      as [(cs & Ht & Hcs & _)|[_ E]]; [destruct Hmiss; congruence|].
    rewrite E, fetch_checks_eq. cbv zeta. rewrite Hs, Hstatus. simpl.
    unfold loads. rewrite Hj.
    unfold checks_of_json. simpl. unfold Dict.has.
    destruct Hc as [[Hn ->]| Hl].
    - rewrite Hn. reflexivity.
    - rewrite Hl. reflexivity. }
  split; [exact E|].
  apply get_checks_cached. reflexivity.
Qed.

Lemma listing_decoded_witness :
  let checks := [Sample.c1; Sample.c2; Sample.c3; Sample.c4; Sample.c5] in
  let st' := with_cache (exchanged Sample.st0 (checks_request (self Sample.st0))
                                   (Sample.ok "list")) checks in
  get_checks Sample.json_loads Sample.server false Sample.st0 = (Ok checks, st') /\
  get_checks Sample.json_loads Sample.server true st' = (Ok checks, st').
Proof.
  cbv zeta.
  apply (@listing_decoded Sample.json_loads Sample.server false Sample.st0
           {| status_code := 200; content := "list" |}
           [("checks", VList [Sample.c1; Sample.c2; Sample.c3; Sample.c4; Sample.c5])]
           [Sample.c1; Sample.c2; Sample.c3; Sample.c4; Sample.c5]).
  - left. reflexivity.
  - reflexivity.
  - reflexivity.
  - reflexivity.
  - right. reflexivity.
Defined.

(** ** Validation *)

Ltac rinv H :=
  match type of H with
  | rbind ?r _ = _ =>
      let E := fresh "E" in
      destruct r eqn:E; [discriminate H | rewrite rbind_Ok in H]
  end.

Lemma require_inv b msg u : require b msg = Ok u -> b = true.
Proof. destruct b; [reflexivity | discriminate]. Qed.

Lemma get_absent k (d : dict) : ~ In k (map fst d) -> Dict.get k d = None.
Proof.
  induction d as [|[k' v] d IH]; simpl; [reflexivity|]. intros H.
  destruct (String.eqb k k') eqn:E.
  - apply String.eqb_eq in E. subst. exfalso. apply H. now left.
  - apply IH. intros Hin. apply H. now right.
Qed.

Lemma id_table_loop_ok (d : dict) :
  forallb (fun kv => Py.is_int (snd kv)) d = true ->
  forall not_int t0,
  exists t,
    rfor_each
      (fun table kv =>
         let? _ := require (Py.is_int (snd kv)) not_int in
         Ok (Dict.set (fst kv) (snd kv) table))
      d t0 = Ok t /\
    (forall k, Dict.has k t = Dict.has k t0 || Dict.has k d) /\
    (NoDup (map fst d) ->
     forall k, Dict.get k t = match Dict.get k d with
                              | Some v => Some v
                              | None => Dict.get k t0
                              end).
Proof.
  induction d as [|[k0 v0] d IH]; intros Hall not_int t0.
  - exists t0. simpl. split; [reflexivity|].
    split; [intros k; now rewrite orb_false_r | reflexivity].
  - simpl in Hall. apply andb_prop in Hall. destruct Hall as [H0 Hall].
    destruct (IH Hall not_int (Dict.set k0 v0 t0)) as (t & E & Hk & Hv).
    exists t. rewrite rfor_each_cons. cbn [fst snd]. rewrite H0.
    unfold require. rewrite !rbind_Ok.
    split; [exact E|]. split.
    + intros k. rewrite Hk. unfold Dict.has. cbn [Dict.get].
      rewrite DictFacts.get_set.
      destruct (String.eqb k k0); destruct (Dict.get k t0);
        destruct (Dict.get k d); reflexivity.
    + intros Hnd k. inversion Hnd as [|? ? Hnot Hnd']; subst.
      rewrite (Hv Hnd'). cbn [Dict.get]. rewrite DictFacts.get_set.
      destruct (String.eqb k k0) eqn:Ek.
      * apply String.eqb_eq in Ek. subst. now rewrite (get_absent _ _ Hnot).
      * reflexivity.
Qed.

Lemma id_table_loop_bad (d : dict) not_int :
  existsb (fun kv => negb (Py.is_int (snd kv))) d = true ->
  forall t0,
    rfor_each
      (fun table kv =>
         let? _ := require (Py.is_int (snd kv)) not_int in
         Ok (Dict.set (fst kv) (snd kv) table))
      d t0 = Err (Exception not_int).
Proof.
  induction d as [|[k0 v0] d IH]; intros H t0; [discriminate|].
  rewrite rfor_each_cons. cbn [fst snd]. simpl in H.
  destruct (Py.is_int v0); simpl in *; [now apply IH | reflexivity].
Qed.

(** X3.  The table built from [pingdom.teams] or [pingdom.integrations]:
    a value that is no mapping and an id that is no integer are rejected,
    each with its own error; booleans pass as integers.  A mapping that is
    accepted gives a table with the same keys, and the same id for every
    name. *)
Theorem id_table_accepts_integer_ids not_object not_int :
  (forall v, Py.is_dict v = false ->
             id_table not_object not_int v = Err (Exception not_object)) /\
  (forall d, existsb (fun kv => negb (Py.is_int (snd kv))) d = true ->
             id_table not_object not_int (VDict d) = Err (Exception not_int)) /\
  (forall d, forallb (fun kv => Py.is_int (snd kv)) d = true ->
             exists t,
               id_table not_object not_int (VDict d) = Ok t /\
               (forall k, Dict.has k t = Dict.has k d) /\
               (NoDup (map fst d) -> forall k, Dict.get k t = Dict.get k d)) /\
  (forall b, Py.is_int (VBool b) = true).
Proof.
  split.
  { intros v Hv. unfold id_table. now rewrite Hv. }
  split.
  { intros d Hd. unfold id_table. simpl. now apply id_table_loop_bad. }
  split; [|reflexivity].
  intros d Hd. destruct (id_table_loop_ok d Hd not_int []) as (t & E & Hk & Hv).
  exists t. split; [unfold id_table; simpl; exact E|].
  split; [intros k; now rewrite Hk|].
  intros Hnd k. rewrite (Hv Hnd). now destruct (Dict.get k d).
Qed.

Lemma id_table_accepts_integer_ids_witness :
  id_table Msg.teams_not_object Msg.team_id_not_int
           (VDict [("x", VInt 1); ("on_call", VBool true)])
  = Ok [("x", VInt 1); ("on_call", VBool true)] /\
  id_table Msg.teams_not_object Msg.team_id_not_int
           (VDict [("x", VInt 1); ("y", VStr "2")])
  = Err (Exception Msg.team_id_not_int) /\
  id_table Msg.teams_not_object Msg.team_id_not_int (VList [])
  = Err (Exception Msg.teams_not_object).
Proof.
  destruct (id_table_accepts_integer_ids Msg.teams_not_object Msg.team_id_not_int)
    as (H1 & H2 & H3 & _).
  split; [|split].
  - destruct (H3 [("x", VInt 1); ("on_call", VBool true)] eq_refl) as (t & E & _).
    rewrite E. revert E. vm_compute. intros E. inversion E. reflexivity.
  - apply (H2 [("x", VInt 1); ("y", VStr "2")]). reflexivity.
  - apply (H1 (VList [])). reflexivity.
Defined.

Lemma id_table_inv not_object not_int v t :
  id_table not_object not_int v = Ok t ->
  exists d, v = VDict d /\ forall k, Dict.has k t = Dict.has k d.
Proof.
  intros H. destruct v as [| | | | |d];
    try (unfold id_table in H; simpl in H; discriminate).
  exists d. split; [reflexivity|].
  destruct (forallb (fun kv => Py.is_int (snd kv)) d) eqn:Hall.
  - destruct (id_table_loop_ok d Hall not_int []) as (t' & E & Hk & _).
    unfold id_table in H. simpl in H. rewrite E in H. inversion H; subst.
    intros k. now rewrite Hk.
  - assert (Hbad : existsb (fun kv => negb (Py.is_int (snd kv))) d = true).
    { clear H. induction d as [|kv d IH]; [discriminate|]. simpl in *.
      destruct (Py.is_int (snd kv)); simpl in *; [now apply IH | reflexivity]. }
    unfold id_table in H. simpl in H.
    rewrite (id_table_loop_bad d not_int Hbad) in H. discriminate.
Qed.

(** the test of one mandatory parameter on a dictionary *)
Lemma mandatory_step d p :
  (let? has := Py.contains (VStr p) (VDict d) in
   let? _ := require has (Msg.no_check_parameter p) in
   let? v := Py.getitem (VDict d) (VStr p) in
   require (Py.is_str v) (Msg.check_parameter_not_str p))
  = match Dict.get p d with
    | None => Err (Exception (Msg.no_check_parameter p))
    | Some (VStr _) => Ok tt
    | Some _ => Err (Exception (Msg.check_parameter_not_str p))
    end.
Proof.
  simpl. unfold Dict.has. destruct (Dict.get p d) as [v|]; simpl; [|reflexivity].
  destruct v; reflexivity.
Qed.

Lemma mandatory_parameters_dict d :
  mandatory_parameters (VDict d)
  = match find (fun p => match Dict.get p d with Some (VStr _) => false | _ => true end)
               ["name"; "host"; "type"] with
    | None => Ok tt
    | Some p =>
        match Dict.get p d with
        | None => Err (Exception (Msg.no_check_parameter p))
        | Some _ => Err (Exception (Msg.check_parameter_not_str p))
        end
    end.
Proof.
  unfold mandatory_parameters.
  rewrite rfor_each_cons, mandatory_step. cbn [find]. cbv beta.
  destruct (Dict.get "name" d) as [[]|] eqn:E1; cbv beta iota; rewrite ?E1;
    try reflexivity.
  rewrite rbind_Ok, rfor_each_cons, mandatory_step.
  destruct (Dict.get "host" d) as [[]|] eqn:E2; cbv beta iota; rewrite ?E2;
    try reflexivity.
  rewrite rbind_Ok, rfor_each_cons, mandatory_step.
  destruct (Dict.get "type" d) as [[]|] eqn:E3; cbv beta iota; rewrite ?E3;
    reflexivity.
Qed.

Lemma mandatory_parameters_inv check :
  mandatory_parameters check = Ok tt ->
  exists d, check = VDict d /\
            forall p, In p ["name"; "host"; "type"] ->
                      exists s, Dict.get p d = Some (VStr s).
Proof.
  intros H.
  assert (Hd : exists d, check = VDict d).
  { unfold mandatory_parameters in H. rewrite rfor_each_cons in H.
    cbv beta in H. rinv H. rinv E. rinv E. rinv E.
    eapply getitem_str_dict; eassumption. }
  destruct Hd as [d ->]. exists d. split; [reflexivity|].
  rewrite mandatory_parameters_dict in H. cbn [find] in H. cbv beta in H.
  intros p Hp.
  destruct (Dict.get "name" d) as [[]|] eqn:E1; cbv beta iota in H;
    rewrite ?E1 in H; try discriminate.
  destruct (Dict.get "host" d) as [[]|] eqn:E2; cbv beta iota in H;
    rewrite ?E2 in H; try discriminate.
  destruct (Dict.get "type" d) as [[]|] eqn:E3; cbv beta iota in H;
    rewrite ?E3 in H; try discriminate.
  destruct Hp as [<-|[<-|[<-|[]]]]; eexists; eassumption.
Qed.

Lemma known_keys_loop unknown table keys :
  rfor_each
    (fun _ key =>
       let? known := Py.contains key (VDict table) in
       require known unknown)
    keys tt = Ok tt ->
  exists names, keys = map VStr names /\
                Forall (fun n => Dict.has n table = true) names.
Proof.
  induction keys as [|key keys IH]; intros H.
  - exists []. split; [reflexivity | constructor].
  - rewrite rfor_each_cons in H. cbv beta in H.
    destruct (Py.contains key (VDict table)) as [e|known] eqn:Ec; [discriminate|].
    rewrite rbind_Ok in H. destruct known; [|discriminate].
    unfold require in H. rewrite rbind_Ok in H.
    destruct (IH H) as (names & -> & Hall).
    destruct key; simpl in Ec; try discriminate.
    exists (s :: names). split; [reflexivity|].
    constructor; [now inversion Ec | exact Hall].
Qed.

Lemma known_references_inv field not_list unknown table d :
  known_references field not_list unknown table (VDict d) = Ok tt ->
  Dict.get field d = None \/
  exists names,
    Dict.get field d = Some (VList (map VStr names)) /\
    Forall (fun n => Dict.has n table = true) names.
Proof.
  unfold known_references. simpl. unfold Dict.has at 1.
  destruct (Dict.get field d) as [v|]; [|now left]. simpl. intros H. right.
  destruct v; try discriminate. simpl in H.
  destruct (known_keys_loop _ _ _ H) as (names & -> & Hall).
  exists names. split; [reflexivity | exact Hall].
Qed.

(** what a successful [validate_check] says of its result *)
Lemma validate_check_inv teams integrations default check check' :
  validate_check teams integrations default check = Ok check' ->
  exists d,
    check' = VDict d /\
    populate_defaults default check = Ok (VDict d) /\
    populate_defaults default (VDict d) = Ok (VDict d) /\
    (forall p, In p ["name"; "host"; "type"] ->
               exists s, Dict.get p d = Some (VStr s)) /\
    (Dict.get "teamids" d = None \/
     exists names,
       Dict.get "teamids" d = Some (VList (map VStr names)) /\
       Forall (fun n => Dict.has n teams = true) names) /\
    (Dict.get "integrationids" d = None \/
     exists names,
       Dict.get "integrationids" d = Some (VList (map VStr names)) /\
       Forall (fun n => Dict.has n integrations = true) names).
Proof.
  unfold validate_check. intros H.
  destruct (populate_defaults default check) as [e|c1] eqn:Ep; [discriminate|].
  rewrite rbind_Ok in H.
  destruct (mandatory_parameters c1) as [e|[]] eqn:Em; [discriminate|].
  rewrite rbind_Ok in H.
  destruct (mandatory_parameters_inv _ Em) as (d & -> & Hm).
  destruct (known_references "teamids" _ _ teams (VDict d)) as [e|[]] eqn:Et;
    [discriminate|].
  rewrite rbind_Ok in H.
  destruct (known_references "integrationids" _ _ integrations (VDict d))
    as [e|[]] eqn:Ei; [discriminate|].
  rewrite rbind_Ok in H. inversion H; subst check'.
  exists d. split; [reflexivity|]. split; [reflexivity|].
  split; [eapply populate_defaults_again; eassumption|].
  split; [exact Hm|].
  split; eapply known_references_inv; eassumption.
Qed.

(** X4.  What validation guarantees of a check: it is a mapping, it has
    [name], [host] and [type] as strings once the defaults are merged in,
    its [teamids] and [integrationids], when present, are lists of names
    the tables know, and merging the defaults again leaves it as it is. *)
Theorem validated_check_is_well_formed teams integrations default check check' :
  validate_check teams integrations default check = Ok check' ->
  exists d,
    check' = VDict d /\
    populate_defaults default check = Ok (VDict d) /\
    populate_defaults default (VDict d) = Ok (VDict d) /\
    (forall p, In p ["name"; "host"; "type"] ->
               exists s, Dict.get p d = Some (VStr s)) /\
    (Dict.get "teamids" d = None \/
     exists names,
       Dict.get "teamids" d = Some (VList (map VStr names)) /\
       Forall (fun n => Dict.has n teams = true) names) /\
    (Dict.get "integrationids" d = None \/
     exists names,
       Dict.get "integrationids" d = Some (VList (map VStr names)) /\
       Forall (fun n => Dict.has n integrations = true) names).
Proof. exact (@validate_check_inv teams integrations default check check'). Qed.

Lemma validated_check_is_well_formed_witness :
  exists d,
    validate_check [("x", VInt 1)] [] (VDict [("type", VStr "http")])
                   (VDict [("name", VStr "n"); ("host", VStr "h");
                           ("teamids", VList [VStr "x"])])
    = Ok (VDict d) /\
    Dict.get "type" d = Some (VStr "http") /\
    populate_defaults (VDict [("type", VStr "http")]) (VDict d) = Ok (VDict d).
Proof.
  destruct (@validated_check_is_well_formed
              [("x", VInt 1)] [] (VDict [("type", VStr "http")])
              (VDict [("name", VStr "n"); ("host", VStr "h");
                      ("teamids", VList [VStr "x"])])
              (VDict [("name", VStr "n"); ("host", VStr "h");
                      ("teamids", VList [VStr "x"]); ("type", VStr "http")])
              eq_refl)
    as (d & Hd & _ & Hfix & _).
  inversion Hd; subst d.
  eexists. split; [reflexivity|]. split; [reflexivity | exact Hfix].
Defined.

(** X5.  Validation does not look at [tags]: a check that passed validation
    and whose [tags] cannot be iterated (an integer, a boolean, [None])
    makes its round of the reconciliation loop raise [TypeError] at once,
    before anything is sent or printed. *)
Theorem unvalidated_tags_abort json_loads repr server teams integrations default
        tag teams' integrations' error check d v e st :
  validate_check teams integrations default check = Ok (VDict d) ->
  Dict.get "tags" d = Some v ->
  Py.iter v = Err e ->
  e = TypeError /\
  process_check json_loads repr server tag teams' integrations' default error
                (VDict d) st = (Err e, st).
Proof.
  intros Hv Ht Hi.
  destruct (validate_check_inv _ _ _ _ Hv)
    as (d' & Hd & _ & Hfix & Hm & _).
  inversion Hd; subst d'. clear Hd.
  destruct (Hm "host") as [host Hh]; [right; left; reflexivity|].
  split; [destruct v; simpl in Hi; inversion Hi; reflexivity|].
  unfold process_check, bind, liftR. rewrite Hfix. unfold Ok at 1.
  cbv beta iota. simpl Py.getitem. rewrite Hh. unfold Ok at 1. cbv beta iota.
  unfold resolve, resolve_tags. simpl Py.contains. unfold Dict.has. rewrite Ht.
  rewrite rbind_Ok. simpl Py.getitem. rewrite Ht. rewrite rbind_Ok.
  unfold csv_append. rewrite Hi. reflexivity.
Qed.

Lemma unvalidated_tags_abort_witness :
  let d := [("name", VStr "n"); ("host", VStr "h"); ("type", VStr "http");
            ("tags", VInt 5)] in
  validate_check [] [] VNone (VDict d) = Ok (VDict d) /\
  process_check Sample.json_loads Sample.repr Sample.server
                (VStr "t") (VDict []) (VDict []) VNone false (VDict d) Sample.st0
  = (Err TypeError, Sample.st0).
Proof.
  cbv zeta. split; [reflexivity|].
  destruct (@unvalidated_tags_abort
              Sample.json_loads Sample.repr Sample.server [] [] VNone
              (VStr "t") (VDict []) (VDict []) false
              (VDict [("name", VStr "n"); ("host", VStr "h"); ("type", VStr "http");
                      ("tags", VInt 5)])
              [("name", VStr "n"); ("host", VStr "h"); ("type", VStr "http");
               ("tags", VInt 5)]
              (VInt 5) TypeError Sample.st0 eq_refl eq_refl eq_refl) as [_ H].
  exact H.
Defined.

(** *** The head of the document *)

Lemma require_keys_dict msg names d :
  require_keys msg names (VDict d)
  = match first_missing names d with
    | Some k => Err (Exception (msg k))
    | None => Ok tt
    end.
Proof.
  unfold require_keys, first_missing.
  induction names as [|k names IH]; [reflexivity|].
  rewrite rfor_each_cons. cbv beta. simpl Py.contains. rewrite rbind_Ok.
  cbn [find]. destruct (Dict.has k d); simpl; [exact IH | reflexivity].
Qed.

Lemma eq_str_refl s : Py.eq (VStr s) (VStr s) = true.
Proof. apply eq_str_r. reflexivity. Qed.

(** the head of validation on a document with the expected marker *)
Lemma validate_header_marker repr d :
  gitops_ok repr d ->
  validate_header repr (VDict d)
  = (let? has := Py.contains (VStr "pingdom") (VDict d) in
     let? _ := require has Msg.no_pingdom in
     let? config_pingdom := Py.getitem (VDict d) (VStr "pingdom") in
     let? _ := require (Py.is_dict config_pingdom) Msg.pingdom_not_object in
     let? _ := require_keys Msg.no_pingdom_parameter
                            ["tag"; "checks"; "teams"; "integrations"]
                            config_pingdom in
     let? has := Py.contains (VStr "teams") config_pingdom in
     let? teams :=
       (if has then
          let? v := Py.getitem config_pingdom (VStr "teams") in
          id_table Msg.teams_not_object Msg.team_id_not_int v
        else Ok []) in
     let? has := Py.contains (VStr "integrations") config_pingdom in
     let? integrations :=
       (if has then
          let? v := Py.getitem config_pingdom (VStr "integrations") in
          id_table Msg.integrations_not_object Msg.integration_id_not_int v
        else Ok []) in
     let? config_pingdom_checks := Py.getitem config_pingdom (VStr "checks") in
     let? _ := require (Py.is_list config_pingdom_checks) Msg.checks_not_list in
     let? has_default := Py.contains (VStr "default") config_pingdom in
     let? default :=
       (if has_default then
          let? d := Py.getitem config_pingdom (VStr "default") in
          let? _ := require (Py.is_dict d) Msg.default_not_object in
          Ok d
        else Ok VNone) in
     let? checks := Py.iter config_pingdom_checks in
     Ok (teams, integrations, default, checks)).
Proof.
  intros (g & v & Hg & Ht & Hv & Hs).
  unfold validate_header.
  simpl Py.contains at 1. unfold Dict.has at 1. rewrite Hg. rewrite rbind_Ok.
  unfold require at 1. rewrite rbind_Ok.
  simpl Py.getitem at 1. rewrite Hg. rewrite rbind_Ok.
  simpl Py.is_dict. unfold require at 1. rewrite rbind_Ok.
  rewrite require_keys_dict. unfold first_missing. cbn [find].
  unfold Dict.has at 1. rewrite Ht. cbn [negb].
  unfold Dict.has at 1. rewrite Hv. cbn [negb]. rewrite rbind_Ok.
  simpl Py.getitem at 1. rewrite Ht. rewrite rbind_Ok.
  rewrite eq_str_refl. unfold require at 1. rewrite rbind_Ok.
  simpl Py.getitem at 1. rewrite Hv. rewrite rbind_Ok.
  rewrite Hs. cbn [existsb]. rewrite String.eqb_refl. cbn [orb].
  unfold require at 1. rewrite rbind_Ok.
  reflexivity.
Qed.

(** X6.  Validation names the first required key that [pingdom] lacks, in
    the order [tag], [checks], [teams], [integrations]: for a document with
    the expected marker whose [pingdom] is a mapping, the error is the
    configuration error with [pingdom.<key>] in it. *)
Theorem missing_pingdom_key_named repr d p k :
  gitops_ok repr d ->
  Dict.get "pingdom" d = Some (VDict p) ->
  first_missing ["tag"; "checks"; "teams"; "integrations"] p = Some k ->
  validate_configuration_yaml repr (VDict d)
  = Err (Exception ("Configuration Error: Could not locate required `pingdom."
                      ++ k ++ "` tag")) /\
  In k ["tag"; "checks"; "teams"; "integrations"] /\
  Dict.get k p = None.
Proof.
  intros Hg Hp Hk. split.
  - unfold validate_configuration_yaml. rewrite (validate_header_marker Hg).
    simpl Py.contains at 1. unfold Dict.has at 1. rewrite Hp. rewrite rbind_Ok.
    unfold require at 1. rewrite rbind_Ok.
    simpl Py.getitem at 1. rewrite Hp. rewrite rbind_Ok.
    simpl Py.is_dict. unfold require at 1. rewrite rbind_Ok.
    rewrite require_keys_dict, Hk. reflexivity.
  - unfold first_missing in Hk. apply find_some in Hk. destruct Hk as [Hin Hn].
    split; [exact Hin|].
    apply DictFacts.has_false. now apply negb_true_iff.
Qed.

Lemma missing_pingdom_key_named_witness :
  validate_configuration_yaml Sample.repr
    (VDict [("gitops", Sample.gitops);
            ("pingdom", VDict [("tag", VStr "t"); ("checks", VList [])])])
  = Err (Exception "Configuration Error: Could not locate required `pingdom.teams` tag").
Proof.
  apply (@missing_pingdom_key_named Sample.repr
           [("gitops", Sample.gitops);
            ("pingdom", VDict [("tag", VStr "t"); ("checks", VList [])])]
           [("tag", VStr "t"); ("checks", VList [])] "teams").
  - exists [("type", VStr "pingdom-checks"); ("version", VStr "1.0")], (VStr "1.0").
    repeat split; reflexivity.
  - reflexivity.
  - reflexivity.
Defined.

(** X7.  The marker of the document is checked first and step by step: a
    missing [gitops], a [gitops] that is no mapping, a missing
    [gitops.type] or [gitops.version], a type other than [pingdom-checks]
    and a version whose text is not [1.0] each raise their own error, in
    this order. *)
Theorem gitops_marker_checked repr d :
  (Dict.get "gitops" d = None ->
   validate_configuration_yaml repr (VDict d) = Err (Exception Msg.no_gitops)) /\
  (forall v,
      Dict.get "gitops" d = Some v -> Py.is_dict v = false ->
      validate_configuration_yaml repr (VDict d)
      = Err (Exception Msg.gitops_not_object)) /\
  (forall g k,
      Dict.get "gitops" d = Some (VDict g) ->
      first_missing ["type"; "version"] g = Some k ->
      validate_configuration_yaml repr (VDict d)
      = Err (Exception (Msg.no_gitops_parameter k))) /\
  (forall g t v,
      Dict.get "gitops" d = Some (VDict g) ->
      Dict.get "type" g = Some t -> Dict.get "version" g = Some v ->
      t <> VStr "pingdom-checks" ->
      validate_configuration_yaml repr (VDict d)
      = Err (Exception Msg.bad_gitops_type)) /\
  (forall g v,
      Dict.get "gitops" d = Some (VDict g) ->
      Dict.get "type" g = Some (VStr "pingdom-checks") ->
      Dict.get "version" g = Some v ->
      Py.str repr v <> "1.0" ->
      validate_configuration_yaml repr (VDict d)
      = Err (Exception Msg.bad_gitops_version)).
Proof.
  unfold validate_configuration_yaml, validate_header.
  split.
  { intros Hg. simpl Py.contains at 1. unfold Dict.has at 1. now rewrite Hg. }
  split.
  { intros v Hg Hv. simpl Py.contains at 1. unfold Dict.has at 1. rewrite Hg.
    rewrite rbind_Ok. unfold require at 1. rewrite rbind_Ok.
    simpl Py.getitem at 1. rewrite Hg, rbind_Ok, Hv. reflexivity. }
  split.
  { intros g k Hg Hk. simpl Py.contains at 1. unfold Dict.has at 1. rewrite Hg.
    rewrite rbind_Ok. unfold require at 1. rewrite rbind_Ok.
    simpl Py.getitem at 1. rewrite Hg, rbind_Ok.
    simpl Py.is_dict. unfold require at 1. rewrite rbind_Ok.
    now rewrite require_keys_dict, Hk. }
  split.
  { intros g t v Hg Ht Hv Hne.
    simpl Py.contains at 1. unfold Dict.has at 1. rewrite Hg.
    rewrite rbind_Ok. unfold require at 1. rewrite rbind_Ok.
    simpl Py.getitem at 1. rewrite Hg, rbind_Ok.
    simpl Py.is_dict. unfold require at 1. rewrite rbind_Ok.
    rewrite require_keys_dict. unfold first_missing. cbn [find].
    unfold Dict.has at 1. rewrite Ht. cbn [negb].
    unfold Dict.has at 1. rewrite Hv. cbn [negb]. rewrite rbind_Ok.
    simpl Py.getitem at 1. rewrite Ht, rbind_Ok.
    destruct (Py.eq t (VStr "pingdom-checks")) eqn:E; [|reflexivity].
    apply eq_str_r in E. contradiction. }
  intros g v Hg Ht Hv Hne.
  simpl Py.contains at 1. unfold Dict.has at 1. rewrite Hg.
  rewrite rbind_Ok. unfold require at 1. rewrite rbind_Ok.
  simpl Py.getitem at 1. rewrite Hg, rbind_Ok.
  simpl Py.is_dict. unfold require at 1. rewrite rbind_Ok.
  rewrite require_keys_dict. unfold first_missing. cbn [find].
  unfold Dict.has at 1. rewrite Ht. cbn [negb].
  unfold Dict.has at 1. rewrite Hv. cbn [negb]. rewrite rbind_Ok.
  simpl Py.getitem at 1. rewrite Ht, rbind_Ok.
  rewrite eq_str_refl. unfold require at 1. rewrite rbind_Ok.
  simpl Py.getitem at 1. rewrite Hv, rbind_Ok.
  cbn [existsb]. apply String.eqb_neq in Hne. rewrite Hne. reflexivity.
Qed.

Lemma gitops_marker_checked_witness :
  validate_configuration_yaml Sample.repr
    (VDict [("gitops", VDict [("type", VStr "pingdom-checks"); ("version", VInt 1)])])
  = Err (Exception Msg.bad_gitops_version) /\
  validate_configuration_yaml Sample.repr
    (VDict [("gitops", VDict [("type", VStr "other"); ("version", VStr "1.0")])])
  = Err (Exception Msg.bad_gitops_type) /\
  validate_configuration_yaml Sample.repr
    (VDict [("gitops", VDict [("version", VStr "1.0")])])
  = Err (Exception (Msg.no_gitops_parameter "type")).
Proof.
  split; [|split].
  - destruct (gitops_marker_checked Sample.repr
                [("gitops", VDict [("type", VStr "pingdom-checks");
                                   ("version", VInt 1)])])
      as (_ & _ & _ & _ & H).
    apply (H [("type", VStr "pingdom-checks"); ("version", VInt 1)] (VInt 1));
      try reflexivity.
    vm_compute. discriminate.
  - destruct (gitops_marker_checked Sample.repr
                [("gitops", VDict [("type", VStr "other"); ("version", VStr "1.0")])])
      as (_ & _ & _ & H & _).
    apply (H [("type", VStr "other"); ("version", VStr "1.0")]
             (VStr "other") (VStr "1.0")); try reflexivity.
    discriminate.
  - destruct (gitops_marker_checked Sample.repr
                [("gitops", VDict [("version", VStr "1.0")])])
      as (_ & _ & H & _).
    apply (H [("version", VStr "1.0")] "type"); reflexivity.
Defined.

(** *** Validation followed by reconciliation *)

Ltac hstep H x E :=
  match type of H with
  | rbind ?r _ = _ =>
      destruct r as [|x] eqn:E; [discriminate H | rewrite rbind_Ok in H]
  end.

Lemma getitem_dict_inv d k x :
  Py.getitem (VDict d) (VStr k) = Ok x -> Dict.get k d = Some x.
Proof.
  simpl. destruct (Dict.get k d); intros H; inversion H. reflexivity.
Qed.

Lemma require_is_dict v msg u :
  require (Py.is_dict v) msg = Ok u -> exists d, v = VDict d.
Proof. destruct v; try discriminate. intros _. eexists; reflexivity. Qed.

Lemma require_keys_inv msg names d u :
  require_keys msg names (VDict d) = Ok u ->
  forall k, In k names -> exists v, Dict.get k d = Some v.
Proof.
  rewrite require_keys_dict. unfold first_missing. intros H k Hin.
  destruct (find (fun k => negb (Dict.has k d)) names) as [k'|] eqn:E;
    [discriminate H|].
  apply DictFacts.has_get.
  pose proof (find_none _ _ E k Hin) as Hk. cbv beta in Hk.
  now apply negb_false_iff in Hk.
Qed.

(** what a successful [validate_header] says of the document *)
Lemma validate_header_inv repr cfg teams integrations default checks :
  validate_header repr cfg = Ok (teams, integrations, default, checks) ->
  exists d p tag rawt rawi,
    cfg = VDict d /\ gitops_ok repr d /\
    Dict.get "pingdom" d = Some (VDict p) /\
    Dict.get "tag" p = Some tag /\
    Dict.get "teams" p = Some (VDict rawt) /\
    (forall k, Dict.has k teams = Dict.has k rawt) /\
    Dict.get "integrations" p = Some (VDict rawi) /\
    (forall k, Dict.has k integrations = Dict.has k rawi) /\
    Dict.get "checks" p = Some (VList checks) /\
    (Dict.get "default" p = None /\ default = VNone \/
     exists d0, Dict.get "default" p = Some (VDict d0) /\ default = VDict d0).
Proof.
  unfold validate_header. intros H.
  hstep H has1 E1. hstep H u1 E2. hstep H g E3.
  destruct (getitem_str_dict _ _ E3) as [d ->].
  apply getitem_dict_inv in E3.
  hstep H u2 E4. destruct (require_is_dict _ _ E4) as [gd ->].
  hstep H u3 E5. hstep H t E6. apply getitem_dict_inv in E6.
  hstep H u4 E7. apply require_inv in E7. apply eq_str_r in E7. subst t.
  hstep H v E8. apply getitem_dict_inv in E8.
  hstep H u5 E9. apply require_inv in E9. cbn [existsb] in E9.
  rewrite orb_false_r in E9. apply String.eqb_eq in E9.
  hstep H has2 E10. hstep H u6 E11. hstep H p E12.
  apply getitem_dict_inv in E12.
  hstep H u7 E13. destruct (require_is_dict _ _ E13) as [pd ->].
  hstep H u8 E14.
  destruct (require_keys_inv _ _ _ E14 "tag") as [tag Htag];
    [simpl; tauto|].
  destruct (require_keys_inv _ _ _ E14 "teams") as [vt Hteams];
    [simpl; tauto|].
  destruct (require_keys_inv _ _ _ E14 "integrations") as [vi Hints];
    [simpl; tauto|].
  destruct (require_keys_inv _ _ _ E14 "checks") as [cl Hchecks];
    [simpl; tauto|].
  clear E14.
  simpl Py.contains in H. unfold Dict.has at 1 in H. rewrite Hteams in H.
  rewrite rbind_Ok in H. simpl Py.getitem in H at 1. rewrite Hteams in H.
  rewrite rbind_Ok in H.
  hstep H tt' E15. destruct (id_table_inv _ _ _ E15) as (rawt & -> & Hrt).
  unfold Dict.has in H. rewrite Hints in H.
  rewrite rbind_Ok in H. simpl Py.getitem in H at 1. rewrite Hints in H.
  rewrite rbind_Ok in H.
  hstep H ti' E16. destruct (id_table_inv _ _ _ E16) as (rawi & -> & Hri).
  simpl Py.getitem in H at 1. rewrite Hchecks in H. rewrite rbind_Ok in H.
  hstep H u9 E17. destruct cl as [| | | |l|]; try discriminate E17.
  rewrite rbind_Ok in H.
  simpl Py.iter in H.
  destruct (Dict.get "default" pd) as [dv|] eqn:Hd.
  - rewrite ?rbind_Ok in H. simpl Py.getitem in H at 1. rewrite Hd in H.
    rewrite rbind_Ok in H.
    hstep H dd E18. hstep E18 u10 E19.
    destruct (require_is_dict _ _ E19) as [d0 ->].
    inversion E18; subst dd. rewrite rbind_Ok in H. inversion H; subst.
    exists d, pd, tag, rawt, rawi.
    split; [reflexivity|].
    split; [exists gd, v; repeat split; assumption|].
    repeat split; try assumption.
    right. exists d0. split; [exact Hd | reflexivity].
  - rewrite ?rbind_Ok in H. inversion H; subst.
    exists d, pd, tag, rawt, rawi.
    split; [reflexivity|].
    split; [exists gd, v; repeat split; assumption|].
    repeat split; try assumption.
    left. split; [exact Hd | reflexivity].
Qed.

Lemma validate_checks_Forall2 teams integrations default checks checks' :
  validate_checks teams integrations default checks = Ok checks' ->
  Forall2 (fun c c' => validate_check teams integrations default c = Ok c')
          checks checks'.
Proof.
  revert checks'. induction checks as [|c checks IH]; intros checks' H.
  - inversion H. constructor.
  - cbn [validate_checks] in H.
    hstep H c' E1. hstep H rest' E2. inversion H. constructor; auto.
Qed.

(** [resolve_tags] touches the key [tags] only *)
Lemma resolve_tags_frame repr tag d c :
  resolve_tags repr tag (VDict d) = Ok c ->
  exists d', c = VDict d' /\
             forall k, k <> "tags" -> Dict.get k d' = Dict.get k d.
Proof.
  unfold resolve_tags.
  destruct (Py.contains (VStr "tags") (VDict d)) as [e|[|]]; try discriminate;
    rewrite rbind_Ok.
  - destruct (Py.getitem (VDict d) (VStr "tags")) as [e|tags]; [discriminate|].
    rewrite rbind_Ok.
    destruct (csv_append repr _ _ tags) as [e|csv]; [discriminate|].
    rewrite rbind_Ok. simpl. intros H. inversion H.
    eexists; split; [reflexivity|].
    intros k Hk. now apply DictFacts.get_set_other.
  - intros H. inversion H. eexists; split; [reflexivity | reflexivity].
Qed.

Lemma known_names_resolve raw names :
  Forall (fun n => Dict.has n raw = true) names ->
  exists ids,
    Forall2 (fun n i => Py.getitem (VDict raw) n = Ok i) (map VStr names) ids.
Proof.
  induction 1 as [|n names Hn _ [ids IH]].
  - exists []. constructor.
  - apply DictFacts.has_get in Hn. destruct Hn as [v Hv].
    exists (v :: ids). constructor; [|exact IH]. simpl. now rewrite Hv.
Qed.

(** a list of names the table knows always resolves, and [resolve_ids]
    touches its own key only *)
Lemma resolve_ids_known repr field raw d :
  (Dict.get field d = None \/
   exists names,
     Dict.get field d = Some (VList (map VStr names)) /\
     Forall (fun n => Dict.has n raw = true) names) ->
  exists d',
    resolve_ids repr field (VDict raw) (VDict d) = Ok (VDict d') /\
    forall k, k <> field -> Dict.get k d' = Dict.get k d.
Proof.
  intros [Hn | (names & Hg & Hall)].
  - exists d. split; [|reflexivity].
    unfold resolve_ids. simpl Py.contains. unfold Dict.has. now rewrite Hn.
  - destruct (@known_names_resolve raw names Hall) as [ids Hids].
    eexists. split.
    + exact (@resolve_ids_list repr field (VDict raw) d (map VStr names) ids Hg Hids).
    + intros k Hk. now apply DictFacts.get_set_other.
Qed.

Lemma has_transfer (t raw : dict) names :
  (forall k, Dict.has k t = Dict.has k raw) ->
  Forall (fun n => Dict.has n t = true) names ->
  Forall (fun n => Dict.has n raw = true) names.
Proof.
  intros Hk H. induction H; constructor; auto. now rewrite <- Hk.
Qed.

(** X8.  What validation leaves to the reconciliation.  For a document
    that passed validation, reading its head does not fail, and every entry
    of its list of checks, taken as validation left it, is such that
    merging the defaults into it again changes nothing, its [host] is a
    string, and the names in its [teamids] and [integrationids] all
    resolve, so that identity resolution of that entry can fail in its
    [tags] only.  This is what every round of the loop meets when the
    entries of [pingdom.checks] are distinct objects, as they are taken to
    be throughout; an entry that a YAML alias puts into the list a second
    time is met again as the earlier round left it, with its fields
    already in wire form, and is outside this statement. *)
Theorem validated_document_is_processable repr cfg cfg' :
  validate_configuration_yaml repr cfg = Ok cfg' ->
  exists tag teams integrations default checks,
    process_header cfg' = Ok (tag, teams, integrations, default, checks) /\
    Forall
      (fun c =>
         populate_defaults default c = Ok c /\
         (exists host, Py.getitem c (VStr "host") = Ok (VStr host)) /\
         (forall c1, resolve_tags repr tag c = Ok c1 ->
                     exists c3, resolve repr tag teams integrations c = Ok c3))
      checks.
Proof.
  unfold validate_configuration_yaml. intros H.
  destruct (validate_header repr cfg) as [e|[[[teams ints] default] checks]] eqn:Eh;
    [discriminate H|].
  rewrite rbind_Ok in H.
  hstep H checks' Ec.
  destruct (validate_header_inv _ _ Eh)
    as (d & p & tag & rawt & rawi & -> & _ & Hp & Htag & Ht & Hrt & Hi & Hri
        & Hc & Hdef).
  unfold with_checks in H. simpl Py.getitem in H. rewrite Hp in H.
  rewrite rbind_Ok in H. simpl in H. inversion H. subst cfg'. clear H.
  exists tag, (VDict rawt), (VDict rawi), default, checks'.
  split.
  - unfold process_header. simpl Py.getitem at 1.
    rewrite DictFacts.get_set_same, rbind_Ok.
    simpl Py.getitem at 1.
    rewrite DictFacts.get_set_other by discriminate. rewrite Htag, rbind_Ok.
    simpl Py.getitem at 1.
    rewrite DictFacts.get_set_other by discriminate. rewrite Ht, rbind_Ok.
    simpl Py.getitem at 1.
    rewrite DictFacts.get_set_other by discriminate. rewrite Hi, rbind_Ok.
    simpl Py.contains. unfold Dict.has.
    rewrite DictFacts.get_set_other by discriminate. rewrite rbind_Ok.
    simpl Py.getitem.
    rewrite DictFacts.get_set_other by discriminate.
    rewrite DictFacts.get_set_same.
    destruct Hdef as [[Hd ->] | (d0 & Hd & ->)]; rewrite Hd; reflexivity.
  - apply validate_checks_Forall2 in Ec.
    clear Hc Eh. induction Ec as [|c c' cs cs' Hv _ IH]; constructor; [|exact IH].
    destruct (validate_check_inv _ _ _ _ Hv)
      as (dc & -> & _ & Hfix & Hm & Hteam & Hint).
    split; [exact Hfix|].
    split.
    + destruct (Hm "host") as [host Hh]; [right; left; reflexivity|].
      exists host. simpl. now rewrite Hh.
    + intros c1 H1. unfold resolve. rewrite H1, rbind_Ok.
      destruct (resolve_tags_frame _ _ _ H1) as (d1 & -> & Hf1).
      destruct (@resolve_ids_known repr "teamids" rawt d1) as (d2 & E2 & Hf2).
      { rewrite (Hf1 "teamids") by discriminate.
        destruct Hteam as [Hn | (names & Hg & Hall)]; [now left|].
        right. exists names. split; [exact Hg|].
        exact (@has_transfer teams rawt names Hrt Hall). }
      rewrite E2, rbind_Ok.
      destruct (@resolve_ids_known repr "integrationids" rawi d2) as (d3 & E3 & _).
      { rewrite (Hf2 "integrationids") by discriminate.
        rewrite (Hf1 "integrationids") by discriminate.
        destruct Hint as [Hn | (names & Hg & Hall)]; [now left|].
        right. exists names. split; [exact Hg|].
        exact (@has_transfer ints rawi names Hri Hall). }
      exists (VDict d3). exact E3.
Qed.

Lemma validated_document_is_processable_witness :
  exists cfg',
    validate_configuration_yaml Sample.repr
      (Sample.document
       [VDict [("name", VStr "n"); ("host", VStr "h.example");
               ("tags", VList [VStr "a"]);
               ("teamids", VList [VStr "y"; VStr "x"])];
        Sample.declared "m" "g.example"]) = Ok cfg' /\
    exists tag teams integrations default checks,
      process_header cfg' = Ok (tag, teams, integrations, default, checks) /\
      Forall
        (fun c =>
           populate_defaults default c = Ok c /\
           (exists host, Py.getitem c (VStr "host") = Ok (VStr host)) /\
           (forall c1, resolve_tags Sample.repr tag c = Ok c1 ->
                       exists c3,
                         resolve Sample.repr tag teams integrations c = Ok c3))
        checks.
Proof.
  destruct (validate_configuration_yaml Sample.repr
      (Sample.document
       [VDict [("name", VStr "n"); ("host", VStr "h.example");
               ("tags", VList [VStr "a"]);
               ("teamids", VList [VStr "y"; VStr "x"])];
        Sample.declared "m" "g.example"]))
    as [e|cfg'] eqn:E; [vm_compute in E; discriminate E|].
  exists cfg'. split; [reflexivity|].
  exact (@validated_document_is_processable Sample.repr _ cfg' E).
Defined.

(** *** The traffic of a run *)

Section Keeps.

Context {S : Type} (R : S -> S -> Prop) `{!PreOrder R}.

Lemma keeps_ret A (a : A) : m_keeps R (ret a).
Proof. intros s. simpl. reflexivity. Qed.

Lemma keeps_liftR A (r : result A) : m_keeps R (liftR r).
Proof. intros s. simpl. reflexivity. Qed.

Lemma keeps_raise A e : m_keeps R (@raise S A e).
Proof. intros s. simpl. reflexivity. Qed.

Lemma keeps_bind A B (m : M S A) (k : A -> M S B) :
  m_keeps R m -> (forall a, m_keeps R (k a)) -> m_keeps R (bind m k).
Proof.
  intros Hm Hk s. unfold bind. specialize (Hm s).
  destruct (m s) as [[e|a] s1]; simpl in *; [exact Hm|].
  etransitivity; [exact Hm | apply Hk].
Qed.

Lemma keeps_try_except A (m : M S A) (h : exn -> M S A) :
  m_keeps R m -> (forall e, m_keeps R (h e)) -> m_keeps R (try_except m h).
Proof.
  intros Hm Hh s. unfold try_except. specialize (Hm s).
  destruct (m s) as [[e|a] s1]; simpl in *; [|exact Hm].
  etransitivity; [exact Hm | apply Hh].
Qed.

Lemma keeps_for_each A X (body : A -> X -> M S A) l :
  (forall a x, m_keeps R (body a x)) -> forall a, m_keeps R (for_each body l a).
Proof.
  intros Hb. induction l as [|x l IH]; intros a; simpl.
  - apply keeps_ret.
  - apply keeps_bind; [apply Hb | exact IH].
Qed.

Lemma keeps_lift O A (m : M S A) :
  m_keeps R m -> m_keeps (on_state (O := O) R) (lift m).
Proof.
  intros Hm [o s]. unfold lift, on_state. simpl. specialize (Hm s).
  destruct (m s) as [r s1]. exact Hm.
Qed.

Lemma keeps_get_obj O : m_keeps (on_state (O := O) R) get_obj.
Proof. intros [o s]. unfold on_state. simpl. reflexivity. Qed.

Lemma keeps_put_obj O (o : O) : m_keeps (on_state R) (put_obj o).
Proof. intros [o' s]. unfold on_state. simpl. reflexivity. Qed.

#[local] Instance on_state_preorder O : PreOrder (on_state (O := O) R).
Proof.
  split.
  - intros [o s]. unfold on_state. reflexivity.
  - intros [o1 s1] [o2 s2] [o3 s3]. unfold on_state. simpl. intros H1 H2.
    etransitivity; eassumption.
Qed.

End Keeps.

#[local] Instance within_preorder repr : PreOrder (within repr).
Proof.
  split.
  - intros st. exists []. split; [now rewrite app_nil_r|]. split; [reflexivity|].
    constructor.
  - intros a b c (w1 & Hw1 & Hk1 & Hf1) (w2 & Hw2 & Hk2 & Hf2).
    exists (w1 ++ w2)%list. split; [now rewrite Hw2, Hw1, app_assoc|].
    split; [now rewrite Hk2|].
    apply Forall_app. split; [exact Hf1|]. now rewrite <- Hk1.
Qed.

#[local] Existing Instance on_state_preorder.

Lemma keeps_print repr l : m_keeps (within repr) (print l).
Proof.
  intros st. exists []. simpl. split; [now rewrite app_nil_r|].
  split; [reflexivity | constructor].
Qed.

Lemma keeps_get_cache repr : m_keeps (within repr) get_cache.
Proof. intros st. simpl. reflexivity. Qed.

Lemma keeps_set_cache repr checks : m_keeps (within repr) (set_cache checks).
Proof.
  intros st. exists []. simpl. split; [now rewrite app_nil_r|].
  split; [reflexivity | constructor].
Qed.

Lemma keeps_api_call repr server m url params :
  (forall key, traffic repr key (request (init key) m url params)) ->
  m_keeps (within repr) (api_call server m url params).
Proof.
  intros Ht st. unfold api_call.
  exists [(request (self st) m url params,
           server (wire st) (request (self st) m url params))].
  destruct (server (wire st) (request (self st) m url params)); simpl;
    (split; [reflexivity|]; split; [reflexivity|]; constructor; [|constructor]);
    exact (Ht (api_key (self st))).
Qed.

Ltac preorder :=
  try match goal with
      | |- PreOrder _ => typeclasses eauto
      end.

Ltac keeps_steps :=
  repeat first
    [ apply keeps_bind; preorder; [|intros ?]
    | apply keeps_for_each; preorder; intros ? ?
    | apply keeps_try_except; preorder; [|intros ?]
    | apply keeps_ret; preorder
    | apply keeps_raise; preorder
    | apply keeps_liftR; preorder
    | apply keeps_print
    | apply keeps_get_cache
    | apply keeps_set_cache
    | apply keeps_lift
    | apply keeps_get_obj; preorder
    | apply keeps_put_obj; preorder
    | match goal with
      | |- m_keeps _ (if ?b then _ else _) => destruct b
      | |- m_keeps _ (match ?x with _ => _ end) => destruct x
      end ].

Lemma keeps_get_checks repr json_loads server cache :
  m_keeps (within repr) (get_checks json_loads server cache).
Proof.
  unfold get_checks, fetch_checks, api_get. keeps_steps.
  all: apply keeps_api_call; intros key; left; reflexivity.
Qed.

Lemma keeps_find_matching_checks json_loads repr server host tags :
  m_keeps (within repr) (find_matching_checks json_loads repr server host tags).
Proof.
  unfold find_matching_checks.
  apply keeps_bind; preorder; [apply keeps_get_checks | intros checks].
  unfold match_check, api_get. keeps_steps.
  all: apply keeps_api_call; intros key; right; left; eexists; reflexivity.
Qed.

Lemma keeps_create_branch repr server host check :
  m_keeps (within repr) (create_branch repr server host check).
Proof.
  unfold create_branch, create_check, api_post. keeps_steps.
  all: apply keeps_api_call; intros key; right; right; left; eexists; reflexivity.
Qed.

Lemma keeps_update_branch repr server host matches error :
  m_keeps (on_state (within repr)) (update_branch repr server host matches error).
Proof.
  unfold update_branch, update_loop, update_check, api_put. keeps_steps.
  all: apply keeps_api_call; intros key; right; right; right;
    eexists; eexists; reflexivity.
Qed.

Lemma keeps_process_check json_loads repr server tag teams integrations default
      error check :
  m_keeps (within repr)
          (process_check json_loads repr server tag teams integrations default
                         error check).
Proof.
  unfold process_check.
  apply keeps_bind; preorder; [apply keeps_liftR; preorder | intros c1].
  apply keeps_bind; preorder; [apply keeps_liftR; preorder | intros host].
  apply keeps_bind; preorder; [apply keeps_liftR; preorder | intros c2].
  apply keeps_bind; preorder; [apply keeps_find_matching_checks | intros ms].
  destruct ms as [|m ms].
  - apply keeps_bind; preorder; [apply keeps_create_branch | intros _; apply keeps_ret; preorder].
  - intros st. unfold with_obj.
    pose proof (@keeps_update_branch repr server host (m :: ms) error (c2, st)) as H.
    unfold on_state in H.
    destruct (update_branch repr server host (m :: ms) error (c2, st))
      as [r [o s1]].
    exact H.
Qed.

Lemma keeps_main json_loads repr server cfg :
  m_keeps (within repr) (main json_loads repr server cfg).
Proof.
  unfold main, process_configuration_yaml, process_checks.
  apply keeps_try_except; preorder; [|intros e; keeps_steps].
  apply keeps_bind; preorder; [apply keeps_liftR; preorder | intros c].
  apply keeps_bind; preorder; [|intros _; apply keeps_ret; preorder].
  apply keeps_bind; preorder;
    [apply keeps_liftR; preorder | intros [[[[tag teams] ints] default] checks]].
  apply keeps_bind; preorder.
  - apply keeps_for_each; preorder. intros error check. apply keeps_process_check.
  - intros [|]; [apply keeps_raise | apply keeps_ret]; preorder.
Qed.

(** X9.  The traffic of a run.  Whatever the document and the remote
    service, the main block only adds requests to those made before, each
    of them one of four: the listing [GET /checks], a detail
    [GET /checks/<id>], a creation [POST /checks] with a body, an update
    [PUT /checks/<id>] with a body.  So no run deletes a check, every URL
    lies under the API base, every request carries the [Authorization]
    header with [Bearer] and the key, and the key is never changed. *)
Theorem run_traffic json_loads repr server cfg st :
  let st' := snd (main json_loads repr server cfg st) in
  let key := api_key (self st) in
  exists w,
    wire st' = (wire st ++ w)%list /\
    api_key (self st') = key /\
    Forall (fun x => traffic repr key (fst x)) w /\
    Forall (fun x =>
              rq_method (fst x) <> DELETE /\
              rq_headers (fst x) = [("Authorization", "Bearer " ++ key)] /\
              exists path,
                rq_url (fst x) = "https://api.pingdom.com/api/3.1/" ++ path) w.
Proof.
  cbv zeta.
  destruct (@keeps_main json_loads repr server cfg st) as (w & Hw & Hk & Hf).
  exists w. split; [exact Hw|]. split; [exact Hk|]. split; [exact Hf|].
  eapply Forall_impl; [|exact Hf]. intros [rq rp]. simpl.
  intros [-> | [[id ->] | [[body ->] | (id & body & ->)]]];
    (split; [discriminate|]; split; [reflexivity|]);
    unfold checks_request, detail_request, create_request, update_request,
      request, rq_url, get_api_endpoint_url;
    eexists; reflexivity.
Qed.

(** *** The endpoint URL *)

Lemma lower_app a b : Str.lower (a ++ b) = Str.lower a ++ Str.lower b.
Proof. induction a as [|x a IH]; simpl; [reflexivity | now rewrite IH]. Qed.

Lemma lower_length s : String.length (Str.lower s) = String.length s.
Proof. induction s as [|x s IH]; simpl; [reflexivity | now rewrite IH]. Qed.

Lemma prefix_app a b : String.prefix a (a ++ b) = true.
Proof.
  induction a as [|x a IH]; simpl; [now destruct b|].
  destruct (ascii_dec x x) as [_|Hx]; [exact IH | now elim Hx].
Qed.

Lemma drop_app a b : Str.drop (String.length a) (a ++ b) = b.
Proof. induction a as [|x a IH]; simpl; [reflexivity | exact IH]. Qed.

Lemma lstrip_idem c s : Str.lstrip c (Str.lstrip c s) = Str.lstrip c s.
Proof.
  induction s as [|a s IH]; simpl; [reflexivity|].
  destruct (Ascii.eqb a c) eqn:E; [exact IH|]. simpl. now rewrite E.
Qed.

Lemma lstrip_head c s r : Str.lstrip c s <> String c r.
Proof.
  induction s as [|a s IH]; simpl; [discriminate|].
  destruct (Ascii.eqb a c) eqn:E; [exact IH|].
  intros H. inversion H; subst. now rewrite Ascii.eqb_refl in E.
Qed.

(** the URL a caller gives with the base in front, in any case *)
Lemma endpoint_of_absolute b p :
  Str.lower b = Str.lower PINGDOM_API_URL ->
  get_api_endpoint_url (b ++ p)
  = PINGDOM_API_URL ++ "/" ++ Str.lstrip "/"%char p.
Proof.
  intros H. unfold get_api_endpoint_url, Str.startswith.
  rewrite lower_app, <- H, prefix_app.
  assert (Hl : String.length PINGDOM_API_URL = String.length b).
  { now rewrite <- (lower_length b), H, lower_length. }
  now rewrite Hl, drop_app.
Qed.

(** X10.  The endpoint URL.  A URL given with the API base in front, in
    any letter case, and a path given alone lead to the same endpoint: the
    base is cut off by its length (whatever follows it, a slash or not),
    leading slashes of the rest are dropped and the base and one slash are
    put in front.  The result never has a second slash after the base, and
    normalising a URL twice changes nothing. *)
Theorem endpoint_url_normalised :
  (forall b p,
      Str.lower b = Str.lower PINGDOM_API_URL ->
      get_api_endpoint_url (b ++ p)
      = "https://api.pingdom.com/api/3.1/" ++ Str.lstrip "/"%char p) /\
  (forall u,
      exists rest,
        get_api_endpoint_url u = "https://api.pingdom.com/api/3.1/" ++ rest /\
        forall r, rest <> String "/"%char r) /\
  (forall u, get_api_endpoint_url (get_api_endpoint_url u) = get_api_endpoint_url u).
Proof.
  assert (Hbase : forall s, PINGDOM_API_URL ++ "/" ++ s
                            = "https://api.pingdom.com/api/3.1/" ++ s)
    by reflexivity.
  split; [|split].
  - intros b p H. rewrite (endpoint_of_absolute _ p H). apply Hbase.
  - intros u. unfold get_api_endpoint_url.
    eexists. split; [apply Hbase | apply lstrip_head].
  - intros u.
    assert (H : exists rest, get_api_endpoint_url u
                             = PINGDOM_API_URL ++ String "/"%char rest /\
                             Str.lstrip "/"%char rest = rest).
    { unfold get_api_endpoint_url. eexists. split; [reflexivity|].
      apply lstrip_idem. }
    destruct H as (rest & -> & Hrest).
    rewrite (@endpoint_of_absolute PINGDOM_API_URL (String "/"%char rest) eq_refl).
    cbn [Str.lstrip]. rewrite Ascii.eqb_refl, Hrest. reflexivity.
Qed.

Lemma endpoint_url_normalised_witness :
  get_api_endpoint_url ("HTTPS://API.PINGDOM.COM/API/3.1" ++ "//checks/7")
  = "https://api.pingdom.com/api/3.1/" ++ Str.lstrip "/"%char "//checks/7" /\
  get_api_endpoint_url "/checks/7" = "https://api.pingdom.com/api/3.1/checks/7".
Proof.
  split; [|reflexivity].
  destruct endpoint_url_normalised as [H _].
  apply (H "HTTPS://API.PINGDOM.COM/API/3.1" "//checks/7"). reflexivity.
Defined.

(** *** One round of the reconciliation loop *)

(** a round whose check resolves is the lookup followed by one of the two
    branches *)
Lemma process_check_resolved json_loads repr server tag teams integrations default
      error check c1 host c2 st :
  populate_defaults default check = Ok c1 ->
  Py.getitem c1 (VStr "host") = Ok host ->
  resolve repr tag teams integrations c1 = Ok c2 ->
  process_check json_loads repr server tag teams integrations default error check st
  = (matches <- find_matching_checks json_loads repr server host (Some [tag]) ;;
     match matches with
     | [] => create_branch repr server host c2 ;;; ret error
     | _ =>
         fun st =>
           let '((r, _), st') :=
             with_obj c2 (update_branch repr server host matches error) st in
           (r, st')
     end) st.
Proof.
  intros Hp Hh Hr. unfold process_check.
  unfold bind at 1, liftR at 1. rewrite Hp. unfold Ok at 1. cbv beta iota.
  unfold bind at 1, liftR at 1. rewrite Hh. unfold Ok at 1. cbv beta iota.
  unfold bind at 1, liftR at 1. rewrite Hr. unfold Ok at 1. cbv beta iota.
  reflexivity.
Qed.

(** X11.  A failed listing ends the run.  When the listing is not cached
    and its request fails (the library raises, or the status is not 200),
    the first declared check that resolves makes the loop raise the
    listing's exception: one request was made, nothing was printed, nothing
    was created or updated, and the remaining checks were not looked at. *)
Theorem failed_listing_aborts_run json_loads repr server tag teams integrations
        default check rest c1 host c2 e st :
  get_checks_cache (self st) = None ->
  call_outcome (server (wire st) (checks_request (self st))) = Err e ->
  populate_defaults default check = Ok c1 ->
  Py.getitem c1 (VStr "host") = Ok host ->
  resolve repr tag teams integrations c1 = Ok c2 ->
  process_checks json_loads repr server tag teams integrations default
                 (check :: rest) st
  = (Err e,
     exchanged st (checks_request (self st))
               (server (wire st) (checks_request (self st)))).
Proof.
  intros Hc Ho Hp Hh Hr.
  unfold process_checks. cbn [for_each].
  unfold bind at 1. unfold bind at 1.
  rewrite (@process_check_resolved json_loads repr server tag teams integrations
             default false check c1 host c2 st Hp Hh Hr).
  unfold bind at 1. unfold find_matching_checks. unfold bind at 1.
  destruct (get_checks_cases json_loads server true st)
    as [(checks & _ & Hs & _) | [_ ->]]; [congruence|].
  rewrite fetch_checks_eq. cbv zeta.
  destruct (server (wire st) (checks_request (self st))) as [r|d]; simpl in Ho.
  - destruct (negb (status_code r =? 200)); [|discriminate Ho].
    inversion Ho. reflexivity.
  - inversion Ho. reflexivity.
Qed.

Lemma failed_listing_aborts_run_witness :
  process_checks Sample.json_loads Sample.repr Sample.down
                 (VStr "t") (VDict []) (VDict []) VNone
                 [Sample.declared "n" "h.example"; VInt 0] Sample.st0
  = (Err (ExceptionBytes "down"),
     exchanged Sample.st0 (checks_request (self Sample.st0))
               (Sample.down [] (checks_request (self Sample.st0)))).
Proof.
  apply (@failed_listing_aborts_run
           Sample.json_loads Sample.repr Sample.down
           (VStr "t") (VDict []) (VDict []) VNone
           (Sample.declared "n" "h.example") [VInt 0]
           (Sample.declared "n" "h.example") (VStr "h.example")
           (Sample.declared "n" "h.example")
           (ExceptionBytes "down") Sample.st0);
    reflexivity.
Defined.

(** X12.  A declared check without a host candidate is created.  When the
    listing is cached and none of its checks has the host of the declared
    check, the round sends no detail request: it prints the creation line
    and posts the check as identity resolution left it, once.  The round
    returns the error flag as it was, whatever the reply; a failed creation
    only adds the warning and the exception to the output. *)
Theorem unmatched_check_is_created json_loads repr server tag teams integrations
        default error check c1 host c2 checks st :
  get_checks_cache (self st) = Some checks ->
  Forall (fun c => Py.is_dict c = true) checks ->
  populate_defaults default check = Ok c1 ->
  Py.getitem c1 (VStr "host") = Ok host ->
  resolve repr tag teams integrations c1 = Ok c2 ->
  candidates (Str.lower (format repr host)) checks = [] ->
  let rq := create_request (self st) c2 in
  let rp := server (wire st) rq in
  process_check json_loads repr server tag teams integrations default error check st
  = (Ok error,
     {| self := self st;
        wire := (wire st ++ [(rq, rp)])%list;
        stdout := (stdout st ++
                   Line ("Creating Check: " ++ format repr host) ::
                   match call_outcome rp with
                   | inl e => [Line "WARNING: Failed to create Pingdom health check";
                               ExnLine e]
                   | inr _ => []
                   end)%list |}).
Proof.
  intros Hc Hd Hp Hh Hr Hn. cbv zeta.
  rewrite (@process_check_resolved json_loads repr server tag teams integrations
             default error check c1 host c2 st Hp Hh Hr).
  unfold bind at 1. unfold find_matching_checks. unfold bind at 1.
  rewrite (@get_checks_cached json_loads server checks st Hc).
  unfold Ok at 1. cbv beta iota.
  unfold bind at 1, liftR at 1.
  rewrite (@host_candidates_dicts (Str.lower (format repr host)) checks Hd), Hn.
  unfold Ok at 1, ret at 1. cbv beta iota.
  unfold bind at 1. unfold Ok at 1. cbv beta iota.
  pose proof (@create_branch_eq repr server host c2 st) as E. cbv zeta in E.
  rewrite E. reflexivity.
Qed.

Lemma unmatched_check_is_created_witness :
  process_check Sample.json_loads Sample.repr Sample.server
                (VStr "t") (VDict []) (VDict []) VNone false
                (Sample.declared "n" "new.example")
                (with_cache Sample.st0 [Sample.c1; Sample.c3])
  = (Ok false,
     {| self := self (with_cache Sample.st0 [Sample.c1; Sample.c3]);
        wire := [(create_request (self Sample.st0)
                    (VDict [("name", VStr "n"); ("host", VStr "new.example")]),
                  Reply {| status_code := 503; content := "create refused" |})];
        stdout := [Line "Creating Check: new.example";
                   Line "WARNING: Failed to create Pingdom health check";
                   ExnLine (ExceptionBytes "create refused")] |}).
Proof.
  apply (@unmatched_check_is_created
           Sample.json_loads Sample.repr Sample.server
           (VStr "t") (VDict []) (VDict []) VNone false
           (Sample.declared "n" "new.example")
           (Sample.declared "n" "new.example") (VStr "new.example")
           (Sample.declared "n" "new.example")
           [Sample.c1; Sample.c3]
           (with_cache Sample.st0 [Sample.c1; Sample.c3]));
    try reflexivity.
  repeat constructor.
Defined.

(** *** The requests of the tag filter *)

(** one round of the second loop of the matcher: it raises before it sends
    anything when the candidate has no [id], and otherwise asks for the
    detail of the candidate *)
Lemma match_check_step json_loads repr server tags matches check st r st' :
  match_check json_loads repr server tags matches check st = (r, st') ->
  (exists e, Py.getitem check (VStr "id") = Err e /\ r = Err e /\ st' = st) \/
  (exists id,
      Py.getitem check (VStr "id") = Ok id /\
      st' = exchanged st (detail_request repr (self st) id)
                      (server (wire st) (detail_request repr (self st) id)) /\
      forall ms,
        r = Ok ms ->
        failed (server (wire st) (detail_request repr (self st) id)) = false /\
        (ms = matches \/ ms = (matches ++ [check])%list)).
Proof.
  unfold match_check. intros H.
  apply bind_inv in H. destruct H as [(id & s1 & H1 & H)|(e & H1 & ->)];
    apply liftR_inv in H1; destruct H1 as [Hid ->].
  2:{ left. exists e. repeat split. now symmetry. }
  right. exists id. split; [now symmetry|].
  apply bind_inv in H. destruct H as [(resp & s1 & H1 & H)|(e & H1 & ->)];
    apply api_call_effect in H1; destruct H1 as (rq & rp & Hrq & Hrp & -> & Hr).
  2:{ subst rp rq. split; [reflexivity | intros ms Hms; discriminate]. }
  change (request (self st) GET ("/checks/" ++ format repr id) None)
    with (detail_request repr (self st) id) in Hrq.
  subst rq.
  destruct (negb (status_code resp =? 200)) eqn:Hs.
  { unfold raise in H. inversion H; subst r st'. subst rp.
    split; [reflexivity | intros ms Hms; discriminate]. }
  apply bind_inv in H. destruct H as [(json & s1 & H1 & H)|(e & H1 & ->)];
    apply liftR_inv in H1; destruct H1 as [Hj Hs1]; subst.
  2:{ split; [reflexivity | intros ms Hms; discriminate]. }
  apply liftR_inv in H. destruct H as [-> ->].
  split; [reflexivity|].
  intros ms Hms. split.
  - rewrite Hr. simpl. exact Hs.
  - now apply match_detail_result in Hms.
Qed.

Lemma match_loop_requests json_loads repr server tags found :
  forall matches st r st',
    for_each (match_check json_loads repr server tags) found matches st = (r, st') ->
    exists w ids,
      wire st' = (wire st ++ w)%list /\
      self st' = self st /\ stdout st' = stdout st /\
      ids_of (firstn (List.length w) found) ids /\
      map fst w = map (detail_request repr (self st)) ids /\
      (forall ms,
          r = Ok ms ->
          List.length w = List.length found /\ all_succeeded w = true /\
          forall m, In m ms -> In m matches \/ In m found).
Proof.
  induction found as [|c found IH]; intros matches st r st' H.
  - simpl in H. unfold ret in H. inversion H; subst.
    exists [], []. rewrite app_nil_r.
    split; [reflexivity|]. split; [reflexivity|]. split; [reflexivity|].
    split; [constructor|]. split; [reflexivity|].
    intros ms Hms. inversion Hms; subst.
    split; [reflexivity|]. split; [reflexivity|]. intros m Hm. now left.
  - cbn [for_each] in H.
    apply bind_inv in H. destruct H as [(ms1 & s1 & H1 & H)|(e & H1 & ->)];
      apply match_check_step in H1.
    + destruct H1 as [(e & _ & He & _) | (id & Hid & -> & Hok)]; [discriminate|].
      destruct (Hok ms1 eq_refl) as [Hf Hms1].
      apply IH in H. destruct H as (w & ids & Hw & Hself & Hout & Hids & Hrq & Hr).
      simpl in Hw, Hself, Hout, Hrq.
      exists ((detail_request repr (self st) id,
               server (wire st) (detail_request repr (self st) id)) :: w),
             (id :: ids).
      split; [now rewrite Hw, <- app_assoc|].
      split; [exact Hself|]. split; [exact Hout|].
      split; [simpl; constructor; assumption|].
      split; [simpl; now rewrite Hrq|].
      intros ms Hms. destruct (Hr ms Hms) as (Hl & Hall & Hin).
      split; [simpl; now rewrite Hl|].
      split; [simpl; now rewrite Hf, Hall|].
      intros m Hm. destruct (Hin m Hm) as [Hm1 | Hm1]; [|right; now right].
      destruct Hms1 as [-> | ->]; [now left|].
      apply in_app_or in Hm1. destruct Hm1 as [Hm1 | [<- | []]];
        [now left | right; now left].
    + destruct H1 as [(e' & _ & _ & ->) | (id & Hid & -> & _)].
      * exists [], []. rewrite app_nil_r.
        split; [reflexivity|]. split; [reflexivity|]. split; [reflexivity|].
        split; [constructor|]. split; [reflexivity|].
        intros ms Hms. discriminate.
      * exists [(detail_request repr (self st) id,
                 server (wire st) (detail_request repr (self st) id))], [id].
        split; [reflexivity|]. split; [reflexivity|]. split; [reflexivity|].
        split; [simpl; constructor; [exact Hid | constructor]|].
        split; [reflexivity|].
        intros ms Hms. discriminate.
Qed.

(** X13.  The requests of the tag filter.  With the listing cached, a
    lookup with tags asks for the detail of the host candidates one by one,
    in their order and once per occurrence (a check met under [host] and
    under [hostname] is asked for twice), and for nothing else; it changes
    neither the client nor the output.  When it returns, every candidate
    was asked for, every request succeeded and the matches are among the
    candidates; when it raises, the requests are those of the candidates up
    to the one that failed. *)
Theorem detail_requests_follow_candidates json_loads repr server host tag tags
        checks st r st' :
  get_checks_cache (self st) = Some checks ->
  Forall (fun c => Py.is_dict c = true) checks ->
  find_matching_checks json_loads repr server host (Some (tag :: tags)) st
  = (r, st') ->
  let found := candidates (Str.lower (format repr host)) checks in
  exists w ids,
    wire st' = (wire st ++ w)%list /\
    self st' = self st /\ stdout st' = stdout st /\
    ids_of (firstn (List.length w) found) ids /\
    map fst w = map (detail_request repr (self st)) ids /\
    (forall ms,
        r = Ok ms ->
        List.length w = List.length found /\ all_succeeded w = true /\
        forall m, In m ms -> In m found).
Proof.
  intros Hc Hd H. cbv zeta.
  unfold find_matching_checks in H. unfold bind at 1 in H.
  rewrite (@get_checks_cached json_loads server checks st Hc) in H.
  unfold Ok at 1 in H. cbv beta iota in H.
  unfold bind at 1, liftR at 1 in H.
  rewrite (@host_candidates_dicts (Str.lower (format repr host)) checks Hd) in H.
  unfold Ok at 1 in H. cbv beta iota in H.
  destruct (candidates (Str.lower (format repr host)) checks) as [|c found] eqn:Ef.
  - unfold ret in H. inversion H; subst.
    exists [], []. rewrite app_nil_r.
    split; [reflexivity|]. split; [reflexivity|]. split; [reflexivity|].
    split; [constructor|]. split; [reflexivity|].
    intros ms Hms. inversion Hms; subst.
    split; [reflexivity|]. split; [reflexivity|]. intros m [].
  - apply match_loop_requests in H.
    destruct H as (w & ids & Hw & Hself & Hout & Hids & Hrq & Hr).
    exists w, ids.
    split; [exact Hw|]. split; [exact Hself|]. split; [exact Hout|].
    split; [exact Hids|]. split; [exact Hrq|].
    intros ms Hms. destruct (Hr ms Hms) as (Hl & Hall & Hin).
    split; [exact Hl|]. split; [exact Hall|].
    intros m Hm. destruct (Hin m Hm) as [[] | Hm1]. exact Hm1.
Qed.

Lemma detail_requests_follow_candidates_witness :
  let st := with_cache Sample.st0
                       [Sample.c1; Sample.c2; Sample.c3; Sample.c4; Sample.c5] in
  exists st',
    find_matching_checks Sample.json_loads Sample.repr Sample.server
                         (VStr "dup.net") (Some [VStr "a"]) st
    = (Ok [Sample.c4; Sample.c4], st') /\
    map fst (wire st')
    = [detail_request Sample.repr (self st) (VInt 4);
       detail_request Sample.repr (self st) (VInt 4)].
Proof.
  cbv zeta.
  destruct (find_matching_checks Sample.json_loads Sample.repr Sample.server
              (VStr "dup.net") (Some [VStr "a"])
              (with_cache Sample.st0
                 [Sample.c1; Sample.c2; Sample.c3; Sample.c4; Sample.c5]))
    as [r st'] eqn:E.
  exists st'.
  destruct (@detail_requests_follow_candidates
              Sample.json_loads Sample.repr Sample.server (VStr "dup.net")
              (VStr "a") []
              [Sample.c1; Sample.c2; Sample.c3; Sample.c4; Sample.c5]
              (with_cache Sample.st0
                 [Sample.c1; Sample.c2; Sample.c3; Sample.c4; Sample.c5])
              r st' eq_refl)
    as (w & ids & Hw & _).
  - repeat constructor.
  - exact E.
  - vm_compute in E. inversion E. split; reflexivity.
Defined.

(** *** The listing is asked for once *)

Lemma listings_app (w1 w2 : exchanges) :
  listings (w1 ++ w2)%list = (listings w1 + listings w2)%nat.
Proof. unfold listings. now rewrite filter_app, length_app. Qed.

#[local] Instance quiet_preorder : PreOrder quiet.
Proof.
  split.
  - intros st. exists []. rewrite app_nil_r. repeat split.
  - intros a b c (w1 & Hw1 & Hl1 & Hc1) (w2 & Hw2 & Hl2 & Hc2).
    exists (w1 ++ w2)%list. split; [now rewrite Hw2, Hw1, app_assoc|].
    split; [now rewrite listings_app, Hl1, Hl2|].
    now rewrite Hc2.
Qed.

Lemma quiet_print l : m_keeps quiet (print l).
Proof. intros st. exists []. simpl. rewrite app_nil_r. repeat split. Qed.

Lemma quiet_api_call server m url params :
  (forall p, is_listing (request p m url params) = false) ->
  m_keeps quiet (api_call server m url params).
Proof.
  intros Hn st. unfold api_call.
  exists [(request (self st) m url params,
           server (wire st) (request (self st) m url params))].
  destruct (server (wire st) (request (self st) m url params)); simpl;
    (split; [reflexivity|]; split; [|reflexivity]);
    unfold listings; simpl; now rewrite Hn.
Qed.

Lemma detail_is_no_listing p path params :
  is_listing (request p GET ("/checks/" ++ path) params) = false.
Proof. reflexivity. Qed.

Lemma once_of_quiet A (m : M St A) : m_keeps quiet m -> once m.
Proof.
  intros Hm st r st' H. specialize (Hm st). rewrite H in Hm. simpl in Hm.
  destruct Hm as (w & Hw & Hl & Hc). exists w. split; [exact Hw|].
  rewrite Hc. destruct (get_checks_cache (self st)); [now split | left; now split].
Qed.

Lemma once_bind A B (m : M St A) (k : A -> M St B) :
  once m -> (forall a, once (k a)) -> once (bind m k).
Proof.
  intros Hm Hk st r st' H.
  apply bind_inv in H. destruct H as [(a & s1 & H1 & H)|(e & H1 & ->)].
  - apply Hm in H1. apply Hk in H.
    destruct H1 as (w1 & Hw1 & H1). destruct H as (w2 & Hw2 & H2).
    exists (w1 ++ w2)%list. split; [now rewrite Hw2, Hw1, app_assoc|].
    rewrite listings_app.
    destruct (get_checks_cache (self st)) as [c|].
    + destruct H1 as [Hl1 Hc1]. rewrite Hc1 in H2. destruct H2 as [Hl2 Hc2].
      split; [now rewrite Hl1, Hl2 | exact Hc2].
    + destruct H1 as [[Hl1 Hc1] | [Hl1 [Hc1 | [e He]]]]; [| |discriminate He].
      * rewrite Hc1 in H2. rewrite Hl1. exact H2.
      * destruct (get_checks_cache (self s1)) as [c|]; [|now elim Hc1].
        destruct H2 as [Hl2 Hc2]. right.
        split; [now rewrite Hl1, Hl2|]. left. now rewrite Hc2.
  - apply Hm in H1. destruct H1 as (w & Hw & H1).
    exists w. split; [exact Hw|].
    destruct (get_checks_cache (self st)) as [c|]; [exact H1|].
    destruct H1 as [H1 | [Hl _]]; [now left|].
    right. split; [exact Hl|]. right. eexists; reflexivity.
Qed.

Lemma once_ret A (a : A) : once (@ret St A a).
Proof. apply once_of_quiet. apply keeps_ret. typeclasses eauto. Qed.

Lemma once_liftR A (r : result A) : once (@liftR St A r).
Proof. apply once_of_quiet. apply keeps_liftR. typeclasses eauto. Qed.

Lemma once_raise A e : once (@raise St A e).
Proof. apply once_of_quiet. apply keeps_raise. typeclasses eauto. Qed.

Lemma once_for_each A X (body : A -> X -> M St A) l :
  (forall a x, once (body a x)) -> forall a, once (for_each body l a).
Proof.
  intros Hb. induction l as [|x l IH]; intros a; simpl.
  - apply once_ret.
  - apply once_bind; [apply Hb | exact IH].
Qed.

Lemma once_get_checks json_loads server : once (get_checks json_loads server true).
Proof.
  intros st r st' H.
  destruct (get_checks_cases json_loads server true st)
    as [(checks & _ & Hs & E) | [[Hf | Hn] E]]; [|discriminate Hf|].
  - rewrite E in H. inversion H; subst. exists []. rewrite app_nil_r.
    split; [reflexivity|]. rewrite Hs. now split.
  - rewrite E, fetch_checks_eq in H. cbv zeta in H. rewrite Hn.
    exists [(checks_request (self st),
             server (wire st) (checks_request (self st)))].
    assert (Hl : listings [(checks_request (self st),
                            server (wire st) (checks_request (self st)))] = 1%nat)
      by reflexivity.
    destruct (server (wire st) (checks_request (self st))) as [resp|d].
    + destruct (negb (status_code resp =? 200)).
      { inversion H; subst. split; [reflexivity|]. right.
        split; [exact Hl|]. right. eexists; reflexivity. }
      destruct (loads json_loads (content resp)) as [e|json].
      { inversion H; subst. split; [reflexivity|]. right.
        split; [exact Hl|]. right. eexists; reflexivity. }
      destruct (checks_of_json json) as [e|checks].
      { inversion H; subst. split; [reflexivity|]. right.
        split; [exact Hl|]. right. eexists; reflexivity. }
      inversion H; subst. split; [reflexivity|]. right.
      split; [exact Hl|]. left. discriminate.
    + inversion H; subst. split; [reflexivity|]. right.
      split; [exact Hl|]. right. eexists; reflexivity.
Qed.

Ltac quiet_steps :=
  repeat first
    [ apply keeps_bind; preorder; [|intros ?]
    | apply keeps_for_each; preorder; intros ? ?
    | apply keeps_try_except; preorder; [|intros ?]
    | apply keeps_ret; preorder
    | apply keeps_raise; preorder
    | apply keeps_liftR; preorder
    | apply quiet_print
    | apply keeps_lift
    | apply keeps_get_obj; preorder
    | apply keeps_put_obj; preorder
    | apply quiet_api_call; intros ?; reflexivity
    | match goal with
      | |- m_keeps _ (if ?b then _ else _) => destruct b
      | |- m_keeps _ (match ?x with _ => _ end) => destruct x
      end ].

Lemma once_find_matching_checks json_loads repr server host tags :
  once (find_matching_checks json_loads repr server host tags).
Proof.
  unfold find_matching_checks.
  apply once_bind; [apply once_get_checks | intros checks].
  apply once_of_quiet. unfold match_check, api_get. quiet_steps.
Qed.

Lemma quiet_create_branch repr server host check :
  m_keeps quiet (create_branch repr server host check).
Proof. unfold create_branch, create_check, api_post. quiet_steps. Qed.

Lemma quiet_update_branch repr server host matches error :
  m_keeps (on_state quiet) (update_branch repr server host matches error).
Proof.
  unfold update_branch, update_loop, update_check, api_put. quiet_steps.
Qed.

Lemma once_process_check json_loads repr server tag teams integrations default
      error check :
  once (process_check json_loads repr server tag teams integrations default
                      error check).
Proof.
  unfold process_check.
  apply once_bind; [apply once_liftR | intros c1].
  apply once_bind; [apply once_liftR | intros host].
  apply once_bind; [apply once_liftR | intros c2].
  apply once_bind; [apply once_find_matching_checks | intros ms].
  apply once_of_quiet.
  destruct ms as [|m ms].
  - apply keeps_bind; preorder;
      [apply quiet_create_branch | intros _; apply keeps_ret; preorder].
  - intros st. unfold with_obj.
    pose proof (@quiet_update_branch repr server host (m :: ms) error (c2, st)) as H.
    unfold on_state in H.
    destruct (update_branch repr server host (m :: ms) error (c2, st))
      as [r [o s1]].
    exact H.
Qed.

Lemma once_process_configuration_yaml json_loads repr server cfg :
  once (process_configuration_yaml json_loads repr server cfg).
Proof.
  unfold process_configuration_yaml, process_checks.
  apply once_bind; [apply once_liftR | intros [[[[tag teams] ints] default] checks]].
  apply once_bind.
  - apply once_for_each. intros error check. apply once_process_check.
  - intros [|]; [apply once_raise | apply once_ret].
Qed.

(** X14.  The listing is asked for at most once in a run.  Whatever the
    document and the remote service, the requests the main block adds
    contain the listing [GET /checks] at most once, and not at all when the
    client holds a cached listing: the first lookup fills the cache or ends
    the run, and nothing empties the cache. *)
Theorem listing_requested_at_most_once json_loads repr server cfg st :
  let st' := snd (main json_loads repr server cfg st) in
  exists w,
    wire st' = (wire st ++ w)%list /\
    (listings w <= 1)%nat /\
    (get_checks_cache (self st) <> None ->
     listings w = 0%nat /\ get_checks_cache (self st') = get_checks_cache (self st)).
Proof.
  cbv zeta. unfold main, try_except.
  destruct ((configuration <- liftR (validate_configuration_yaml repr cfg) ;;
             process_configuration_yaml json_loads repr server configuration ;;;
             ret 0) st) as [r s1] eqn:E.
  assert (Ho : once (configuration <- liftR (validate_configuration_yaml repr cfg) ;;
                     process_configuration_yaml json_loads repr server configuration ;;;
                     ret 0)).
  { apply once_bind; [apply once_liftR | intros c].
    apply once_bind; [apply once_process_configuration_yaml | intros _].
    apply once_ret. }
  apply Ho in E. destruct E as (w & Hw & Hc).
  assert (Hs : wire (snd (match r with
                          | inl e =>
                              (print (Line Msg.unhandled) ;;;
                               print (ExnLine e) ;;; ret 3) s1
                          | inr a => (Ok a, s1)
                          end)) = wire s1 /\
               get_checks_cache
                 (self (snd (match r with
                             | inl e =>
                                 (print (Line Msg.unhandled) ;;;
                                  print (ExnLine e) ;;; ret 3) s1
                             | inr a => (Ok a, s1)
                             end))) = get_checks_cache (self s1)).
  { destruct r; split; reflexivity. }
  destruct Hs as [Hs1 Hs2].
  exists w. split; [now rewrite Hs1|]. rewrite Hs2.
  destruct (get_checks_cache (self st)) as [c|].
  - destruct Hc as [Hl Hc]. split; [rewrite Hl; auto|]. intros _. now split.
  - split; [|intros H; now elim H].
    destruct Hc as [[Hl _] | [Hl _]]; rewrite Hl; auto.
Qed.

Lemma listing_requested_at_most_once_witness :
  let st := with_cache Sample.st0 [Sample.c1] in
  let st' := snd (main Sample.json_loads Sample.repr Sample.server
                       (Sample.document [Sample.declared "n" "example.com"]) st) in
  exists w,
    wire st' = w /\ listings w = 0%nat /\
    get_checks_cache (self st') = Some [Sample.c1].
Proof.
  cbv zeta.
  destruct (@listing_requested_at_most_once
              Sample.json_loads Sample.repr Sample.server
              (Sample.document [Sample.declared "n" "example.com"])
              (with_cache Sample.st0 [Sample.c1]))
    as (w & Hw & _ & H).
  exists w. split; [exact Hw|].
  apply H. discriminate.
Defined.

(** *** The program and its arguments *)

Lemma traffic_headers repr key rq :
  traffic repr key rq -> rq_headers rq = [("Authorization", "Bearer " ++ key)].
Proof.
  intros [-> | [[id ->] | [[body ->] | (id & body & ->)]]]; reflexivity.
Qed.

(** X15.  The program and its arguments.  With other than two arguments
    the program prints the usage and ends with status 1; when the first
    argument names no existing file it prints the error and the usage and
    ends with status 2; in both cases nothing is sent.  Otherwise the first
    argument is the file and the second the key: a file that cannot be
    loaded ends the program with status 3, and a loaded document is
    validated and reconciled by a new client, all of whose requests carry
    the second argument as the bearer token. *)
Theorem program_arguments json_loads repr server path_exists load_yaml :
  (forall argv st,
      List.length argv <> 3%nat ->
      program json_loads repr server path_exists load_yaml argv st
      = (Ok 1,
         {| self := self st; wire := wire st;
            stdout := (stdout st ++
                       [Line "Github Actions: Pingdom Manager";
                        Line "Usage: python ./pingdom.py [api_key] [filename]"])%list
         |})) /\
  (forall a0 f k st,
      path_exists f = false ->
      program json_loads repr server path_exists load_yaml [a0; f; k] st
      = (Ok 2,
         {| self := self st; wire := wire st;
            stdout := (stdout st ++
                       [not_found f;
                        Line "Github Actions: Pingdom Manager";
                        Line "Usage: python ./pingdom.py [api_key] [filename]"])%list
         |})) /\
  (forall a0 f k st e,
      path_exists f = true ->
      load_yaml f = Err e ->
      program json_loads repr server path_exists load_yaml [a0; f; k] st
      = (Ok 3,
         {| self := init k; wire := wire st;
            stdout := (stdout st ++
                       [Line "ERROR: Unhandled exception error during YAML file processing";
                        ExnLine e])%list |})) /\
  (forall a0 f k st cfg,
      path_exists f = true ->
      load_yaml f = Ok cfg ->
      program json_loads repr server path_exists load_yaml [a0; f; k] st
      = main json_loads repr server cfg
             {| self := init k; wire := wire st; stdout := stdout st |} /\
      exists w,
        wire (snd (program json_loads repr server path_exists load_yaml
                           [a0; f; k] st))
        = (wire st ++ w)%list /\
        Forall (fun x => rq_headers (fst x) = [("Authorization", "Bearer " ++ k)]) w).
Proof.
  split; [|split; [|split]].
  - intros argv st Hl.
    destruct argv as [|a [|b [|c [|d l]]]];
      try (exfalso; apply Hl; reflexivity);
      unfold program, print_usage, bind, print, ret; simpl;
      now rewrite <- !app_assoc.
  - intros a0 f k st Hf. unfold program. rewrite Hf. simpl.
    unfold bind, print, print_usage, ret, bind, print. simpl.
    now rewrite <- !app_assoc.
  - intros a0 f k st e Hf Hl. unfold program. rewrite Hf. simpl.
    unfold try_except, bind at 1, new_pingdom. unfold Ok at 1. cbv beta iota.
    unfold bind at 1, liftR at 1. rewrite Hl. unfold Err at 1. cbv beta iota.
    unfold bind, print, ret. simpl. now rewrite <- !app_assoc.
  - intros a0 f k st cfg Hf Hl.
    assert (E : program json_loads repr server path_exists load_yaml [a0; f; k] st
                = main json_loads repr server cfg
                       {| self := init k; wire := wire st; stdout := stdout st |}).
    { unfold program. rewrite Hf. simpl.
      unfold main, try_except. unfold bind at 1, new_pingdom.
      unfold Ok at 1. cbv beta iota.
      unfold bind at 1, liftR at 1. rewrite Hl. unfold Ok at 1. cbv beta iota.
      reflexivity. }
    split; [exact E|]. rewrite E.
    destruct (@keeps_main json_loads repr server cfg
                {| self := init k; wire := wire st; stdout := stdout st |})
      as (w & Hw & _ & Hf').
    exists w. split; [exact Hw|].
    eapply Forall_impl; [|exact Hf']. intros x Hx.
    exact (traffic_headers Hx).
Qed.

Lemma program_arguments_witness :
  let path_exists := String.eqb "checks.yml" in
  let load_yaml := fun _ : string => Ok (Sample.document []) in
  program Sample.json_loads Sample.repr Sample.server path_exists load_yaml
          ["pingdom.py"; "KEY"; "checks.yml"] Sample.st0
  = (Ok 2,
     {| self := self Sample.st0; wire := [];
        stdout := [not_found "KEY";
                   Line "Github Actions: Pingdom Manager";
                   Line "Usage: python ./pingdom.py [api_key] [filename]"] |}) /\
  program Sample.json_loads Sample.repr Sample.server path_exists load_yaml
          ["pingdom.py"; "checks.yml"; "KEY"] Sample.st0
  = main Sample.json_loads Sample.repr Sample.server (Sample.document [])
         Sample.st0.
Proof.
  cbv zeta.
  destruct (program_arguments Sample.json_loads Sample.repr Sample.server
              (String.eqb "checks.yml")
              (fun _ : string => Ok (Sample.document [])))
    as (_ & H2 & _ & H4).
  split.
  - apply (H2 "pingdom.py" "KEY" "checks.yml" Sample.st0). reflexivity.
  - apply (H4 "pingdom.py" "checks.yml" "KEY" Sample.st0 (Sample.document []));
      reflexivity.
Defined.

(** *** What the wire form of the tags forgets *)

Lemma join_cons x l :
  l <> [] -> Str.join "," (x :: l) = x ++ "," ++ Str.join "," l.
Proof. destruct l; [congruence | reflexivity]. Qed.

Lemma join_split pre a b post :
  Str.join "," (pre ++ (a ++ "," ++ b)%string :: post)%list
  = Str.join "," (pre ++ a :: b :: post)%list.
Proof.
  induction pre as [|x pre IH].
  - cbn [app]. rewrite (@join_cons a (b :: post)) by discriminate.
    destruct post as [|y post]; [reflexivity|].
    rewrite !join_cons by discriminate.
    now rewrite !StrFacts.app_assoc.
  - cbn [app]. rewrite !join_cons by (destruct pre; discriminate).
    now rewrite IH.
Qed.

Lemma join_snoc_empty l :
  l <> [] -> Str.join "," (l ++ [""%string])%list = Str.join "," l ++ ",".
Proof.
  induction l as [|x l IH]; [congruence|]. intros _.
  destruct l as [|y l]; [reflexivity|].
  change ((x :: y :: l) ++ [""%string])%list
    with (x :: ((y :: l) ++ [""%string]))%list.
  rewrite (@join_cons x ((y :: l) ++ [""%string])%list) by discriminate.
  rewrite IH by discriminate.
  rewrite (@join_cons x (y :: l)) by discriminate.
  now rewrite !StrFacts.app_assoc.
Qed.

Lemma set_set k v v' d : Dict.set k v (Dict.set k v' d) = Dict.set k v d.
Proof.
  induction d as [|[k0 v0] d IH]; simpl.
  - now rewrite String.eqb_refl.
  - destruct (String.eqb k k0) eqn:E; simpl; rewrite E; [reflexivity|].
    now rewrite IH.
Qed.

Lemma format_strs repr l : map (format repr) (map VStr l) = l.
Proof. induction l as [|x l IH]; simpl; [reflexivity | now rewrite IH]. Qed.

(** the wire form of a list of string tags *)
Lemma resolve_tags_strs repr tag d l :
  resolve_tags repr tag (VDict (Dict.set "tags" (VList (map VStr l)) d))
  = Ok (VDict (Dict.set "tags"
                 (VStr (Str.rstrip ","%char (Str.join "," (format repr tag :: l))))
                 d)).
Proof.
  rewrite (@resolve_tags_list repr tag _ (map VStr l)
             (DictFacts.get_set_same _ _ _)).
  rewrite set_set. cbn [map]. now rewrite format_strs.
Qed.

(** X16.  The wire form of the tags does not keep the list.  A tag with a
    comma in it is sent exactly as the two tags around the comma would be,
    and an empty tag at the end of the list leaves no trace: the declared
    tags cannot be told from the field that is sent. *)
Theorem tags_wire_form_loses_structure repr tag d :
  (forall pre a b post,
      resolve_tags repr tag
        (VDict (Dict.set "tags"
                  (VList (map VStr (pre ++ (a ++ "," ++ b)%string :: post)%list)) d))
      = resolve_tags repr tag
          (VDict (Dict.set "tags"
                    (VList (map VStr (pre ++ a :: b :: post)%list)) d))) /\
  (forall l,
      resolve_tags repr tag
        (VDict (Dict.set "tags" (VList (map VStr (l ++ [""%string])%list)) d))
      = resolve_tags repr tag
          (VDict (Dict.set "tags" (VList (map VStr l)) d))).
Proof.
  split.
  - intros pre a b post. rewrite !resolve_tags_strs.
    change (format repr tag :: (pre ++ (a ++ "," ++ b)%string :: post))%list
      with ((format repr tag :: pre) ++ (a ++ "," ++ b)%string :: post)%list.
    now rewrite join_split.
  - intros l. rewrite !resolve_tags_strs.
    change (format repr tag :: (l ++ [""%string]))%list
      with ((format repr tag :: l) ++ [""%string])%list.
    rewrite join_snoc_empty by discriminate.
    now rewrite StrFacts.rstrip_app.
Qed.

(** *** Mandatory parameters and the defaults *)

Lemma find_pointwise A (f g : A -> bool) l :
  (forall a, f a = g a) -> find f l = find g l.
Proof.
  intros H. induction l as [|x l IH]; simpl; [reflexivity|].
  now rewrite H, IH.
Qed.

(** X17.  The defaults count for the mandatory parameters.  The defaults
    are merged into a check before [name], [host] and [type] are looked at,
    so a parameter the check lacks may come from [pingdom.default].  The
    first of the three, in this order, that is then missing or no string
    makes validation fail, with the error for a missing value or for a
    wrong type that names it. *)
Theorem first_bad_mandatory_parameter_named teams integrations D C p :
  let merged k :=
    match Dict.get k C with
    | Some v => Some v
    | None => Dict.get k D
    end in
  find (fun k => match merged k with Some (VStr _) => false | _ => true end)
       ["name"; "host"; "type"] = Some p ->
  validate_check teams integrations (VDict D) (VDict C)
  = Err (Exception
           (match merged p with
            | None =>
                "Configuration Error: Could not locate mandatory `" ++ p
                  ++ "` value in check"
            | Some _ =>
                "Configuration Error: Invalid data type `" ++ p
                  ++ "` in check, expected string value"
            end)).
Proof.
  cbv zeta. intros Hf.
  unfold validate_check. rewrite populate_defaults_dict, rbind_Ok.
  rewrite mandatory_parameters_dict.
  rewrite (@find_pointwise _
             (fun p => match Dict.get p (merge D C) with
                       | Some (VStr _) => false
                       | _ => true
                       end)
             (fun k => match match Dict.get k C with
                             | Some v => Some v
                             | None => Dict.get k D
                             end with
                       | Some (VStr _) => false
                       | _ => true
                       end)
             ["name"; "host"; "type"]
             (fun k => f_equal
                         (fun o => match o with
                                   | Some (VStr _) => false
                                   | _ => true
                                   end)
                         (get_merge k D C))).
  rewrite Hf, get_merge.
  destruct (match Dict.get p C with
            | Some v => Some v
            | None => Dict.get p D
            end); reflexivity.
Qed.

Lemma first_bad_mandatory_parameter_named_witness :
  validate_check [] [] (VDict [("type", VStr "http")])
                 (VDict [("name", VStr "n"); ("host", VInt 7)])
  = Err (Exception
           "Configuration Error: Invalid data type `host` in check, expected string value")
  /\
  validate_check [] [] (VDict [("host", VStr "h.example")])
                 (VDict [("name", VStr "n")])
  = Err (Exception
           "Configuration Error: Could not locate mandatory `type` value in check").
Proof.
  split.
  - apply (@first_bad_mandatory_parameter_named
             [] [] [("type", VStr "http")]
             [("name", VStr "n"); ("host", VInt 7)] "host").
    reflexivity.
  - apply (@first_bad_mandatory_parameter_named
             [] [] [("host", VStr "h.example")] [("name", VStr "n")] "type").
    reflexivity.
Defined.
